(** * CustomTools: connection pools, bulk runner, FDB cache, CSV loader, updater

    A shallow embedding of the Python sources of the repository
    (main.py, BulkCommands/main.py, FDBSearching/main.py, update.py) and the
    properties stated about them.

    Conventions of the embedding.
    - Python [str] values are [string]s over 8-bit characters; the text the
      tools handle (host names, versions, CSV cells) is ASCII.
    - A [dict] is a [gmap]. Where the order of a dict shows to the operator
      (the numbered list of pooled hosts in the menu) it is the insertion
      order Python keeps, recovered from the client numbers; the other loops
      over a dict run over [map_to_list], and the properties stated about
      them do not depend on the order.
    - A [paramiko.SSHClient] object is known by its identity, a [nat]
      allocated from a counter.
    - Code that talks to the outside (SSH, the console, the clock) runs in a
      state-and-exception monad over an explicit machine state; what the
      outside answers is read from an oracle indexed by the number of
      interactions so far, so every behaviour over time is covered.
    - Readings of [time.time()] are rationals.
    - Console output ([print]) is not part of the state, and appending to a
      log file on the local disk always succeeds. *)

From Stdlib Require Import ZArith QArith Ascii String List Bool Lia.
From stdpp Require Import base option list gmap strings fin_maps sorting.

Local Open Scope string_scope.
Local Open Scope Z_scope.
Local Open Scope list_scope.

(** ** Python string primitives *)

Module Py.

(** [str.isspace] on one ASCII character: TAB, LF, VT, FF, CR, the four
    separators 0x1c to 0x1f, and the space. *)
Definition is_space (c : ascii) : bool :=
  let n := nat_of_ascii c in
  ((9 <=? n)%nat && (n <=? 13)%nat) || ((28 <=? n)%nat && (n <=? 32)%nat).

Fixpoint lstrip (s : string) : string :=
  match s with
  | String c rest => if is_space c then lstrip rest else s
  | EmptyString => EmptyString
  end.

(** Removes trailing white space: a character is kept when something
    non-blank follows it or it is not blank itself. *)
Fixpoint rstrip (s : string) : string :=
  match s with
  | String c rest =>
      match rstrip rest with
      | EmptyString => if is_space c then EmptyString else String c EmptyString
      | r => String c r
      end
  | EmptyString => EmptyString
  end.

(** [s.strip()] *)
Definition strip (s : string) : string := rstrip (lstrip s).

(** [s.split(sep)] for a one-character separator, with the field being read
    kept in [cur] (reversed). The result is never empty. *)
Fixpoint split_go (sep : ascii) (s : string) (cur : list ascii) : list string :=
  match s with
  | EmptyString => [string_of_list_ascii (rev cur)]
  | String c rest =>
      if Ascii.eqb c sep
      then string_of_list_ascii (rev cur) :: split_go sep rest []
      else split_go sep rest (c :: cur)
  end.

Definition split (sep : ascii) (s : string) : list string := split_go sep s [].

Definition digit_of (c : ascii) : option Z :=
  let n := nat_of_ascii c in
  if ((48 <=? n)%nat && (n <=? 57)%nat)%bool
  then Some (Z.of_nat (n - 48)) else None.

(** The digits of an integer literal: decimal digits, single underscores
    allowed between two digits. [prev] tells whether the previous character
    was a digit. *)
Fixpoint int_digits (s : string) (acc : Z) (prev : bool) : option Z :=
  match s with
  | EmptyString => if prev then Some acc else None
  | String c rest =>
      if Ascii.eqb c "_"%char
      then (if prev then int_digits rest acc false else None)
      else match digit_of c with
           | Some d => int_digits rest (10 * acc + d) true
           | None => None
           end
  end.

(** [int(s)]: [None] stands for the [ValueError] it raises. White space
    around the literal is dropped and one sign is accepted. *)
Definition int (s : string) : option Z :=
  match strip s with
  | String "-"%char rest => Z.opp <$> int_digits rest 0 false
  | String "+"%char rest => int_digits rest 0 false
  | t => int_digits t 0 false
  end.

(** [needle in hay] on strings. *)
Fixpoint is_prefix (p s : string) : bool :=
  match p, s with
  | EmptyString, _ => true
  | String a p', String b s' => Ascii.eqb a b && is_prefix p' s'
  | String _ _, EmptyString => false
  end.

Fixpoint contains (hay needle : string) : bool :=
  is_prefix needle hay ||
  match hay with
  | EmptyString => false
  | String _ rest => contains rest needle
  end.

(** [s.lower()] on ASCII letters. *)
Definition lower_char (c : ascii) : ascii :=
  let n := nat_of_ascii c in
  if ((65 <=? n)%nat && (n <=? 90)%nat)%bool then ascii_of_nat (n + 32) else c.

Fixpoint lower (s : string) : string :=
  match s with
  | EmptyString => EmptyString
  | String c rest => String (lower_char c) (lower rest)
  end.

(** Comparison [a > b] of two lists of integers, as Python orders lists:
    the first position where they differ decides, and a proper extension is
    greater than its prefix. *)
Fixpoint list_gt (a b : list Z) : bool :=
  match a, b with
  | [], _ => false
  | _ :: _, [] => true
  | x :: a', y :: b' => if x =? y then list_gt a' b' else y <? x
  end.

(** [s.replace(c, '')] for a one-character [c] *)
Fixpoint remove_char (c : ascii) (s : string) : string :=
  match s with
  | EmptyString => EmptyString
  | String x rest =>
      if Ascii.eqb x c then remove_char c rest else String x (remove_char c rest)
  end.

(** [s[:n]] *)
Fixpoint take (n : nat) (s : string) : string :=
  match n, s with
  | S n', String x rest => String x (take n' rest)
  | _, _ => EmptyString
  end.

(** [s.split()]: the maximal runs of characters that are not white space,
    with the run being read kept in [cur] (reversed). *)
Fixpoint split_ws_go (s : string) (cur : list ascii) : list string :=
  match s with
  | EmptyString =>
      match cur with
      | [] => []
      | _ :: _ => [string_of_list_ascii (rev cur)]
      end
  | String x rest =>
      if is_space x
      then match cur with
           | [] => split_ws_go rest []
           | _ :: _ => string_of_list_ascii (rev cur) :: split_ws_go rest []
           end
      else split_ws_go rest (x :: cur)
  end.

Definition split_ws (s : string) : list string := split_ws_go s [].

(** The line boundaries of [str.splitlines] among the 8-bit characters of
    the model: LF, VT, FF, CR, and the separators 0x1c to 0x1e. *)
Definition is_linebreak (c : ascii) : bool :=
  let n := nat_of_ascii c in
  ((10 <=? n)%nat && (n <=? 13)%nat) || ((28 <=? n)%nat && (n <=? 30)%nat).

(** [s.splitlines()]: CR LF counts as one boundary, and a boundary at the
    end of the text opens no further line. *)
Fixpoint splitlines_go (s : string) (cur : list ascii) : list string :=
  match s with
  | EmptyString =>
      match cur with
      | [] => []
      | _ :: _ => [string_of_list_ascii (rev cur)]
      end
  | String x rest =>
      if is_linebreak x
      then string_of_list_ascii (rev cur) ::
           splitlines_go
             (match rest with
              | String y rest' =>
                  if Ascii.eqb x "013"%char && Ascii.eqb y "010"%char then rest' else rest
              | EmptyString => rest
              end) []
      else splitlines_go rest (x :: cur)
  end.

Definition splitlines (s : string) : list string := splitlines_go s [].

End Py.

(** ** Exceptions and results *)

(** The exception classes the handlers of the sources tell apart. *)
Inductive exn_class :=
  | SocketTimeout   (* socket.timeout *)
  | CsvError        (* csv.Error *)
  | ValueError
  | KeyError
  | AttributeError
  | OtherException. (* any other subclass of Exception *)

(** An exception object: its class and [str(e)]. *)
Record exn := Exn { exn_kind : exn_class; exn_str : string }.

Inductive result (A : Type) :=
  | Ok (a : A)
  | Raise (e : exn).
Arguments Ok {A} a.
Arguments Raise {A} e.

#[global] Instance exn_class_eq_dec : EqDecision exn_class.
Proof. solve_decision. Defined.

(** ** update.py *)

Module Update.

(** [[int(x) for x in v.split('.')]]; [None] when one [int(x)] raises. *)
Definition parts (v : string) : option (list Z) :=
  mapM Py.int (Py.split "."%char v).

(** [is_newer_version(current, latest)]: the bare [except:] turns every
    exception of the body into [False]. *)
Definition is_newer_version (current latest : string) : bool :=
  match parts current with
  | None => false
  | Some current_parts =>
      match parts latest with
      | None => false
      | Some latest_parts =>
          let max_len := Nat.max (length current_parts) (length latest_parts) in
          let current_parts :=
            current_parts ++ repeat 0 (max_len - length current_parts)%nat in
          let latest_parts :=
            latest_parts ++ repeat 0 (max_len - length latest_parts)%nat in
          Py.list_gt latest_parts current_parts
      end
  end.

(** A parsed versions.json: the JSON object's ["tools"] entry, when it has
    one, maps tool names to version strings. *)
Record versions := Versions { tools : option (gmap string string) }.

(** [v.get("tools", {})] *)
Definition get_tools (v : versions) : gmap string string :=
  default ∅ (tools v).

(** One value of the dict [compare_versions] returns. *)
Record update_info := UpdateInfo { current : string; latest : string }.

(** [compare_versions(local_versions, remote_versions)]: the loop over
    [remote_tools.items()] that fills [updates_available]. *)
Definition compare_versions (local_versions remote_versions : versions)
  : gmap string update_info :=
  let local_tools := get_tools local_versions in
  let remote_tools := get_tools remote_versions in
  map_fold
    (fun tool_name remote_version updates_available =>
       let local_version := default "0.0.0" (local_tools !! tool_name) in
       if is_newer_version local_version remote_version
       then <[tool_name := UpdateInfo local_version remote_version]>
              updates_available
       else updates_available)
    ∅ remote_tools.

(** The files [update_tools] works on. A tool folder is known by a label of
    its content; a folder that a removal or a copy which raised part way
    left incomplete is a folder still, with a label of its own.
    [versions_json] is [None] when the file cannot be loaded. *)
Record files := Files {
  folders : gmap string string;
  versions_json : option versions
}.

(** What the run meets outside the installation: the extracted archive,
    which file operations raise, and what the ones that raise leave behind.
    [shutil.rmtree] removes the directory itself last, so a removal that
    raises leaves the folder in place, with [rmtree_leaves tool] as what was
    not removed yet (all of it, when the first deletion fails).
    [shutil.copytree] that raises leaves what it has created by then,
    [copytree_leaves tool], which is nothing when it fails before it creates
    the directory. The answers are given per tool: in a selection without
    repetition each tool meets each operation at most once. *)
Record archive := Archive {
  repo_folders : gmap string string;
  rmtree_fails : string -> bool;
  copytree_fails : string -> bool;
  save_fails : bool;
  rmtree_leaves : string -> string;
  copytree_leaves : string -> option string
}.

Section UpdateTools.
Context (a : archive).

(** The folder of [tool] replaced by [left], or gone when there is none. *)
Definition set_folder (tool : string) (left : option string) (fs : files) : files :=
  Files (match left with
         | Some label => <[tool := label]> (folders fs)
         | None => delete tool (folders fs)
         end)
        (versions_json fs).

(** [shutil.rmtree(dest_path)]; [true] when it returns. *)
Definition rmtree (tool : string) (fs : files) : bool * files :=
  if rmtree_fails a tool
  then (false, set_folder tool (Some (rmtree_leaves a tool)) fs)
  else (true, set_folder tool None fs).

(** [shutil.copytree(source_path, dest_path)] to a [dest_path] that does not
    exist; [true] when it returns. *)
Definition copytree (tool content : string) (fs : files) : bool * files :=
  if copytree_fails a tool
  then (false, set_folder tool (copytree_leaves a tool) fs)
  else (true, set_folder tool (Some content) fs).

(** [copy_tool_folder(source_path, dest_path)] for the folder of [tool];
    [content] is what the archive holds at [source_path]. The [except]
    clause turns an exception of either call into [False], and leaves the
    files as the call that raised left them. *)
Definition copy_tool_folder (tool content : string) (fs : files)
  : bool * files :=
  let '(removed, fs) :=
    match folders fs !! tool with
    | Some _ => rmtree tool fs
    | None => (true, fs)
    end in
  if removed then copytree tool content fs else (false, fs).

(** The first loop of [update_tools]: one pass over [selected_tools],
    counting the copies that succeeded. *)
Fixpoint install_loop (selected_tools : list string) (success_count : nat)
    (fs : files) : nat * files :=
  match selected_tools with
  | [] => (success_count, fs)
  | tool_name :: rest =>
      match repo_folders a !! tool_name with
      | None => install_loop rest success_count fs   (* continue *)
      | Some content =>
          let '(copied, fs) := copy_tool_folder tool_name content fs in
          if copied then install_loop rest (S success_count) fs
          else install_loop rest success_count fs
      end
  end.

(** [load_versions(versions_file)] *)
Definition load_versions (fs : files) : versions :=
  default (Versions (Some ∅)) (versions_json fs).

(** The second loop: [local_versions["tools"][tool_name] = ...] for the
    selected tools the remote manifest lists. Subscripting a manifest that
    has no ["tools"] raises [KeyError]. *)
Fixpoint bump_loop (selected_tools : list string)
    (remote_versions local_versions : versions) : result versions :=
  match selected_tools with
  | [] => Ok local_versions
  | tool_name :: rest =>
      match get_tools remote_versions !! tool_name with
      | Some remote_version =>
          match tools local_versions with
          | Some local_tools =>
              bump_loop rest remote_versions
                (Versions (Some (<[tool_name := remote_version]> local_tools)))
          | None => Raise (Exn KeyError "'tools'")
          end
      | None => bump_loop rest remote_versions local_versions
      end
  end.

(** [save_versions(versions_file, versions_data)]; a failure is printed
    and nothing is written. *)
Definition save_versions (versions_data : versions) (fs : files) : files :=
  if save_fails a then fs
  else Files (folders fs) (Some versions_data).

(** [update_tools(customtools_root, extracted_repo, selected_tools,
    remote_versions)] *)
Definition update_tools (selected_tools : list string)
    (remote_versions : versions) (fs : files) : result bool * files :=
  let '(success_count, fs) := install_loop selected_tools 0 fs in
  if (0 <? success_count)%nat then
    let local_versions := load_versions fs in
    match bump_loop selected_tools remote_versions local_versions with
    | Ok local_versions => (Ok true, save_versions local_versions fs)
    | Raise e => (Raise e, fs)
    end
  else (Ok false, fs).

End UpdateTools.




(** [[int(x.strip()) - 1 for x in user_input.split(',')]]; [None] when one
    [int] raises. *)
Definition selections (user_input : string) : option (list Z) :=
  mapM (fun x => (fun n => n - 1) <$> Py.int (Py.strip x)) (Py.split ","%char user_input).

(** The loop over [selections] that fills [selected_tools]. *)
Fixpoint selected (updates_available : gmap string update_info)
    (tool_list : list string) (idxs : list Z) : list string :=
  match idxs with
  | [] => []
  | idx :: rest =>
      if (0 <=? idx) && (idx <? Z.of_nat (length tool_list))
      then match tool_list !! Z.to_nat idx with
           | Some tool =>
               if bool_decide (is_Some (updates_available !! tool))
               then tool :: selected updates_available tool_list rest
               else selected updates_available tool_list rest
           | None => selected updates_available tool_list rest
           end
      else selected updates_available tool_list rest
  end.

(** The [while True] loop of [display_update_options] over the lines the
    operator types; [None] when the lines run out before one is accepted. *)
Fixpoint selection_loop (updates_available : gmap string update_info)
    (all_tools tool_list : list string) (typed : list string) : option (list string) :=
  match typed with
  | [] => None
  | line :: rest =>
      let user_input := Py.lower (Py.strip line) in
      if String.eqb user_input "none" then Some []
      else if String.eqb user_input "all"
      then Some (List.filter (fun tool => bool_decide (is_Some (updates_available !! tool)))
                             all_tools)
      else match selections user_input with
           | Some idxs =>
               match selected updates_available tool_list idxs with
               | [] => selection_loop updates_available all_tools tool_list rest
               | selected_tools => Some selected_tools
               end
           | None => selection_loop updates_available all_tools tool_list rest
           end
  end.

(** [display_update_options(updates_available, all_tools)] *)
Definition display_update_options (updates_available : gmap string update_info)
    (all_tools : list string) (typed : list string) : option (list string) :=
  if bool_decide (updates_available = ∅) && bool_decide (all_tools = [])
  then Some []
  else
    let tool_list := all_tools in
    if bool_decide (updates_available = ∅) then Some []
    else selection_loop updates_available all_tools tool_list typed.

End Update.

(** ** BulkCommands/main.py: the CSV loader *)

Module Csv.

(** What [csv.reader] does at one line of the file: it yields the cells of
    the row (none for a blank line), or it raises ([csv.Error] on a line it
    cannot parse, a decoding error on bytes that are not UTF-8). *)
Inductive line :=
  | Row (cells : list string)
  | Fails (e : exn).

(** The file behind [csv_path]: [open] raises, or the lines are read. *)
Inductive file :=
  | Unreadable (e : exn)
  | Lines (ls : list line).

(** [dict(zip(fieldnames, row))] followed by the fill of the missing keys
    with [restval = None], as [csv.DictReader.__next__] builds a row. A value
    [None] is Python's [None]. *)
Definition row_dict (fieldnames row : list string) : gmap string (option string) :=
  let d := foldl (fun d kv => <[kv.1 := Some kv.2]> d) ∅ (zip fieldnames row) in
  foldl (fun d key => <[key := None]> d) d (drop (length row) fieldnames).

(** The [for row in reader] loop of [load_csv_column]; [items] is the list
    built so far. *)
Fixpoint read_items (fieldnames : list string) (column_name : string)
    (ls : list line) (items : list string) : result (list string) :=
  match ls with
  | [] => Ok items
  | Fails e :: _ => Raise e
  | Row [] :: rest => read_items fieldnames column_name rest items
  | Row cells :: rest =>
      match row_dict fieldnames cells !! column_name with
      | Some (Some cell) =>
          let value := Py.strip cell in
          if String.eqb value "" then read_items fieldnames column_name rest items
          else read_items fieldnames column_name rest (items ++ [value])
      | Some None =>
          Raise (Exn AttributeError "'NoneType' object has no attribute 'strip'")
      | None => Raise (Exn KeyError column_name)
      end
  end.

(** The body of the [try] of [load_csv_column]. *)
Definition read_column (csv_path column_name : string) (f : file)
  : result (list string) :=
  match f with
  | Unreadable e => Raise e
  | Lines [] =>
      Raise (Exn ValueError ("Column '" ++ column_name ++ "' not found in " ++ csv_path)%string)
  | Lines (Fails e :: _) => Raise e
  | Lines (Row fieldnames :: rest) =>
      if bool_decide (fieldnames = []) || negb (bool_decide (column_name ∈ fieldnames))
      then Raise (Exn ValueError ("Column '" ++ column_name ++ "' not found in " ++ csv_path)%string)
      else read_items fieldnames column_name rest []
  end.

(** [load_csv_column(csv_path, column_name)]; every error leaves as a
    [ValueError]. *)
Definition load_csv_column (csv_path column_name : string) (f : file)
  : result (list string) :=
  match read_column csv_path column_name f with
  | Raise (Exn CsvError msg) =>
      Raise (Exn ValueError ("CSV parsing error in " ++ csv_path ++ ": " ++ msg)%string)
  | Raise e =>
      Raise (Exn ValueError ("Error reading " ++ csv_path ++ ": " ++ exn_str e)%string)
  | Ok [] => Raise (Exn ValueError ("No items found in " ++ csv_path)%string)
  | Ok items => Ok items
  end.

End Csv.

(** ** The machine the tools run on *)

(** The identity of a [paramiko.SSHClient] object. *)
Definition session := nat.

(** One entry of the FDB cache: [{'data': ..., 'timestamp': ...}]. *)
Record cache_entry := CacheEntry { data : string; timestamp : Q }.

(** What a log file receives. *)
Inductive log_entry :=
  | LogHeader (switch : string)
  | LogCommand (command output error : string) (exec_time : Q) (status : string)
  | LogFooter (total_commands successful errors : nat)
  | LogConnectionError (msg : string).

(** What the program does to the outside, in the order it does it. *)
Inductive event :=
  | Connect (host : string) (ssh : session)     (* ssh.connect(hostname=host, ...) *)
  | Exec (ssh : session) (command : string)     (* ssh.exec_command(command) *)
  | Close (ssh : session)                       (* ssh.close() *)
  | Input (switch_ip : string) (minutes_ago : Z) (* input(<refresh prompt>) *)
  | ReadCredentials                             (* open('credentials.txt') *)
  | Log (log_file : string) (entry : log_entry).

(** What the outside answers. The first argument of every field is the
    value of the interaction counter when the question is asked. *)
Record world := World {
  connect_exn : nat -> string -> option exn;
  exec_exn : nat -> session -> string -> option exn;
  stdout_read : nat -> session -> string -> result string;
  stderr_read : nat -> session -> string -> result string;
  close_exn : nat -> session -> option exn;
  console_in : nat -> string;
  time_at : nat -> Q;
  credentials_exn : nat -> option exn
}.

(** The [stats] dict of [process_switch]. *)
Record switch_stats := Stats {
  total : nat;
  success : nat;
  errors : nat;
  connection_failed : bool
}.

Record state := State {
  clock : nat;                          (* interactions so far *)
  next_client : session;                (* the next SSHClient object *)
  trace : list event;                   (* oldest first *)
  connections : gmap string session;    (* the pool dict *)
  fdb_cache : gmap string cache_entry;
  stats : switch_stats                  (* the local [stats] of process_switch *)
}.

(** A computation that reads and changes the state and either returns or
    raises. *)
Definition M (A : Type) : Type := state -> result A * state.

#[global] Instance M_ret : MRet M := fun A a st => (Ok a, st).
#[global] Instance M_bind : MBind M := fun A B f m st =>
  match m st with
  | (Ok a, st') => f a st'
  | (Raise e, st') => (Raise e, st')
  end.

Definition raise {A} (e : exn) : M A := fun st => (Raise e, st).

(** [try: body except Exception as e: handler(e)] *)
Definition try_except {A} (body : M A) (handler : exn -> M A) : M A :=
  fun st =>
    match body st with
    | (Ok a, st') => (Ok a, st')
    | (Raise e, st') => handler e st'
    end.

Definition gets {A} (f : state -> A) : M A := fun st => (Ok (f st), st).
Definition modify (f : state -> state) : M unit := fun st => (Ok tt, f st).

(** [for x in l: body(x)] *)
Fixpoint for_each {A} (l : list A) (body : A -> M unit) : M unit :=
  match l with
  | [] => mret tt
  | x :: rest => body x ;; for_each rest body
  end.

Definition set_connections (c : gmap string session) (st : state) : state :=
  State (clock st) (next_client st) (trace st) c (fdb_cache st) (stats st).
Definition set_fdb_cache (c : gmap string cache_entry) (st : state) : state :=
  State (clock st) (next_client st) (trace st) (connections st) c (stats st).
Definition set_stats (s : switch_stats) (st : state) : state :=
  State (clock st) (next_client st) (trace st) (connections st) (fdb_cache st) s.

Module Sys.
Section Sys.
Context (w : world).

(** One interaction: leaves [ev] in the trace and returns the counter the
    answer is read at. *)
Definition interact (ev : event) : M nat := fun st =>
  (Ok (clock st),
   State (S (clock st)) (next_client st) (trace st ++ [ev])
         (connections st) (fdb_cache st) (stats st)).

(** A question that leaves no trace (the clock). *)
Definition tick : M nat := fun st =>
  (Ok (clock st),
   State (S (clock st)) (next_client st) (trace st)
         (connections st) (fdb_cache st) (stats st)).

Definition raise_if (o : option exn) : M unit :=
  match o with Some e => raise e | None => mret tt end.

Definition of_result {A} (r : result A) : M A :=
  match r with Ok a => mret a | Raise e => raise e end.

(** [paramiko.SSHClient()] *)
Definition SSHClient : M session := fun st =>
  (Ok (next_client st),
   State (clock st) (S (next_client st)) (trace st)
         (connections st) (fdb_cache st) (stats st)).

(** [ssh.connect(hostname=host, ...)] *)
Definition connect (ssh : session) (host : string) : M unit :=
  t ← interact (Connect host ssh); raise_if (connect_exn w t host).

(** [ssh.exec_command(command)] *)
Definition exec_command (ssh : session) (command : string) : M unit :=
  t ← interact (Exec ssh command); raise_if (exec_exn w t ssh command).

(** [stdout.read().decode(...)] and [stderr.read().decode(...)] of the
    channel [exec_command] opened *)
Definition read_stdout (ssh : session) (command : string) : M string :=
  t ← tick; of_result (stdout_read w t ssh command).
Definition read_stderr (ssh : session) (command : string) : M string :=
  t ← tick; of_result (stderr_read w t ssh command).

(** [ssh.close()] *)
Definition close (ssh : session) : M unit :=
  t ← interact (Close ssh); raise_if (close_exn w t ssh).

(** [time.time()] *)
Definition time : M Q := t ← tick; mret (time_at w t).

(** [input(prompt)] for the refresh prompt of the FDB cache *)
Definition input (switch_ip : string) (minutes_ago : Z) : M string :=
  t ← interact (Input switch_ip minutes_ago); mret (console_in w t).

(** Appending to a log file. Writing to the local disk is taken to
    succeed. *)
Definition append_log (log_file : string) (entry : log_entry) : M unit :=
  _ ← interact (Log log_file entry); mret tt.

End Sys.
End Sys.

(** ** main.py: ConnectionManager *)

Module ConnectionManager.
Section ConnectionManager.
Context (w : world).

(** [get_connection(self, host)]. The probe branch yields [Some ssh] when
    it returns the cached client and [None] when control reaches the
    creation of a new one. *)
Definition get_connection (host : string) : M session :=
  conns ← gets connections;
  reused ← match conns !! host with
           | Some ssh =>
               try_except
                 (Sys.exec_command w ssh "show system" ;; mret (Some ssh))
                 (fun _ =>
                    try_except (Sys.close w ssh) (fun _ => mret tt) ;;
                    modify (fun st => set_connections (delete host (connections st)) st) ;;
                    mret None)
           | None => mret None
           end;
  match reused with
  | Some ssh => mret ssh
  | None =>
      ssh ← Sys.SSHClient;
      try_except
        (Sys.connect w ssh host ;;
         modify (fun st => set_connections (<[host := ssh]> (connections st)) st) ;;
         mret ssh)
        (fun e => raise e)
  end.

(** [close_all(self)] *)
Definition close_all : M unit :=
  conns ← gets connections;
  for_each (map_to_list conns)
    (fun '(host, ssh_client) =>
       try_except (Sys.close w ssh_client) (fun _ => mret tt)) ;;
  modify (set_connections ∅).

(** [close_connection(self, host)] *)
Definition close_connection (host : string) : M unit :=
  conns ← gets connections;
  match conns !! host with
  | Some ssh =>
      try_except
        (Sys.close w ssh ;;
         modify (fun st => set_connections (delete host (connections st)) st))
        (fun e => mret tt)
  | None => mret tt
  end.

End ConnectionManager.
End ConnectionManager.

(** ** BulkCommands/main.py: LocalConnectionManager *)

Module LocalConnectionManager.
Section LocalConnectionManager.
Context (w : world).

(** [get_connection(self, host)] *)
Definition get_connection (host : string) : M session :=
  conns ← gets connections;
  match conns !! host with
  | Some ssh => mret ssh
  | None =>
      ssh ← Sys.SSHClient;
      try_except
        (Sys.connect w ssh host ;;
         modify (fun st => set_connections (<[host := ssh]> (connections st)) st) ;;
         mret ssh)
        (fun e =>
           raise (Exn OtherException
                    ("Failed to connect to " ++ host ++ ": " ++ exn_str e)%string))
  end.

(** [close_all(self)] *)
Definition close_all : M unit :=
  conns ← gets connections;
  for_each (map_to_list conns)
    (fun '(_, ssh) => try_except (Sys.close w ssh) (fun _ => mret tt)) ;;
  modify (set_connections ∅).

End LocalConnectionManager.
End LocalConnectionManager.

(** ** FDBSearching/main.py *)

Module FDBSearching.
Section FDBSearching.
Context (w : world).

(** [cache_duration = 15 * 60] *)
Definition cache_duration : Q := inject_Z (15 * 60).

(** [a < b] on clock readings *)
Definition Qltb (a b : Q) : bool := negb (Qle_bool b a).

(** [int(x)] of a clock difference: truncation towards zero *)
Definition Qtrunc (x : Q) : Z := Z.quot (Qnum x) (Z.pos (Qden x)).

(** [get_fdb_info(ssh_client, switch_ip, fdb_cache, force_refresh)]. The
    cache branch yields [Some data] when it returns cached data and [None]
    when control reaches the fetch. *)
Definition get_fdb_info (ssh_client : session) (switch_ip : string)
    (force_refresh : bool) : M string :=
  current_time ← Sys.time w;
  cache ← gets fdb_cache;
  cached ← match cache !! switch_ip with
           | Some cached_data =>
               if force_refresh then mret None
               else
                 let time_since_cache := Qminus current_time (timestamp cached_data) in
                 if Qltb time_since_cache cache_duration
                 then mret (Some (data cached_data))
                 else
                   let minutes_ago := Qtrunc (Qdiv time_since_cache (inject_Z 60)) in
                   user_input ← Sys.input w switch_ip minutes_ago;
                   if negb (String.eqb (Py.lower user_input) "y")
                   then mret (Some (data cached_data))
                   else mret None
           | None => mret None
           end;
  match cached with
  | Some fdb_output => mret fdb_output
  | None =>
      Sys.exec_command w ssh_client "show fdb" ;;
      fdb_output ← Sys.read_stdout w ssh_client "show fdb";
      modify (fun st =>
                set_fdb_cache
                  (<[switch_ip := CacheEntry fdb_output current_time]> (fdb_cache st)) st) ;;
      mret fdb_output
  end.

(** Reading [credentials.txt] into a user name and a password. *)
Definition read_credentials : M unit :=
  t ← Sys.interact ReadCredentials; Sys.raise_if (credentials_exn w t).

(** [get_ssh_connection(switch_ip, ssh_connections)] *)
Definition get_ssh_connection (switch_ip : string) : M session :=
  conns ← gets connections;
  reused ← match conns !! switch_ip with
           | Some ssh =>
               try_except
                 (Sys.exec_command w ssh "show system" ;; mret (Some ssh))
                 (fun _ =>
                    try_except (Sys.close w ssh) (fun _ => mret tt) ;;
                    modify (fun st => set_connections (delete switch_ip (connections st)) st) ;;
                    mret None)
           | None => mret None
           end;
  match reused with
  | Some ssh => mret ssh
  | None =>
      read_credentials ;;
      ssh ← Sys.SSHClient;
      Sys.connect w ssh switch_ip ;;
      modify (fun st => set_connections (<[switch_ip := ssh]> (connections st)) st) ;;
      mret ssh
  end.

(** [close_all_connections(ssh_connections)] *)
Definition close_all_connections : M unit :=
  conns ← gets connections;
  for_each (map_to_list conns)
    (fun '(_, ssh_client) =>
       try_except (Sys.close w ssh_client) (fun _ => mret tt)) ;;
  modify (set_connections ∅).

End FDBSearching.
(** One dict of the list [load_camera_csv] returns. *)
Record camera := Camera {
  server_name : string;
  device_name : string;
  ip_address : string;
  model : string;
  mac_address : string;
  switch_port : string
}.

(** [row[i] if len(row) > i else ''] *)
Definition cell (row : list string) (i : nat) : string := default "" (row !! i).

(** The [next(reader)] calls that skip the 30 leading lines and read the
    header; [None] when one of them raises, be it [StopIteration] at the end
    of the file. *)
Fixpoint skip_lines (n : nat) (ls : list Csv.line) : option (list Csv.line) :=
  match n with
  | O => Some ls
  | S n' =>
      match ls with
      | Csv.Row _ :: rest => skip_lines n' rest
      | Csv.Fails _ :: _ => None
      | [] => None
      end
  end.

(** The [for row in reader] loop of [load_camera_csv]; an exception of the
    reader ends it with the cameras appended so far. *)
Fixpoint read_cameras (ls : list Csv.line) (cameras : list camera) : list camera :=
  match ls with
  | [] => cameras
  | Csv.Fails _ :: _ => cameras
  | Csv.Row row :: rest =>
      if (0 <? length row)%nat && negb (String.eqb (cell row 0) "")
      then read_cameras rest
             (cameras ++ [Camera (cell row 0) (cell row 1) (cell row 2)
                                 (cell row 3) (cell row 4) (cell row 5)])
      else read_cameras rest cameras
  end.

(** [load_camera_csv(csv_file)] on the file behind [csv_file]; here
    [csv.reader] yields an empty row for a blank line. *)
Definition load_camera_csv (f : Csv.file) : list camera :=
  match f with
  | Csv.Unreadable _ => []
  | Csv.Lines ls =>
      match skip_lines 31 ls with
      | None => []
      | Some rows => read_cameras rows []
      end
  end.

(** [find_camera_by_mac(mac_address, cameras)] *)
Fixpoint find_camera_by_mac (mac : string) (cameras : list camera) : option camera :=
  let normalized_search_mac :=
    Py.lower (Py.remove_char "-" (Py.remove_char ":" mac)) in
  match cameras with
  | [] => None
  | camera :: rest =>
      let normalized_csv_mac :=
        Py.lower (Py.remove_char "-" (Py.remove_char ":" (mac_address camera))) in
      if String.eqb normalized_search_mac normalized_csv_mac
      then Some camera
      else find_camera_by_mac mac rest
  end.

(** The loop over the lines of the database in [check_mac_database];
    [line.split()[0]] raises [IndexError] on a line without any token. *)
Fixpoint scan_database (formatted_mac : string) (lines : list string) : result bool :=
  match lines with
  | [] => Ok false
  | line :: rest =>
      match Py.split_ws line with
      | [] => Raise (Exn OtherException "list index out of range")
      | token :: _ =>
          let db_mac_prefix := Py.take 6 (Py.lower (Py.remove_char ":" token)) in
          if String.eqb formatted_mac db_mac_prefix then Ok true
          else scan_database formatted_mac rest
      end
  end.

(** [check_mac_database(user_mac, database_file)]; the database is the list
    of its lines, or the exception [open] raises. *)
Definition check_mac_database (user_mac : string) (database : result (list string))
  : result bool :=
  let formatted_mac := Py.take 6 (Py.lower (Py.remove_char ":" user_mac)) in
  match database with
  | Raise e => Raise e
  | Ok lines => scan_database formatted_mac lines
  end.

End FDBSearching.

(** ** BulkCommands/main.py: the batch runner *)

(** What [process_switch] and [run_bulk_commands] ask of [conn_manager]. *)
Class ConnManager := {
  cm_get_connection : string -> M session;
  cm_close_all : M unit
}.

Module BulkCommands.

(** [overall_stats] of [run_bulk_commands] *)
Record overall_stats := Overall {
  total_switches : nat;
  processed : nat;
  connection_failures : nat;
  total_commands : nat;
  total_success : nat;
  total_errors : nat
}.

(** [switch.replace("/", "_").replace("\\", "_").replace(":", "_")] *)
Fixpoint sanitize (switch : string) : string :=
  match switch with
  | EmptyString => EmptyString
  | String c rest =>
      String (if Ascii.eqb c "/" || Ascii.eqb c "\" || Ascii.eqb c ":"
              then "_"%char else c) (sanitize rest)
  end.

(** [get_log_file_path(switch)]: the directory [logs_dir / switch_safe] of
    the switch; the time-stamped name of the file inside it is left out. *)
Definition get_log_file_path (switch : string) : string :=
  ("Logs/" ++ sanitize switch)%string.

Section BulkCommands.
Context (w : world) (conn_manager : ConnManager).

(** [execute_command(ssh, command)]: returns
    [(output, error, success, exec_time)]. *)
Definition execute_command (ssh : session) (command : string)
  : M (string * string * bool * Q) :=
  start_time ← Sys.time w;
  try_except
    (Sys.exec_command w ssh command ;;
     output ← Sys.read_stdout w ssh command;
     error ← Sys.read_stderr w ssh command;
     now ← Sys.time w;
     mret (output, error, true, Qminus now start_time))
    (fun e =>
       now ← Sys.time w;
       if decide (exn_kind e = SocketTimeout)
       then mret ("", "Command execution timed out", false, Qminus now start_time)
       else mret ("", exn_str e, false, Qminus now start_time)).

Definition add_total (s : switch_stats) : switch_stats :=
  Stats (S (total s)) (success s) (errors s) (connection_failed s).
Definition add_success (s : switch_stats) : switch_stats :=
  Stats (total s) (S (success s)) (errors s) (connection_failed s).
Definition add_error (s : switch_stats) : switch_stats :=
  Stats (total s) (success s) (S (errors s)) (connection_failed s).
Definition set_connection_failed (s : switch_stats) : switch_stats :=
  Stats (total s) (success s) (errors s) true.

(** The body of the [for idx, command in enumerate(commands, 1)] loop. *)
Definition run_command (ssh : session) (log_file command : string) : M unit :=
  modify (fun st => set_stats (add_total (stats st)) st) ;;
  try_except
    ('(output, error, success, exec_time) ← execute_command ssh command;
     status ← (if success && String.eqb error ""
               then modify (fun st => set_stats (add_success (stats st)) st) ;;
                    mret "Success"
               else if success
               then modify (fun st => set_stats (add_error (stats st)) st) ;;
                    mret "Completed with errors"
               else modify (fun st => set_stats (add_error (stats st)) st) ;;
                    mret "Failed");
     Sys.append_log log_file (LogCommand command output error exec_time status))
    (fun e =>
       modify (fun st => set_stats (add_error (stats st)) st) ;;
       Sys.append_log log_file (LogCommand command "" (exn_str e) 0%Q "Failed")).

(** [process_switch(conn_manager, switch, commands, log_file)] *)
Definition process_switch (switch : string) (commands : list string)
    (log_file : string) : M switch_stats :=
  modify (set_stats (Stats 0 0 0 false)) ;;
  try_except
    (ssh ← cm_get_connection switch;
     Sys.append_log log_file (LogHeader switch) ;;
     for_each commands (run_command ssh log_file) ;;
     s ← gets stats;
     Sys.append_log log_file (LogFooter (total s) (success s) (errors s)))
    (fun e =>
       modify (fun st => set_stats (set_connection_failed (stats st)) st) ;;
       try_except
         (Sys.append_log log_file (LogConnectionError (exn_str e)))
         (fun _ => mret tt)) ;;
  gets stats.

(** The [for switch_idx, switch in enumerate(switches, 1)] loop of
    [run_bulk_commands]. *)
Fixpoint switches_loop (switches commands : list string)
    (overall : overall_stats) : M overall_stats :=
  match switches with
  | [] => mret overall
  | switch :: rest =>
      let log_file := get_log_file_path switch in
      s ← process_switch switch commands log_file;
      let overall :=
        Overall (total_switches overall)
                (S (processed overall))
                (if connection_failed s
                 then S (connection_failures overall)
                 else connection_failures overall)
                (total_commands overall + total s)
                (total_success overall + success s)
                (total_errors overall + errors s) in
      switches_loop rest commands overall
  end.

(** [run_bulk_commands(conn_manager)] on the two CSV files ([None]: the
    file does not exist and a template is written). Returns the final
    [overall_stats], or [None] when the run stops before the loop. *)
Definition run_bulk_commands (switches_csv commands_csv : option Csv.file)
  : M (option overall_stats) :=
  match switches_csv, commands_csv with
  | Some sf, Some cf =>
      match Csv.load_csv_column "switches.csv" "hostname" sf with
      | Raise _ => mret None
      | Ok switches =>
          match Csv.load_csv_column "commands.csv" "command" cf with
          | Raise _ => mret None
          | Ok commands =>
              overall ← switches_loop switches commands
                          (Overall (length switches) 0 0 0 0 0);
              mret (Some overall)
          end
      end
  | _, _ => mret None
  end.

End BulkCommands.
End BulkCommands.

(** The central manager of main.py and the local one of BulkCommands, as
    [run_bulk_commands] receives them. *)
Definition central_manager (w : world) : ConnManager :=
  {| cm_get_connection := ConnectionManager.get_connection w;
     cm_close_all := ConnectionManager.close_all w |}.
Definition local_manager (w : world) : ConnManager :=
  {| cm_get_connection := LocalConnectionManager.get_connection w;
     cm_close_all := LocalConnectionManager.close_all w |}.

(** ** main.py: MainMenu *)

Module MainMenu.

(** The order in which Python iterates over the pool dict is the order its
    entries were inserted in. [get_connection] inserts an entry only for a
    host that has none (a dead one is deleted first), and the client of the
    entry is the one the call has just created; clients are numbered as they
    are created, and deleting an entry keeps the order of the others. So an
    entry was inserted before another exactly when its client number is the
    smaller one. *)
Definition older (p q : string * session) : Prop := (p.2 <= q.2)%nat.

#[global] Instance older_dec p q : Decision (older p q) := decide (p.2 <= q.2)%nat.

(** The entries of the pool dict in the order Python iterates over them. *)
Definition items (conns : gmap string session) : list (string * session) :=
  merge_sort older (map_to_list conns).

Section MainMenu.
Context (w : world).

(** [ConnectionManager.list_connections(self)]: [list(self.connections.keys())] *)
Definition list_connections : M (list string) :=
  conns ← gets connections;
  mret (items conns).*1.

(** [MainMenu.close_connection(self)]; [typed] is the line the operator
    enters at "Select connection to close (number): ". A line that is not a
    number makes [int] raise the [ValueError] the method catches. *)
Definition close_connection (typed : string) : M unit :=
  active ← list_connections;
  match active with
  | [] => mret tt
  | _ :: _ =>
      let choice := Py.strip typed in
      match Py.int choice with
      | None => mret tt
      | Some n =>
          let idx := n - 1 in
          if (0 <=? idx) && (idx <? Z.of_nat (length active))
          then match active !! Z.to_nat idx with
               | Some host => ConnectionManager.close_connection w host
               | None => raise (Exn OtherException "list index out of range")
               end
          else mret tt
      end
  end.

(** [MainMenu.exit_program(self)] *)
Definition exit_program : M unit := ConnectionManager.close_all w.

End MainMenu.
End MainMenu.

(** ** credentials.py *)

Module Credentials.

(** Whether an exception is caught by [except ValueError]. *)
Definition is_value_error (e : exn) : bool := bool_decide (exn_kind e = ValueError).

(** The two exceptions [load_credentials] raises. *)
Inductive error :=
  | FileNotFoundError (msg : string)
  | ValueError (msg : string).

(** The file credentials.txt: absent, present but failing to be read (with
    the exception of [open] or [read]), or present with its text. *)
Inductive file :=
  | Absent
  | Unreadable (e : exn)
  | Content (text : string).

(** The text of the template: "username", a line feed, "password". *)
Definition template : string :=
  ("username" ++ String "010" "password")%string.

(** [create_credentials_template()]; [write_fails] tells whether
    [write_text] raises. *)
Definition create_credentials_template (write_fails : bool) (f : file) : bool * file :=
  match f with
  | Absent => if write_fails then (false, f) else (true, Content template)
  | Unreadable _ => (false, f)
  | Content _ => (false, f)
  end.

(** [load_credentials(create_if_missing)]; [creds_path] is the path shown
    in the messages. *)
Definition load_credentials (creds_path : string) (write_fails : bool)
    (create_if_missing : bool) (f : file) : (error + string * string) * file :=
  match f with
  | Absent =>
      if create_if_missing
      then
        let '(_, f) := create_credentials_template write_fails f in
        (inl (FileNotFoundError
                ("Credentials template created at " ++ creds_path ++ ". " ++
                 "Please fill it with your credentials and run again.")%string), f)
      else (inl (FileNotFoundError ("Credentials file not found at " ++ creds_path)%string), f)
  | Unreadable e =>
      if is_value_error e
      then (inl (ValueError (exn_str e)), f)
      else (inl (ValueError ("Error reading credentials: " ++ exn_str e)%string), f)
  | Content text =>
      let lines := Py.splitlines (Py.strip text) in
      match lines with
      | line0 :: line1 :: _ =>
          let username := Py.strip line0 in
          let password := Py.strip line1 in
          if String.eqb username "" || String.eqb password ""
          then (inl (ValueError "Username and password cannot be empty"), f)
          else (inr (username, password), f)
      | _ =>
          (inl (ValueError
                  "Credentials file must contain at least 2 lines: username and password"), f)
      end
  end.

(** [validate_credentials(username, password)] on two strings *)
Definition validate_credentials (username password : string) : bool :=
  negb (String.eqb username "") && negb (String.eqb password "").

End Credentials.

(** ** main.py: start-up *)

Module Main.

(** [ensure_credentials()]: the credentials, or the exit code of
    [sys.exit]. *)
Definition ensure_credentials (creds_path : string) (write_fails : bool)
    (f : Credentials.file) : (Z + string * string) * Credentials.file :=
  match Credentials.load_credentials creds_path write_fails true f with
  | (inr (username, password), f) => (inr (username, password), f)
  | (inl (Credentials.FileNotFoundError _), f) => (inl 1, f)
  | (inl (Credentials.ValueError _), f) => (inl 1, f)
  end.

End Main.

(** * Vocabulary of the properties

    The notions the statements below are written with, the worlds and
    states they are tried on, and the tactics of the proofs. *)

(** The order the specification names: two integer tuples of the same
    length compared lexicographically. *)
Inductive lex_lt : list Z -> list Z -> Prop :=
  | lex_lt_here x y a b : x < y -> length a = length b -> lex_lt (x :: a) (y :: b)
  | lex_lt_next x a b : lex_lt a b -> lex_lt (x :: a) (x :: b).

(** A tuple padded with zeros on the right up to length [n]. *)
Definition zero_pad (n : nat) (l : list Z) : list Z :=
  l ++ repeat 0 (n - length l)%nat.

(** An installation with both tools at 1.0.0, an archive that holds
    BulkCommands only and meets no failing file operation, and a remote
    manifest with both tools at 1.1.0. *)
Definition both_at_1_0_0 : Update.files :=
  Update.Files
    {[ "FDBSearching" := "FDBSearching 1.0.0"; "BulkCommands" := "BulkCommands 1.0.0" ]}
    (Some (Update.Versions
             (Some {[ "FDBSearching" := "1.0.0"; "BulkCommands" := "1.0.0" ]}))).

Definition archive_without_fdb : Update.archive :=
  Update.Archive {[ "BulkCommands" := "BulkCommands 1.1.0" ]}
                 (fun _ => false) (fun _ => false) false
                 (fun _ => "") (fun _ => None).

Definition remote_1_1_0 : Update.versions :=
  Update.Versions (Some {[ "FDBSearching" := "1.1.0"; "BulkCommands" := "1.1.0" ]}).

(** The cells a file holds under a column, line by line: blank lines give
    nothing, every other line gives the cell its row dict has for the
    column. *)
Inductive column_cells (fieldnames : list string) (column_name : string)
  : list Csv.line -> list string -> Prop :=
  | cells_done : column_cells fieldnames column_name [] []
  | cells_blank_line rows cs :
      column_cells fieldnames column_name rows cs ->
      column_cells fieldnames column_name (Csv.Row [] :: rows) cs
  | cells_row cells c rows cs :
      cells <> [] ->
      Csv.row_dict fieldnames cells !! column_name = Some (Some c) ->
      column_cells fieldnames column_name rows cs ->
      column_cells fieldnames column_name (Csv.Row cells :: rows) (c :: cs).

Definition non_blank (cs : list string) : list string :=
  filter (fun v : string => v <> "") (Py.strip <$> cs).

(** Unfolds the monad and the primitives of [Sys]. *)
Ltac unfold_sys :=
  cbv [mbind M_bind mret M_ret try_except gets modify raise
       Sys.interact Sys.tick Sys.raise_if Sys.of_result Sys.SSHClient
       Sys.connect Sys.exec_command Sys.close Sys.read_stdout Sys.read_stderr
       Sys.time Sys.input Sys.append_log set_connections set_fdb_cache set_stats] in *;
  cbn [clock next_client trace connections fdb_cache stats] in *.

Ltac reduce_run :=
  cbv beta iota zeta in *;
  cbn [clock next_client trace connections fdb_cache stats fst snd] in *.

(** Splits on an oracle answer or dict lookup a hypothesis is stuck on. *)
Ltac split_answer_in H :=
  match type of H with
  | context [match ?x with _ => _ end] =>
      lazymatch x with
      | context [match _ with _ => _ end] => fail
      | _ => destruct x eqn:?
      end
  end; reduce_run.

(** Splits on an oracle answer or dict lookup the goal is stuck on. *)
Ltac split_answer :=
  match goal with
  | |- context [match ?x with _ => _ end] =>
      lazymatch x with
      | context [match _ with _ => _ end] => fail
      | _ => destruct x eqn:?
      end
  end; reduce_run.

(** A world in which nothing fails: every command prints its own name, the
    operator answers "n", and the clock advances one second per
    interaction. *)
Definition quiet : world :=
  World (fun _ _ => None) (fun _ _ _ => None)
        (fun _ _ command => Ok ("output of " ++ command)%string)
        (fun _ _ _ => Ok "")
        (fun _ _ => None) (fun _ => "n")
        (fun t => inject_Z (Z.of_nat t)) (fun _ => None).

(** The state of a program that has just started. *)
Definition start : state := State 0 0%nat [] ∅ ∅ (Stats 0 0 0 false).

(** FDBSearching's pool functions, seen as a connection manager. *)
Definition fdb_manager (w : world) : ConnManager :=
  {| cm_get_connection := FDBSearching.get_ssh_connection w;
     cm_close_all := FDBSearching.close_all_connections w |}.

(** The three pools of the repository. *)
Definition pools (w : world) : list ConnManager :=
  [central_manager w; local_manager w; fdb_manager w].

(** Reuse behind a probe, for one [acquire]: when two calls in a row for the same
    host both return, and the probe of the cached client does not fail, the
    second call returns the client of the first and has sent it the probe
    command, and nothing else, before returning it. *)
Definition probed_reuse (w : world) (acquire : string -> M session) : Prop :=
  forall host st0 s1 st1 s2 st2,
    acquire host st0 = (Ok s1, st1) ->
    acquire host st1 = (Ok s2, st2) ->
    exec_exn w (clock st1) s1 "show system" = None ->
    s2 = s1 /\ trace st2 = trace st1 ++ [Exec s1 "show system"].

(** Reuse without any probe: the second call returns the client of the
    first and leaves the state, trace included, as it was. *)
Definition unprobed_reuse (acquire : string -> M session) : Prop :=
  forall host st0 s1 st1 s2 st2,
    acquire host st0 = (Ok s1, st1) ->
    acquire host st1 = (Ok s2, st2) ->
    s2 = s1 /\ st2 = st1.

(** A world in which every [close] raises; everything else is as in
    [quiet]. *)
Definition close_raises : world :=
  World (fun _ _ => None) (fun _ _ _ => None)
        (fun _ _ command => Ok ("output of " ++ command)%string)
        (fun _ _ _ => Ok "")
        (fun _ _ => Some (Exn OtherException "Socket is closed")) (fun _ => "n")
        (fun t => inject_Z (Z.of_nat t)) (fun _ => None).

(** The state after one reading of the clock. *)
Definition after_clock (st : state) : state :=
  State (S (clock st)) (next_client st) (trace st) (connections st)
        (fdb_cache st) (stats st).

(** A world whose clock advances one hour per interaction; the operator
    answers "n". *)
Definition hourly : world :=
  World (fun _ _ => None) (fun _ _ _ => None)
        (fun _ _ command => Ok ("output of " ++ command)%string)
        (fun _ _ _ => Ok "")
        (fun _ _ => None) (fun _ => "n")
        (fun t => inject_Z (3600 * Z.of_nat t)) (fun _ => None).

(** A state whose cache holds an entry for 10.1.1.1 taken at time 0. *)
Definition cached_at_0 : state :=
  State 1 1%nat [] {[ "10.1.1.1" := 0%nat ]}
        {[ "10.1.1.1" := CacheEntry "old table" (inject_Z 0) ]} (Stats 0 0 0 false).

(** What the switch answers to one command sent at counter [t]: the outputs
    on stdout and stderr when [exec_command] and both reads return, the
    exception of the first of them that raises otherwise. *)
Definition remote_call (w : world) (ssh : session) (command : string) (t : nat)
  : result (string * string) :=
  match exec_exn w t ssh command with
  | Some e => Raise e
  | None =>
      match stdout_read w (S t) ssh command with
      | Raise e => Raise e
      | Ok output =>
          match stderr_read w (S (S t)) ssh command with
          | Raise e => Raise e
          | Ok error => Ok (output, error)
          end
      end
  end.

(** The commands sent to the switches, in order, with the client each one
    was sent to. *)
Definition commands_sent (tr : list event) : list (session * string) :=
  omap (fun ev => match ev with Exec ssh command => Some (ssh, command) | _ => None end) tr.

Ltac unfold_bulk :=
  unfold BulkCommands.run_command, BulkCommands.execute_command,
         BulkCommands.add_total, BulkCommands.add_success, BulkCommands.add_error,
         BulkCommands.set_connection_failed in *.

(** The two connection managers [run_bulk_commands] is called with: the
    central one from the menu and the local one in standalone mode. *)
Definition bulk_managers (w : world) : list ConnManager :=
  [central_manager w; local_manager w].

(** A connection manager does not reach the local variables of its caller. *)
Definition keeps_stats (cm : ConnManager) : Prop :=
  forall host st, stats (cm_get_connection host st).2 = stats st.

(** A world in which the host "bad" cannot be reached and the reads of
    "show clock" time out; everything else is as in [quiet]. *)
Definition flaky : world :=
  World (fun _ host => if String.eqb host "bad"
                       then Some (Exn OtherException "No route to host") else None)
        (fun _ _ _ => None)
        (fun _ _ command => if String.eqb command "show clock"
                            then Raise (Exn SocketTimeout "timed out")
                            else Ok ("output of " ++ command)%string)
        (fun _ _ _ => Ok "")
        (fun _ _ => None) (fun _ => "n")
        (fun t => inject_Z (Z.of_nat t)) (fun _ => None).

From Stdlib Require Import Lqa.

(** The pool holds only clients that were created, and no client under two
    hosts. *)
Definition pool_wf (st : state) : Prop :=
  (forall host ssh, connections st !! host = Some ssh -> (ssh < next_client st)%nat) /\
  (forall h1 h2 ssh,
      connections st !! h1 = Some ssh -> connections st !! h2 = Some ssh -> h1 = h2).

(** The pools that probe a cached client before they return it. *)
Definition probing_pools (w : world) : list ConnManager :=
  [central_manager w; fdb_manager w].

(** Splits a membership in a list that is written out. *)
Ltac split_mem :=
  repeat match goal with
         | H : _ ∈ [] |- _ => apply elem_of_nil in H; destruct H
         | H : _ ∈ _ :: _ |- _ => apply elem_of_cons in H; destruct H as [H | H]
         end.

(** The characters [get_log_file_path] replaces in a switch name. *)
Definition path_char (c : ascii) : Prop :=
  c = "/"%char \/ c = "\"%char \/ c = ":"%char.

(** What was appended to the log files, in order. *)
Definition log_entries (tr : list event) : list (string * log_entry) :=
  omap (fun ev => match ev with Log log_file entry => Some (log_file, entry) | _ => None end) tr.

(** The entry logged for a command, with one of the three statuses. *)
Definition command_entry (log_file command : string) (e : string * log_entry) : Prop :=
  exists output error exec_time status,
    e = (log_file, LogCommand command output error exec_time status) /\
    (status = "Success" \/ status = "Completed with errors" \/ status = "Failed").

(** The number of entries logged with status "Success". *)
Definition is_success_entry (e : string * log_entry) : bool :=
  match e.2 with
  | LogCommand _ _ _ _ status => String.eqb status "Success"
  | _ => false
  end.

Definition count_success (es : list (string * log_entry)) : nat :=
  length (List.filter is_success_entry es).

(** The form in which [find_camera_by_mac] compares MAC addresses: without
    colons and hyphens, in lower case. *)
Definition mac_key (mac : string) : string :=
  Py.lower (Py.remove_char "-" (Py.remove_char ":" mac)).

(** The form in which [check_mac_database] compares MAC addresses: the
    first six characters once the colons are removed, in lower case. *)
Definition mac_prefix (mac : string) : string :=
  Py.take 6 (Py.lower (Py.remove_char ":" mac)).

(** A database line that has a first token, and that token does not match
    the prefix searched. *)
Definition other_vendor (user_mac line : string) : Prop :=
  exists token, head (Py.split_ws line) = Some token /\
                mac_prefix token <> mac_prefix user_mac.

(** The camera [load_camera_csv] builds from a row. *)
Definition camera_of_row (row : list string) : FDBSearching.camera :=
  FDBSearching.Camera (FDBSearching.cell row 0) (FDBSearching.cell row 1)
                      (FDBSearching.cell row 2) (FDBSearching.cell row 3)
                      (FDBSearching.cell row 4) (FDBSearching.cell row 5).

Definition is_row (l : Csv.line) : Prop := exists cells, l = Csv.Row cells.

(** A selected tool whose folder [update_tools] cannot replace: it is not
    in the archive, or removing the installed folder fails, or the copy
    fails. *)
Definition cannot_replace (a : Update.archive) (fs : Update.files) (tool : string) : Prop :=
  Update.repo_folders a !! tool = None \/
  (is_Some (Update.folders fs !! tool) /\ Update.rmtree_fails a tool = true) \/
  Update.copytree_fails a tool = true.

(** A selected tool whose folder [update_tools] replaces: the archive holds
    it, the installed folder, when there is one, can be removed, and the
    copy returns. *)
Definition can_replace (a : Update.archive) (fs : Update.files) (tool : string) : Prop :=
  is_Some (Update.repo_folders a !! tool) /\
  (is_Some (Update.folders fs !! tool) -> Update.rmtree_fails a tool = false) /\
  Update.copytree_fails a tool = false.

(** * Properties *)

(** ** Version comparison *)

Lemma length_zero_pad n l : (length l <= n)%nat -> length (zero_pad n l) = n.
Proof. intros H. unfold zero_pad. rewrite length_app, repeat_length. lia. Qed.

Lemma list_gt_lex a : forall b,
  length a = length b -> Py.list_gt a b = true <-> lex_lt b a.
Proof.
  induction a as [|x a IH]; intros [|y b] Hlen; simpl in Hlen; try discriminate.
  - simpl. split; [discriminate | inversion 1].
  - injection Hlen as Hlen. simpl. destruct (Z.eqb_spec x y) as [->|Hne].
    + rewrite (IH b Hlen). split.
      * apply lex_lt_next.
      * inversion 1; subst; [lia | assumption].
    + rewrite Z.ltb_lt. split.
      * intros Hlt. apply lex_lt_here; [assumption | symmetry; assumption].
      * inversion 1; subst; [assumption | congruence].
Qed.

Lemma parts_Some v l :
  Update.parts v = Some l <->
  Forall2 (fun x n => Py.int x = Some n) (Py.split "."%char v) l.
Proof. unfold Update.parts. apply mapM_Some. Qed.

Lemma parts_None v :
  Update.parts v = None <->
  Exists (fun x => Py.int x = None) (Py.split "."%char v).
Proof. unfold Update.parts. apply mapM_None. Qed.

(** C3. [is_newer_version current latest] splits both strings on the dot
    and reads every component with [int]; when all components are integers
    the answer is the lexicographic comparison [latest > current] of the two
    tuples padded with zeros to their common length, and when some component
    of either string is not an integer the answer is [False]. The four
    sample comparisons come out as listed. *)
Theorem is_newer_version_correct :
  (forall current latest cp lp,
      Forall2 (fun x n => Py.int x = Some n) (Py.split "."%char current) cp ->
      Forall2 (fun x n => Py.int x = Some n) (Py.split "."%char latest) lp ->
      let n := Nat.max (length cp) (length lp) in
      length (zero_pad n cp) = n /\ length (zero_pad n lp) = n /\
      (Update.is_newer_version current latest = true <->
       lex_lt (zero_pad n cp) (zero_pad n lp))) /\
  (forall current latest,
      Exists (fun x => Py.int x = None)
             (Py.split "."%char current ++ Py.split "."%char latest) ->
      Update.is_newer_version current latest = false) /\
  Update.is_newer_version "1.2.3" "1.2.10" = true /\
  Update.is_newer_version "1.10.0" "1.9.9" = false /\
  Update.is_newer_version "1.2" "1.2.0" = false /\
  Update.is_newer_version "abc" "1.0.0" = false.
Proof.
  split; [|split; [|repeat split; reflexivity]].
  - intros current latest cp lp Hc Hl n.
    apply parts_Some in Hc, Hl.
    assert (Hcn : length (zero_pad n cp) = n) by (apply length_zero_pad; lia).
    assert (Hln : length (zero_pad n lp) = n) by (apply length_zero_pad; lia).
    split; [exact Hcn | split; [exact Hln |]].
    assert (Heq : length (zero_pad n lp) = length (zero_pad n cp)) by congruence.
    unfold Update.is_newer_version. rewrite Hc, Hl.
    apply list_gt_lex. exact Heq.
  - intros current latest Hex. apply Exists_app in Hex.
    unfold Update.is_newer_version.
    destruct Hex as [Hex | Hex]; apply parts_None in Hex.
    + rewrite Hex. reflexivity.
    + rewrite Hex. destruct (Update.parts current); reflexivity.
Qed.

Lemma is_newer_version_correct_witness :
  (Update.is_newer_version "1.2" "1.2.0" = true <-> lex_lt [1; 2; 0] [1; 2; 0]) /\
  Update.is_newer_version "1.x" "1.0.0" = false.
Proof.
  destruct is_newer_version_correct as (Hcmp & Hbad & _).
  split.
  - destruct (Hcmp "1.2" "1.2.0" [1; 2] [1; 2; 0]) as (_ & _ & H).
    + repeat constructor.
    + repeat constructor.
    + exact H.
  - apply Hbad. apply Exists_cons_tl, Exists_cons_hd. reflexivity.
Defined.

(** ** The version manifest diff *)

Lemma compare_versions_lookup local_versions remote_versions tool :
  Update.compare_versions local_versions remote_versions !! tool =
  match Update.get_tools remote_versions !! tool with
  | Some rv =>
      let lv := default "0.0.0" (Update.get_tools local_versions !! tool) in
      if Update.is_newer_version lv rv then Some (Update.UpdateInfo lv rv) else None
  | None => None
  end.
Proof.
  unfold Update.compare_versions.
  generalize (Update.get_tools remote_versions).
  apply (map_fold_weak_ind (fun r (m : gmap string string) =>
    r !! tool = match m !! tool with
                | Some rv =>
                    let lv := default "0.0.0" (Update.get_tools local_versions !! tool) in
                    if Update.is_newer_version lv rv
                    then Some (Update.UpdateInfo lv rv) else None
                | None => None
                end)).
  - rewrite !lookup_empty. reflexivity.
  - intros i x m r Hi IH.
    destruct (decide (i = tool)) as [->|Hne].
    + rewrite lookup_insert_eq. rewrite Hi in IH. cbn zeta.
      destruct (Update.is_newer_version _ x).
      * apply lookup_insert_eq.
      * exact IH.
    + rewrite (lookup_insert_ne m) by exact Hne.
      destruct (Update.is_newer_version _ x).
      * rewrite lookup_insert_ne by exact Hne. exact IH.
      * exact IH.
Qed.

(** C10. A tool the remote manifest lists and the local one does not is
    compared as local version "0.0.0": when its remote version is newer than
    "0.0.0" it is reported with [current = "0.0.0"] and [latest] the remote
    version. A tool the remote manifest does not list is never reported,
    whatever the local manifest says. *)
Theorem compare_versions_missing_local local_versions remote_versions :
  (forall tool rv,
      Update.get_tools remote_versions !! tool = Some rv ->
      Update.get_tools local_versions !! tool = None ->
      Update.is_newer_version "0.0.0" rv = true ->
      Update.compare_versions local_versions remote_versions !! tool
      = Some (Update.UpdateInfo "0.0.0" rv)) /\
  (forall tool,
      Update.get_tools remote_versions !! tool = None ->
      Update.compare_versions local_versions remote_versions !! tool = None).
Proof.
  split.
  - intros tool rv Hr Hl Hnew.
    rewrite compare_versions_lookup, Hr, Hl. cbn. rewrite Hnew. reflexivity.
  - intros tool Hr. rewrite compare_versions_lookup, Hr. reflexivity.
Qed.

Lemma compare_versions_missing_local_witness :
  let local_versions := Update.Versions (Some {[ "OldTool" := "3.0.0" ]}) in
  let remote_versions := Update.Versions (Some {[ "BulkCommands" := "1.0.0" ]}) in
  Update.compare_versions local_versions remote_versions !! "BulkCommands"
  = Some (Update.UpdateInfo "0.0.0" "1.0.0") /\
  Update.compare_versions local_versions remote_versions !! "OldTool" = None.
Proof.
  intros local_versions remote_versions.
  destruct (compare_versions_missing_local local_versions remote_versions)
    as [Hnew Hgone].
  split.
  - apply Hnew; reflexivity.
  - apply Hgone; reflexivity.
Defined.

(** ** The update step *)

(** C8. What the code does when a selected tool cannot be replaced while
    another one is: FDBSearching is missing from the archive, so its folder
    is left as it was, BulkCommands is replaced, and the versions.json that
    is saved records 1.1.0 for both of them. *)
Theorem update_tools_bumps_failed_tool :
  exists fs saved,
    Update.update_tools archive_without_fdb ["FDBSearching"; "BulkCommands"]
                        remote_1_1_0 both_at_1_0_0 = (Ok true, fs) /\
    Update.folders fs !! "FDBSearching" = Some "FDBSearching 1.0.0" /\
    Update.folders fs !! "BulkCommands" = Some "BulkCommands 1.1.0" /\
    Update.versions_json fs = Some (Update.Versions (Some saved)) /\
    saved !! "FDBSearching" = Some "1.1.0" /\
    saved !! "BulkCommands" = Some "1.1.0".
Proof.
  eexists _, _. vm_compute. repeat split; reflexivity.
Qed.

(** ** The CSV loader *)

Lemma append_cons x (a b : string) : (String x a ++ b)%string = String x (a ++ b)%string.
Proof. reflexivity. Qed.

Lemma append_empty_l (b : string) : ("" ++ b)%string = b.
Proof. reflexivity. Qed.

Lemma append_assoc (a b c : string) : ((a ++ b) ++ c)%string = (a ++ b ++ c)%string.
Proof.
  induction a as [|x a IH]; [reflexivity |].
  rewrite !append_cons, IH. reflexivity.
Qed.

Lemma is_prefix_app b c : Py.is_prefix b (b ++ c)%string = true.
Proof.
  induction b as [|x b IH]; [reflexivity |].
  rewrite append_cons. simpl. rewrite Ascii.eqb_refl. exact IH.
Qed.

Lemma contains_prefix hay needle :
  Py.is_prefix needle hay = true -> Py.contains hay needle = true.
Proof. intros H. destruct hay; simpl; rewrite H; reflexivity. Qed.

Lemma contains_app a b c : Py.contains (a ++ b ++ c)%string b = true.
Proof.
  induction a as [|x a IH].
  - rewrite append_empty_l. apply contains_prefix, is_prefix_app.
  - rewrite append_cons. simpl. rewrite IH. apply orb_true_r.
Qed.

Lemma contains_app_end a b : Py.contains (a ++ b)%string b = true.
Proof.
  pose proof (contains_app a b "") as H.
  replace (b ++ "")%string with b in H; [exact H |].
  clear H. induction b as [|x b IH]; [reflexivity |].
  rewrite append_cons. congruence.
Qed.

Lemma read_items_cells fieldnames column_name rows cs :
  column_cells fieldnames column_name rows cs ->
  forall items,
    Csv.read_items fieldnames column_name rows items = Ok (items ++ non_blank cs).
Proof.
  induction 1 as [|rows cs _ IH|cells c rows cs Hne Hcell _ IH]; intros items.
  - simpl. rewrite app_nil_r. reflexivity.
  - simpl. apply IH.
  - destruct cells as [|c0 cells]; [congruence |].
    cbn [Csv.read_items]. rewrite Hcell.
    unfold non_blank. rewrite fmap_cons, filter_cons.
    destruct (String.eqb_spec (Py.strip c) "") as [Hb | Hb].
    + rewrite decide_False by (intros Hn; apply Hn; exact Hb). apply IH.
    + rewrite decide_True by exact Hb.
      rewrite IH, <- app_assoc. reflexivity.
Qed.

(** C9, as the code has it. For a file with a header row:
    - when the header lacks the column, [load_csv_column] raises a
      [ValueError] whose message contains the path and the column name;
    - when the header has the column, the result is the list of the
      stripped, non-empty cells under it, in order, so blank cells are
      skipped; and when no such cell is left, as when every cell under the
      column is blank, it raises the [ValueError] "No items found in
      <path>", whose message contains the path. *)
Theorem load_csv_column_header csv_path column_name fieldnames rows :
  (column_name ∉ fieldnames ->
   exists msg,
     Csv.load_csv_column csv_path column_name (Csv.Lines (Csv.Row fieldnames :: rows))
     = Raise (Exn ValueError msg) /\
     Py.contains msg csv_path = true /\ Py.contains msg column_name = true) /\
  (forall cs,
     column_name ∈ fieldnames ->
     column_cells fieldnames column_name rows cs ->
     Csv.load_csv_column csv_path column_name (Csv.Lines (Csv.Row fieldnames :: rows))
     = match non_blank cs with
       | [] => Raise (Exn ValueError ("No items found in " ++ csv_path)%string)
       | items => Ok items
       end /\
     Forall (fun v => v <> "") (non_blank cs) /\
     (Forall (fun c => Py.strip c = "") cs ->
      Csv.load_csv_column csv_path column_name (Csv.Lines (Csv.Row fieldnames :: rows))
      = Raise (Exn ValueError ("No items found in " ++ csv_path)%string)) /\
     Py.contains ("No items found in " ++ csv_path)%string csv_path = true).
Proof.
  split.
  - intros Hnot.
    exists ("Error reading " ++ csv_path ++ ": " ++
            "Column '" ++ column_name ++ "' not found in " ++ csv_path)%string.
    split; [|split].
    + unfold Csv.load_csv_column, Csv.read_column.
      rewrite (bool_decide_eq_false_2 (column_name ∈ fieldnames)) by exact Hnot.
      rewrite orb_true_r. reflexivity.
    + apply (contains_app "Error reading " csv_path).
    + pose proof (contains_app ("Error reading " ++ csv_path ++ ": " ++ "Column '")
                               column_name ("' not found in " ++ csv_path)) as H.
      rewrite !append_assoc in H. exact H.
  - intros cs Hin Hcells.
    assert (Hload :
      Csv.load_csv_column csv_path column_name (Csv.Lines (Csv.Row fieldnames :: rows))
      = match non_blank cs with
        | [] => Raise (Exn ValueError ("No items found in " ++ csv_path)%string)
        | items => Ok items
        end).
    { unfold Csv.load_csv_column, Csv.read_column.
      rewrite (bool_decide_eq_true_2 (column_name ∈ fieldnames)) by exact Hin.
      rewrite bool_decide_eq_false_2
        by (intros ->; apply elem_of_nil in Hin; exact Hin).
      cbn [orb negb]. rewrite (read_items_cells _ _ _ _ Hcells []).
      rewrite app_nil_l. destruct (non_blank cs); reflexivity. }
    split; [exact Hload |]. split; [|split].
    + unfold non_blank. apply Forall_forall. intros v Hv.
      apply list_elem_of_filter in Hv. tauto.
    + intros Hall. rewrite Hload.
      replace (non_blank cs) with (@nil string); [reflexivity |].
      unfold non_blank. clear Hcells Hload.
      induction Hall as [|c cs Hc _ IH]; [reflexivity |].
      rewrite fmap_cons, filter_cons, decide_False by (intros Hn; apply Hn; exact Hc).
      exact IH.
    + apply contains_app_end.
Qed.

Lemma load_csv_column_header_witness :
  (exists msg,
     Csv.load_csv_column "switches.csv" "hostname"
       (Csv.Lines [Csv.Row ["name"]; Csv.Row ["sw1"]])
     = Raise (Exn ValueError msg) /\
     Py.contains msg "switches.csv" = true /\ Py.contains msg "hostname" = true) /\
  Csv.load_csv_column "switches.csv" "hostname"
    (Csv.Lines [Csv.Row ["site"; "hostname"]; Csv.Row ["a"; " sw1 "]; Csv.Row [];
                Csv.Row ["b"; "  "]; Csv.Row ["c"; "sw2"]])
  = Ok ["sw1"; "sw2"].
Proof.
  split.
  - apply (load_csv_column_header "switches.csv" "hostname" ["name"] [Csv.Row ["sw1"]]).
    intros Hin. apply list_elem_of_singleton in Hin. discriminate Hin.
  - destruct (load_csv_column_header "switches.csv" "hostname" ["site"; "hostname"]
             [Csv.Row ["a"; " sw1 "]; Csv.Row []; Csv.Row ["b"; "  "]; Csv.Row ["c"; "sw2"]])
      as [_ Hcol].
    destruct (Hcol [" sw1 "; "  "; "sw2"]) as [Heq _].
    + apply list_elem_of_further, list_elem_of_here.
    + repeat first [ apply cells_done | apply cells_blank_line
                   | apply cells_row; [discriminate | reflexivity |] ].
    + exact Heq.
Defined.

(** C9 as stated fails for the blank column: the message of the error names
    the file and not the column. *)
Lemma load_csv_column_blank_omits_column :
  Csv.load_csv_column "switches.csv" "hostname"
    (Csv.Lines [Csv.Row ["hostname"]; Csv.Row [""]; Csv.Row ["   "]])
  = Raise (Exn ValueError "No items found in switches.csv") /\
  Py.contains "No items found in switches.csv" "switches.csv" = true /\
  Py.contains "No items found in switches.csv" "hostname" = false.
Proof. vm_compute. repeat split; reflexivity. Qed.

(** ** Running computations *)

Lemma bind_run {A B} (m : M A) (f : A -> M B) st :
  (m ≫= f) st = match m st with
                | (Ok a, st') => f a st'
                | (Raise e, st') => (Raise e, st')
                end.
Proof. reflexivity. Qed.

Lemma try_except_run {A} (body : M A) handler st :
  try_except body handler st = match body st with
                               | (Ok a, st') => (Ok a, st')
                               | (Raise e, st') => handler e st'
                               end.
Proof. reflexivity. Qed.

(** Closing a client inside [try: ... except: pass] always returns, and
    touches only the counter and the trace. *)
Lemma close_swallowed w ssh st :
  try_except (Sys.close w ssh) (fun _ => mret tt) st
  = (Ok tt, State (S (clock st)) (next_client st) (trace st ++ [Close ssh])
                  (connections st) (fdb_cache st) (stats st)).
Proof.
  unfold try_except, Sys.close, Sys.interact, Sys.raise_if.
  rewrite bind_run. destruct (close_exn w (clock st) ssh); reflexivity.
Qed.

Lemma central_get_connection_cached w host st0 s1 st1 :
  ConnectionManager.get_connection w host st0 = (Ok s1, st1) ->
  connections st1 !! host = Some s1.
Proof.
  unfold ConnectionManager.get_connection. unfold_sys.
  repeat split_answer; intros H; inversion H; subst;
    cbn [connections]; try apply lookup_insert_eq; try assumption.
Qed.

(** ** The connection pools *)

Lemma fdb_get_ssh_connection_cached w host st0 s1 st1 :
  FDBSearching.get_ssh_connection w host st0 = (Ok s1, st1) ->
  connections st1 !! host = Some s1.
Proof.
  unfold FDBSearching.get_ssh_connection, FDBSearching.read_credentials. unfold_sys.
  repeat split_answer; intros H; inversion H; subst;
    cbn [connections]; try apply lookup_insert_eq; try assumption.
Qed.

Lemma local_get_connection_cached w host st0 s1 st1 :
  LocalConnectionManager.get_connection w host st0 = (Ok s1, st1) ->
  connections st1 !! host = Some s1.
Proof.
  unfold LocalConnectionManager.get_connection. unfold_sys.
  repeat split_answer; intros H; inversion H; subst;
    cbn [connections]; try apply lookup_insert_eq; try assumption.
Qed.

(** C1, as the code has it. After a successful acquire, a second acquire
    for the same host returns the same client in all three pools.
    [ConnectionManager.get_connection] and FDBSearching's
    [get_ssh_connection] send the probe command to the cached client before
    returning it; [LocalConnectionManager.get_connection] returns the cached
    client without any interaction. *)
Theorem acquire_twice_reuses w :
  probed_reuse w (ConnectionManager.get_connection w) /\
  probed_reuse w (FDBSearching.get_ssh_connection w) /\
  unprobed_reuse (LocalConnectionManager.get_connection w).
Proof.
  split; [|split].
  - intros host st0 s1 st1 s2 st2 H1 H2 Hprobe.
    apply central_get_connection_cached in H1.
    unfold ConnectionManager.get_connection in H2. unfold_sys.
    rewrite H1 in H2. cbv beta iota in H2. rewrite Hprobe in H2.
    inversion H2; subst. split; reflexivity.
  - intros host st0 s1 st1 s2 st2 H1 H2 Hprobe.
    apply fdb_get_ssh_connection_cached in H1.
    unfold FDBSearching.get_ssh_connection in H2. unfold_sys.
    rewrite H1 in H2. cbv beta iota in H2. rewrite Hprobe in H2.
    inversion H2; subst. split; reflexivity.
  - intros host st0 s1 st1 s2 st2 H1 H2.
    apply local_get_connection_cached in H1.
    unfold LocalConnectionManager.get_connection in H2. unfold_sys.
    rewrite H1 in H2. inversion H2; subst. split; reflexivity.
Qed.

Lemma acquire_twice_reuses_witness :
  let st1 := State 1 1%nat [Connect "sw1" 0%nat] {[ "sw1" := 0%nat ]} ∅
                   (Stats 0 0 0 false) in
  let st2 := State 2 1%nat [Connect "sw1" 0%nat; Exec 0%nat "show system"]
                   {[ "sw1" := 0%nat ]} ∅ (Stats 0 0 0 false) in
  (ConnectionManager.get_connection quiet "sw1" start = (Ok 0%nat, st1) /\
   ConnectionManager.get_connection quiet "sw1" st1 = (Ok 0%nat, st2) /\
   trace st2 = trace st1 ++ [Exec 0%nat "show system"]) /\
  (LocalConnectionManager.get_connection quiet "sw1" start = (Ok 0%nat, st1) /\
   LocalConnectionManager.get_connection quiet "sw1" st1 = (Ok 0%nat, st1)).
Proof.
  intros st1 st2.
  destruct (acquire_twice_reuses quiet) as (Hcentral & _ & Hlocal).
  assert (H1 : ConnectionManager.get_connection quiet "sw1" start = (Ok 0%nat, st1))
    by (vm_compute; reflexivity).
  assert (H2 : ConnectionManager.get_connection quiet "sw1" st1 = (Ok 0%nat, st2))
    by (vm_compute; reflexivity).
  assert (L1 : LocalConnectionManager.get_connection quiet "sw1" start = (Ok 0%nat, st1))
    by (vm_compute; reflexivity).
  assert (L2 : LocalConnectionManager.get_connection quiet "sw1" st1 = (Ok 0%nat, st1))
    by (vm_compute; reflexivity).
  split.
  - destruct (Hcentral "sw1" start 0%nat st1 0%nat st2 H1 H2 eq_refl) as [_ Htr].
    split; [exact H1 | split; [exact H2 | exact Htr]].
  - destruct (Hlocal "sw1" start 0%nat st1 0%nat st1 L1 L2) as [_ _].
    split; [exact L1 | exact L2].
Defined.

(** C1 as stated fails for the local pool of BulkCommands: its second
    acquire returns the cached client without sending it anything. *)
Lemma local_get_connection_sends_no_probe :
  ~ probed_reuse quiet (LocalConnectionManager.get_connection quiet).
Proof.
  intros Hclaim.
  destruct (LocalConnectionManager.get_connection quiet "sw1" start) as [r1 st1] eqn:E1.
  vm_compute in E1. injection E1 as <- <-.
  match type of Hclaim with
  | probed_reuse _ ?acq =>
      destruct (acq "sw1" (State 1 1%nat [Connect "sw1" 0%nat]
                             {[ "sw1" := 0%nat ]} ∅ (Stats 0 0 0 false)))
        as [r2 st2] eqn:E2
  end.
  pose proof E2 as E2'. vm_compute in E2'. injection E2' as <- <-.
  destruct (Hclaim "sw1" start 0%nat _ 0%nat _ eq_refl E2 eq_refl) as [_ Htr].
  vm_compute in Htr. discriminate Htr.
Qed.

(** The loop of the three [close_all]: every client of the list is sent
    [close], whatever the earlier closes answered, and the loop returns. *)
Lemma close_each_run w (l : list (string * session)) : forall st,
  for_each l (fun '(_, ssh) => try_except (Sys.close w ssh) (fun _ => mret tt)) st
  = (Ok tt, State (clock st + length l) (next_client st)
                  (trace st ++ ((fun p => Close p.2) <$> l))
                  (connections st) (fdb_cache st) (stats st)).
Proof.
  induction l as [|[host ssh] l IH]; intros st.
  - simpl. rewrite Nat.add_0_r, app_nil_r. destruct st; reflexivity.
  - cbn [for_each]. rewrite bind_run, close_swallowed, IH.
    cbn [clock next_client trace connections fdb_cache stats length fmap list_fmap snd].
    rewrite <- app_assoc. cbn [app].
    replace (S (clock st) + length l)%nat with (clock st + S (length l))%nat by lia.
    reflexivity.
Qed.

Lemma close_all_run w (cm : ConnManager) st :
  cm ∈ pools w ->
  cm_close_all st
  = (Ok tt, State (clock st + length (map_to_list (connections st))) (next_client st)
                  (trace st ++ ((fun p => Close p.2) <$> map_to_list (connections st)))
                  ∅ (fdb_cache st) (stats st)).
Proof.
  intros Hin. apply list_elem_of_In in Hin.
  destruct Hin as [<- | [<- | [<- | []]]]; cbn [cm_close_all central_manager local_manager fdb_manager];
    unfold ConnectionManager.close_all, LocalConnectionManager.close_all,
           FDBSearching.close_all_connections;
    rewrite bind_run; cbv [gets]; rewrite bind_run;
    (etransitivity; [ | exact (f_equal (fun r => match r with
                                 | (Ok _, st') => modify (set_connections ∅) st'
                                 | (Raise e, st') => (Raise e, st') end)
                               (close_each_run w (map_to_list (connections st)) st)) ]);
    reflexivity.
Qed.

(** C5. In all three pools [close_all] returns whatever the individual
    closes answer, in any world: the events it adds to the trace are one
    [close] for each client of the pool and nothing else, so a close that
    raises stops neither the call nor the closes after it; the pool is
    empty afterwards. An acquire that then succeeds, for any host, returns a
    client created by that call: it is the next new client object, it is
    connected to the host, no probe is sent, and it is none of the clients
    the pool held before. *)
Theorem close_all_empties_pool w (cm : ConnManager) st :
  cm ∈ pools w ->
  let st' := (cm_close_all st).2 in
    (cm_close_all st).1 = Ok tt /\
    (exists closes,
        trace st' = trace st ++ closes /\
        closes ≡ₚ Close <$> (map_to_list (connections st)).*2) /\
    connections st' = ∅ /\
    forall host s st'',
      cm_get_connection host st' = (Ok s, st'') ->
      s = next_client st' /\
      connections st'' !! host = Some s /\
      (exists evs, trace st'' = trace st' ++ evs /\
                   Connect host s ∈ evs /\
                   forall s' command, Exec s' command ∉ evs) /\
      ((forall h0 s0, connections st !! h0 = Some s0 -> (s0 < next_client st)%nat) ->
       forall h0, connections st !! h0 <> Some s).
Proof.
  intros Hin st'. subst st'. rewrite (close_all_run w cm st Hin). cbn [fst snd].
  split; [reflexivity |]. split.
  { exists ((fun p => Close p.2) <$> map_to_list (connections st)).
    split; [reflexivity |]. rewrite <- list_fmap_compose. reflexivity. }
  split; [reflexivity |].
  intros host s st'' Hacq.
  assert (Hfresh : s = next_client st ->
            (forall h0 s0, connections st !! h0 = Some s0 -> (s0 < next_client st)%nat) ->
            forall h0, connections st !! h0 <> Some s).
  { intros -> Hwf h0 Hh0. apply Hwf in Hh0. lia. }
  apply list_elem_of_In in Hin.
  destruct Hin as [<- | [<- | [<- | []]]];
    cbn [cm_get_connection central_manager local_manager fdb_manager] in Hacq;
    unfold ConnectionManager.get_connection, LocalConnectionManager.get_connection,
           FDBSearching.get_ssh_connection, FDBSearching.read_credentials in Hacq;
    unfold_sys; rewrite lookup_empty in Hacq; cbv beta iota in Hacq.
  - destruct (connect_exn w _ host) eqn:Hc; inversion Hacq; subst.
    cbn [next_client connections trace].
    split; [reflexivity |]. split; [apply lookup_insert_eq |].
    split; [| apply Hfresh; reflexivity].
    eexists. split; [reflexivity |]. split; [apply list_elem_of_here |].
    intros s' c Hel. apply list_elem_of_singleton in Hel. discriminate Hel.
  - destruct (connect_exn w _ host) eqn:Hc; inversion Hacq; subst.
    cbn [next_client connections trace].
    split; [reflexivity |]. split; [apply lookup_insert_eq |].
    split; [| apply Hfresh; reflexivity].
    eexists. split; [reflexivity |]. split; [apply list_elem_of_here |].
    intros s' c Hel. apply list_elem_of_singleton in Hel. discriminate Hel.
  - destruct (credentials_exn w _) eqn:Hr; [inversion Hacq |].
    cbv beta iota in Hacq.
    destruct (connect_exn w _ host) eqn:Hc; inversion Hacq; subst.
    cbn [next_client connections trace].
    split; [reflexivity |]. split; [apply lookup_insert_eq |].
    split; [| apply Hfresh; reflexivity].
    exists [ReadCredentials; Connect host (next_client st)].
    split; [rewrite <- app_assoc; reflexivity |].
    split; [apply list_elem_of_further, list_elem_of_here |].
    intros s' c Hel. apply list_elem_of_In in Hel.
    destruct Hel as [Hel | [Hel | []]]; discriminate Hel.
Qed.

Lemma close_all_empties_pool_witness :
  let st := State 2 2%nat [Connect "sw1" 0%nat; Connect "sw2" 1%nat]
                  {[ "sw1" := 0%nat; "sw2" := 1%nat ]} ∅ (Stats 0 0 0 false) in
  let st' := (ConnectionManager.close_all close_raises st).2 in
  (ConnectionManager.close_all close_raises st).1 = Ok tt /\
  (Close 0%nat ∈ trace st' /\ Close 1%nat ∈ trace st' /\ length (trace st') = 4%nat) /\
  connections st' = ∅ /\
  (ConnectionManager.get_connection close_raises "sw1" st').1 = Ok 2%nat.
Proof.
  intros st st'.
  destruct (close_all_empties_pool close_raises (central_manager close_raises) st)
    as (Hok & (closes & Htrace & Hperm) & Hempty & Hnext).
  - apply list_elem_of_here.
  - split; [exact Hok |]. split; [| split; [exact Hempty |]].
    + change ((cm_close_all st).2) with st' in Htrace. rewrite Htrace.
      assert (Hclients : Close <$> (map_to_list (connections st)).*2
                         ≡ₚ [Close 0%nat; Close 1%nat]).
      { vm_compute. first [reflexivity | apply perm_swap]. }
      rewrite Hclients in Hperm.
      split; [| split].
      * apply elem_of_app. right. rewrite Hperm. apply list_elem_of_here.
      * apply elem_of_app. right. rewrite Hperm.
        apply list_elem_of_further, list_elem_of_here.
      * rewrite length_app, (Permutation_length Hperm). reflexivity.
    + destruct (Hnext "sw1" 2%nat
                  (cm_get_connection (ConnManager := central_manager close_raises)
                     "sw1" st').2)
        as (_ & _ & _ & Hfresh).
      * vm_compute. reflexivity.
      * vm_compute. reflexivity.
Defined.

(** What [close_connection] does in each case: without an entry for the
    host nothing happens; with one, the client is sent [close], the call
    returns, and the entry is deleted exactly when that [close] returned. *)
Lemma close_connection_run w host st :
  match connections st !! host with
  | None => ConnectionManager.close_connection w host st = (Ok tt, st)
  | Some ssh =>
      ConnectionManager.close_connection w host st
      = (Ok tt, State (S (clock st)) (next_client st) (trace st ++ [Close ssh])
                      (match close_exn w (clock st) ssh with
                       | None => delete host (connections st)
                       | Some _ => connections st
                       end)
                      (fdb_cache st) (stats st))
  end.
Proof.
  unfold ConnectionManager.close_connection. unfold_sys.
  destruct (connections st !! host) as [ssh|]; [|reflexivity].
  destruct (close_exn w (clock st) ssh); reflexivity.
Qed.

(** C6. What the code does when the close of the pooled client raises:
    [close_connection] returns, and the host is still a key of the pool,
    bound to the same client. *)
Theorem close_connection_keeps_entry_when_close_raises :
  let st := State 1 1%nat [Connect "sw1" 0%nat] {[ "sw1" := 0%nat ]} ∅ (Stats 0 0 0 false) in
  (ConnectionManager.close_connection close_raises "sw1" st).1 = Ok tt /\
  connections (ConnectionManager.close_connection close_raises "sw1" st).2 !! "sw1"
  = Some 0%nat.
Proof. vm_compute. split; reflexivity. Qed.

(** ** The FDB cache *)

Lemma Qltb_lt a b : FDBSearching.Qltb a b = true <-> (a < b)%Q.
Proof.
  unfold FDBSearching.Qltb. rewrite negb_true_iff.
  split.
  - intros H. apply Qnot_le_lt. intros Hle.
    apply Qle_bool_iff in Hle. congruence.
  - intros Hlt. destruct (Qle_bool b a) eqn:E; [|reflexivity].
    apply Qle_bool_iff in E. exfalso. exact (Qlt_not_le _ _ Hlt E).
Qed.

Lemma Qltb_ge a b : FDBSearching.Qltb a b = false <-> (b <= a)%Q.
Proof.
  unfold FDBSearching.Qltb. rewrite negb_false_iff. apply Qle_bool_iff.
Qed.

(** A lookup on a cache entry younger than 15 minutes. *)
Lemma get_fdb_info_fresh w ssh switch_ip st e :
  fdb_cache st !! switch_ip = Some e ->
  (time_at w (clock st) - timestamp e < inject_Z 900)%Q ->
  FDBSearching.get_fdb_info w ssh switch_ip false st = (Ok (data e), after_clock st).
Proof.
  intros He Hage. apply Qltb_lt in Hage.
  unfold FDBSearching.get_fdb_info. unfold_sys.
  rewrite He. reduce_run.
  change (FDBSearching.cache_duration) with (inject_Z 900).
  rewrite Hage. reflexivity.
Qed.

(** C4. For every switch and every state of the cache:
    - a lookup without [force_refresh] on an entry less than 15 minutes old
      returns the cached data and does nothing else: no command is sent, no
      prompt is shown, the cache is unchanged;
    - so a lookup that follows, by less than 15 minutes, a lookup that
      fetched, returns the output of that fetch in the same way;
    - on an entry 15 minutes old or older the operator is prompted, and
      unless the answer is "y" (in either case) the cached data is returned,
      nothing is sent to the switch and the cache is unchanged;
    - with [force_refresh] the command is sent to the switch whatever the
      cache holds, with no prompt, and when it returns its output is both
      returned and stored with the time of the call. *)
Theorem get_fdb_info_cache w ssh switch_ip st :
  (forall e,
      fdb_cache st !! switch_ip = Some e ->
      (time_at w (clock st) - timestamp e < inject_Z (15 * 60))%Q ->
      let r := FDBSearching.get_fdb_info w ssh switch_ip false st in
      r.1 = Ok (data e) /\ trace r.2 = trace st /\ fdb_cache r.2 = fdb_cache st) /\
  (forall out st1 ssh2 st2,
      fdb_cache st !! switch_ip = None ->
      FDBSearching.get_fdb_info w ssh switch_ip false st = (Ok out, st1) ->
      fdb_cache st2 !! switch_ip = fdb_cache st1 !! switch_ip ->
      (time_at w (clock st2) - time_at w (clock st) < inject_Z (15 * 60))%Q ->
      let r := FDBSearching.get_fdb_info w ssh2 switch_ip false st2 in
      Exec ssh "show fdb" ∈ trace st1 /\
      r.1 = Ok out /\ trace r.2 = trace st2 /\ fdb_cache r.2 = fdb_cache st2) /\
  (forall e,
      fdb_cache st !! switch_ip = Some e ->
      (inject_Z (15 * 60) <= time_at w (clock st) - timestamp e)%Q ->
      let r := FDBSearching.get_fdb_info w ssh switch_ip false st in
      let age := (time_at w (clock st) - timestamp e)%Q in
      (exists evs, trace r.2 = trace st ++ Input switch_ip (FDBSearching.Qtrunc (age / inject_Z 60)) :: evs) /\
      (Py.lower (console_in w (S (clock st))) <> "y" ->
       r.1 = Ok (data e) /\
       trace r.2 = trace st ++ [Input switch_ip (FDBSearching.Qtrunc (age / inject_Z 60))] /\
       fdb_cache r.2 = fdb_cache st)) /\
  (let r := FDBSearching.get_fdb_info w ssh switch_ip true st in
   (exists evs, trace r.2 = trace st ++ Exec ssh "show fdb" :: evs) /\
   (forall s m, Input s m ∉ trace st -> Input s m ∉ trace r.2) /\
   (forall out,
       exec_exn w (S (clock st)) ssh "show fdb" = None ->
       stdout_read w (S (S (clock st))) ssh "show fdb" = Ok out ->
       r.1 = Ok out /\
       fdb_cache r.2 !! switch_ip = Some (CacheEntry out (time_at w (clock st))))).
Proof.
  split; [|split; [|split]].
  - intros e He Hage r. subst r.
    rewrite (get_fdb_info_fresh w ssh switch_ip st e He Hage). repeat split.
  - intros out st1 ssh2 st2 Hmiss Hfirst Hsame Hage r. subst r.
    unfold FDBSearching.get_fdb_info in Hfirst. unfold_sys.
    rewrite Hmiss in Hfirst. reduce_run.
    split_answer_in Hfirst; [discriminate Hfirst |].
    split_answer_in Hfirst; [|discriminate Hfirst].
    injection Hfirst as <- <-.
    cbn [trace fdb_cache] in *. rewrite lookup_insert_eq in Hsame.
    split; [apply elem_of_app; right; apply list_elem_of_here |].
    rewrite (get_fdb_info_fresh w ssh2 switch_ip st2 _ Hsame Hage). repeat split.
  - intros e He Hage r age. subst r age. apply Qltb_ge in Hage.
    unfold FDBSearching.get_fdb_info. unfold_sys.
    rewrite He. reduce_run.
    change (FDBSearching.cache_duration) with (inject_Z (15 * 60)).
    rewrite Hage. reduce_run.
    destruct (String.eqb_spec (Py.lower (console_in w (S (clock st)))) "y") as [Hy | Hn];
      cbn [negb]; reduce_run.
    + split; [| intros Hne; contradiction].
      repeat split_answer; rewrite <- ?app_assoc; eexists; reflexivity.
    + split; [exists []; reflexivity |].
      intros _. repeat split.
  - intros r. subst r.
    unfold FDBSearching.get_fdb_info. unfold_sys.
    destruct (fdb_cache st !! switch_ip) as [e|]; reduce_run;
      (destruct (exec_exn w (S (clock st)) ssh "show fdb") as [x|]; reduce_run;
       [| destruct (stdout_read w (S (S (clock st))) ssh "show fdb") as [o|x]; reduce_run]);
      (split; [eexists; reflexivity |]);
      (split; [ intros s m Hno Hin; apply elem_of_app in Hin;
                destruct Hin as [Hin | Hin]; [exact (Hno Hin) |];
                apply list_elem_of_singleton in Hin; discriminate Hin |]);
      intros out Hx Hr; try discriminate Hx; try discriminate Hr;
      injection Hr as ->; (split; [reflexivity | apply lookup_insert_eq]).
Qed.

Lemma get_fdb_info_cache_witness :
  (FDBSearching.get_fdb_info quiet 0%nat "10.1.1.1" false cached_at_0).1 = Ok "old table" /\
  (FDBSearching.get_fdb_info hourly 0%nat "10.1.1.1" false cached_at_0).1 = Ok "old table" /\
  (FDBSearching.get_fdb_info quiet 0%nat "10.1.1.1" true cached_at_0).1
  = Ok "output of show fdb" /\
  (FDBSearching.get_fdb_info quiet 0%nat "10.1.1.1" false
     (FDBSearching.get_fdb_info quiet 0%nat "10.1.1.1" false start).2).1
  = Ok "output of show fdb".
Proof.
  split; [|split; [|split]].
  - destruct (get_fdb_info_cache quiet 0%nat "10.1.1.1" cached_at_0) as (Hfresh & _).
    destruct (Hfresh (CacheEntry "old table" (inject_Z 0))) as (Hr & _).
    + reflexivity.
    + vm_compute. reflexivity.
    + exact Hr.
  - destruct (get_fdb_info_cache hourly 0%nat "10.1.1.1" cached_at_0) as (_ & _ & Hstale & _).
    destruct (Hstale (CacheEntry "old table" (inject_Z 0))) as (_ & Hdecline).
    + reflexivity.
    + vm_compute. discriminate.
    + destruct Hdecline as (Hr & _); [vm_compute; discriminate | exact Hr].
  - destruct (get_fdb_info_cache quiet 0%nat "10.1.1.1" cached_at_0) as (_ & _ & _ & Hforce).
    destruct Hforce as (_ & _ & Hfetch).
    destruct (Hfetch "output of show fdb") as (Hr & _); [reflexivity | reflexivity | exact Hr].
  - destruct (get_fdb_info_cache quiet 0%nat "10.1.1.1" start) as (_ & Htwice & _).
    destruct (Htwice "output of show fdb"
                (FDBSearching.get_fdb_info quiet 0%nat "10.1.1.1" false start).2 0%nat
                (FDBSearching.get_fdb_info quiet 0%nat "10.1.1.1" false start).2)
      as (_ & Hr & _).
    + reflexivity.
    + vm_compute. reflexivity.
    + reflexivity.
    + vm_compute. reflexivity.
    + exact Hr.
Defined.

(** ** The command executor *)

Lemma commands_sent_app tr1 tr2 :
  commands_sent (tr1 ++ tr2) = commands_sent tr1 ++ commands_sent tr2.
Proof. apply omap_app. Qed.

(** One turn of the command loop, case by case. *)
Lemma run_command_run w ssh log_file command st :
  exists output error exec_time status st',
    BulkCommands.run_command w ssh log_file command st = (Ok tt, st') /\
    trace st' = trace st ++
      [Exec ssh command; Log log_file (LogCommand command output error exec_time status)] /\
    connections st' = connections st /\
    next_client st' = next_client st /\
    fdb_cache st' = fdb_cache st /\
    total (stats st') = S (total (stats st)) /\
    (success (stats st') + errors (stats st')
     = S (success (stats st) + errors (stats st)))%nat /\
    connection_failed (stats st') = connection_failed (stats st) /\
    match remote_call w ssh command (S (clock st)) with
    | Ok (out, err) =>
        output = out /\ error = err /\
        status = (if String.eqb err "" then "Success" else "Completed with errors") /\
        success (stats st') = (if String.eqb err "" then S (success (stats st))
                               else success (stats st))
    | Raise e =>
        output = "" /\
        error = (if decide (exn_kind e = SocketTimeout)
                 then "Command execution timed out" else exn_str e) /\
        status = "Failed" /\
        success (stats st') = success (stats st)
    end.
Proof.
  unfold remote_call. unfold_bulk. unfold_sys.
  repeat (split_answer; cbn [andb] in * );
    do 5 eexists; (split; [reflexivity |]); cbn [trace connections next_client fdb_cache stats
                                                  total success errors connection_failed];
    rewrite <- ?app_assoc; cbn [app];
    repeat match goal with
           | H : String.eqb _ _ = _ |- _ => rewrite H
           end;
    repeat split; try reflexivity; try lia.
Qed.

(** The command loop: it returns, every command of the list is sent once,
    in order, to the client, and is counted once. *)
Lemma commands_loop_run w ssh log_file commands : forall st,
  exists st',
    for_each commands (BulkCommands.run_command w ssh log_file) st = (Ok tt, st') /\
    commands_sent (trace st') = commands_sent (trace st) ++ ((fun c => (ssh, c)) <$> commands) /\
    connections st' = connections st /\
    total (stats st') = (total (stats st) + length commands)%nat /\
    (success (stats st') + errors (stats st')
     = success (stats st) + errors (stats st) + length commands)%nat /\
    connection_failed (stats st') = connection_failed (stats st).
Proof.
  induction commands as [|command commands IH]; intros st.
  - exists st. cbn [for_each length fmap list_fmap].
    rewrite app_nil_r, !Nat.add_0_r. repeat split; reflexivity.
  - destruct (run_command_run w ssh log_file command st)
      as (output & error & exec_time & status & st1 & Hrun & Htr & Hconn & _ & _ &
          Htot & Hsum & Hcf & _).
    destruct (IH st1) as (st' & Hloop & Htr' & Hconn' & Htot' & Hsum' & Hcf').
    exists st'. cbn [for_each]. rewrite bind_run, Hrun.
    split; [exact Hloop |].
    rewrite Htr', Htr, commands_sent_app. cbn [commands_sent omap list_omap app length fmap list_fmap].
    rewrite <- app_assoc.
    repeat split; try reflexivity; try congruence; lia.
Qed.

(** C7. One turn of the command loop on a client returns whatever the
    switch does, sends the command exactly once, and logs one entry whose
    status is
    - "Success" exactly when the remote call returned with an empty stderr,
    - "Completed with errors" exactly when it returned with a non-empty
      stderr,
    - "Failed" exactly when it raised; the error logged is then
      "Command execution timed out" for a [socket.timeout] and the message
      of the exception for any other exception.
    The loop over a list of commands therefore returns after having sent
    every command of the list once, in order, whatever the outcomes. *)
Theorem run_command_outcome w ssh log_file command st :
  let call := remote_call w ssh command (S (clock st)) in
  let r := BulkCommands.run_command w ssh log_file command st in
  r.1 = Ok tt /\
  (exists output error exec_time status,
      trace r.2 = trace st ++
        [Exec ssh command; Log log_file (LogCommand command output error exec_time status)] /\
      (status = "Success" <-> exists out, call = Ok (out, "")) /\
      (status = "Completed with errors" <->
       exists out err, call = Ok (out, err) /\ err <> "") /\
      (status = "Failed" <-> exists e, call = Raise e) /\
      (forall out err, call = Ok (out, err) -> output = out /\ error = err) /\
      (forall e, call = Raise e ->
         output = "" /\
         (exn_kind e = SocketTimeout -> error = "Command execution timed out") /\
         (exn_kind e <> SocketTimeout -> error = exn_str e))) /\
  (forall commands,
      let b := for_each commands (BulkCommands.run_command w ssh log_file) st in
      b.1 = Ok tt /\
      commands_sent (trace b.2)
      = commands_sent (trace st) ++ ((fun c => (ssh, c)) <$> commands)).
Proof.
  intros call r. subst call r.
  destruct (run_command_run w ssh log_file command st)
    as (output & error & exec_time & status & st1 & Hrun & Htr & _ & _ & _ & _ & _ & _ & Hcall).
  rewrite Hrun. cbn [fst snd].
  split; [reflexivity |]. split.
  - exists output, error, exec_time, status. split; [exact Htr |].
    destruct (remote_call w ssh command (S (clock st))) as [[out err] | e].
    + destruct Hcall as (Ho & He & Hs & _). subst output error status.
      destruct (String.eqb_spec err "") as [Hempty | Hne]; [subst err |].
      * split; [split; [intros _; exists out; reflexivity | reflexivity] |].
        split; [split; [discriminate |] |].
        { intros (o & e & Heq & Hn). injection Heq as _ He. exfalso. exact (Hn (eq_sym He)). }
        split; [split; [discriminate | intros (e & Heq); discriminate Heq] |].
        split; [intros o e Heq; injection Heq as <- <-; split; reflexivity |].
        intros e Heq. discriminate Heq.
      * split; [split; [discriminate |] |].
        { intros (o & Heq). injection Heq as _ He. exfalso. exact (Hne He). }
        split; [split; [intros _; exists out, err; split; [reflexivity | exact Hne]
                       | reflexivity] |].
        split; [split; [discriminate | intros (e & Heq); discriminate Heq] |].
        split; [intros o e Heq; injection Heq as <- <-; split; reflexivity |].
        intros e Heq. discriminate Heq.
    + destruct Hcall as (Ho & He & Hs & _). subst output error status.
      split; [split; [discriminate | intros (o & Heq); discriminate Heq] |].
      split; [split; [discriminate | intros (o & e0 & Heq & _); discriminate Heq] |].
      split; [split; [intros _; exists e; reflexivity | reflexivity] |].
      split; [intros out err Heq; discriminate Heq |].
      intros e0 Heq. injection Heq as <-.
      split; [reflexivity |]. split; intros Hk.
      * rewrite decide_True by exact Hk. reflexivity.
      * rewrite decide_False by exact Hk. reflexivity.
  - intros commands.
    destruct (commands_loop_run w ssh log_file commands st) as (st' & Hloop & Hsent & _).
    rewrite Hloop. split; [reflexivity | exact Hsent].
Qed.

(** ** The batch runner *)

Lemma bulk_managers_keep_stats w cm : cm ∈ bulk_managers w -> keeps_stats cm.
Proof.
  intros Hin host st. apply list_elem_of_In in Hin.
  destruct Hin as [<- | [<- | []]];
    cbn [cm_get_connection central_manager local_manager];
    unfold ConnectionManager.get_connection, LocalConnectionManager.get_connection;
    unfold_sys; repeat split_answer; reflexivity.
Qed.

(** [process_switch], by the answer of [get_connection]. *)
Lemma process_switch_run w (cm : ConnManager) switch commands log_file st :
  keeps_stats cm ->
  match cm_get_connection switch (set_stats (Stats 0 0 0 false) st) with
  | (Raise e, st1) =>
      exists st',
        BulkCommands.process_switch w cm switch commands log_file st
        = (Ok (Stats 0 0 0 true), st') /\
        trace st' = trace st1 ++ [Log log_file (LogConnectionError (exn_str e))]
  | (Ok ssh, st1) =>
      exists s st',
        BulkCommands.process_switch w cm switch commands log_file st = (Ok s, st') /\
        total s = length commands /\
        (success s + errors s = length commands)%nat /\
        connection_failed s = false /\
        commands_sent (trace st')
        = commands_sent (trace st1) ++ ((fun c => (ssh, c)) <$> commands)
  end.
Proof.
  intros Hkeep.
  pose proof (Hkeep switch (set_stats (Stats 0 0 0 false) st)) as Hst.
  unfold BulkCommands.process_switch.
  rewrite bind_run. cbv [modify]. rewrite bind_run, try_except_run, bind_run.
  destruct (cm_get_connection switch (set_stats (Stats 0 0 0 false) st))
    as [[ssh | e] st1]; cbn [snd] in Hst.
  - rewrite bind_run.
    set (st2 := State (S (clock st1)) (next_client st1)
                      (trace st1 ++ [Log log_file (LogHeader switch)])
                      (connections st1) (fdb_cache st1) (stats st1)).
    change (Sys.append_log log_file (LogHeader switch) st1) with (Ok tt, st2).
    cbv beta iota. rewrite bind_run.
    destruct (commands_loop_run w ssh log_file commands st2)
      as (st3 & Hloop & Hsent & _ & Htot & Hsum & Hcf).
    rewrite Hloop. cbv beta iota. unfold_sys.
    eexists _, _. split; [reflexivity |].
    subst st2. cbn [stats trace] in *. rewrite Hst in *. cbn [stats set_stats total success errors connection_failed] in *.
    repeat split; try assumption.
    rewrite !commands_sent_app, Hsent, commands_sent_app. cbn.
    rewrite !app_nil_r. reflexivity.
  - unfold_sys. eexists. rewrite Hst. cbn [BulkCommands.set_connection_failed total success errors].
    split; reflexivity.
Qed.

Lemma switches_loop_cons w cm switch rest commands overall st :
  BulkCommands.switches_loop w cm (switch :: rest) commands overall st
  = match BulkCommands.process_switch w cm switch commands
            (BulkCommands.get_log_file_path switch) st with
    | (Ok s, st') =>
        BulkCommands.switches_loop w cm rest commands
          (BulkCommands.Overall
             (BulkCommands.total_switches overall)
             (S (BulkCommands.processed overall))
             (if connection_failed s
              then S (BulkCommands.connection_failures overall)
              else BulkCommands.connection_failures overall)
             (BulkCommands.total_commands overall + total s)
             (BulkCommands.total_success overall + success s)
             (BulkCommands.total_errors overall + errors s)) st'
    | (Raise e, st') => (Raise e, st')
    end.
Proof. reflexivity. Qed.

Lemma switches_loop_app w cm commands pre : forall post overall st,
  BulkCommands.switches_loop w cm (pre ++ post) commands overall st
  = match BulkCommands.switches_loop w cm pre commands overall st with
    | (Ok overall', st') => BulkCommands.switches_loop w cm post commands overall' st'
    | (Raise e, st') => (Raise e, st')
    end.
Proof.
  induction pre as [|switch pre IH]; intros post overall st.
  - reflexivity.
  - rewrite <- app_comm_cons, !switches_loop_cons.
    destruct (BulkCommands.process_switch w cm switch commands _ st) as [[s | e] st'].
    + apply IH.
    + reflexivity.
Qed.

Lemma process_switch_returns w cm switch commands log_file st :
  keeps_stats cm ->
  exists s st', BulkCommands.process_switch w cm switch commands log_file st = (Ok s, st').
Proof.
  intros Hkeep.
  pose proof (process_switch_run w cm switch commands log_file st Hkeep) as H.
  destruct (cm_get_connection switch _) as [[ssh | e] st1].
  - destruct H as (s & st' & H & _). eauto.
  - destruct H as (st' & H & _). eauto.
Qed.

Lemma switches_loop_returns w cm commands switches : forall overall st,
  keeps_stats cm ->
  exists overall' st',
    BulkCommands.switches_loop w cm switches commands overall st = (Ok overall', st').
Proof.
  induction switches as [|switch switches IH]; intros overall st Hkeep.
  - eexists _, _. reflexivity.
  - rewrite switches_loop_cons.
    destruct (process_switch_returns w cm switch commands
                (BulkCommands.get_log_file_path switch) st Hkeep) as (s & st' & ->).
    apply IH. exact Hkeep.
Qed.

(** C2. In the run over the switches [pre ++ K :: post], with either
    connection manager, the turn of host [K] starts in the state the hosts
    before it leave and ends with one more host processed; the hosts after
    it are run with the same list of commands. When [get_connection] raises
    for [K], that turn adds exactly one connection failure and nothing to
    the command counters, the stats of [K] are all zero, and no command is
    sent after the failed acquire. When [get_connection] returns a client,
    no connection failure is added, the command total grows by the number of
    commands, and the commands sent after the acquire are exactly the
    commands of the list, in order, to that client. *)
Theorem bulk_run_isolates_connection_failure w cm pre K post commands overall0 st0 :
  cm ∈ bulk_managers w ->
  exists ov1 st1 ov2 st2,
    BulkCommands.switches_loop w cm pre commands overall0 st0 = (Ok ov1, st1) /\
    BulkCommands.switches_loop w cm (pre ++ [K]) commands overall0 st0 = (Ok ov2, st2) /\
    BulkCommands.switches_loop w cm (pre ++ K :: post) commands overall0 st0
    = BulkCommands.switches_loop w cm post commands ov2 st2 /\
    BulkCommands.processed ov2 = S (BulkCommands.processed ov1) /\
    match cm_get_connection K (set_stats (Stats 0 0 0 false) st1) with
    | (Raise e, st_acq) =>
        BulkCommands.connection_failures ov2 = S (BulkCommands.connection_failures ov1) /\
        BulkCommands.total_commands ov2 = BulkCommands.total_commands ov1 /\
        BulkCommands.total_success ov2 = BulkCommands.total_success ov1 /\
        BulkCommands.total_errors ov2 = BulkCommands.total_errors ov1 /\
        (BulkCommands.process_switch w cm K commands
           (BulkCommands.get_log_file_path K) st1).1 = Ok (Stats 0 0 0 true) /\
        commands_sent (trace st2) = commands_sent (trace st_acq)
    | (Ok ssh, st_acq) =>
        BulkCommands.connection_failures ov2 = BulkCommands.connection_failures ov1 /\
        BulkCommands.total_commands ov2
        = (BulkCommands.total_commands ov1 + length commands)%nat /\
        commands_sent (trace st2)
        = commands_sent (trace st_acq) ++ ((fun c => (ssh, c)) <$> commands)
    end.
Proof.
  intros Hin. apply bulk_managers_keep_stats in Hin.
  destruct (switches_loop_returns w cm commands pre overall0 st0 Hin) as (ov1 & st1 & Hpre).
  pose proof (process_switch_run w cm K commands (BulkCommands.get_log_file_path K) st1 Hin)
    as Hturn.
  assert (Hone : forall s st',
             BulkCommands.process_switch w cm K commands
               (BulkCommands.get_log_file_path K) st1 = (Ok s, st') ->
             BulkCommands.switches_loop w cm (pre ++ [K]) commands overall0 st0
             = BulkCommands.switches_loop w cm [] commands
                 (BulkCommands.Overall
                    (BulkCommands.total_switches ov1) (S (BulkCommands.processed ov1))
                    (if connection_failed s
                     then S (BulkCommands.connection_failures ov1)
                     else BulkCommands.connection_failures ov1)
                    (BulkCommands.total_commands ov1 + total s)
                    (BulkCommands.total_success ov1 + success s)
                    (BulkCommands.total_errors ov1 + errors s)) st').
  { intros s st' Hs. rewrite switches_loop_app, Hpre, switches_loop_cons, Hs. reflexivity. }
  assert (Hall : forall ov2 st2,
             BulkCommands.switches_loop w cm (pre ++ [K]) commands overall0 st0 = (Ok ov2, st2) ->
             BulkCommands.switches_loop w cm (pre ++ K :: post) commands overall0 st0
             = BulkCommands.switches_loop w cm post commands ov2 st2).
  { intros ov2 st2 H2.
    change (K :: post) with ([K] ++ post). rewrite app_assoc, switches_loop_app, H2.
    reflexivity. }
  exists ov1, st1.
  destruct (cm_get_connection K (set_stats (Stats 0 0 0 false) st1)) as [[ssh | e] st_acq].
  - destruct Hturn as (s & st' & Hs & Htot & Hsum & Hcf & Hsent).
    specialize (Hone s st' Hs). cbn [BulkCommands.switches_loop] in Hone.
    eexists _, st'. split; [exact Hpre |]. split; [exact Hone |].
    split; [apply Hall; exact Hone |].
    cbn [BulkCommands.processed BulkCommands.connection_failures
         BulkCommands.total_commands]. rewrite Hcf, Htot.
    repeat split; try reflexivity. exact Hsent.
  - destruct Hturn as (st' & Hs & Htr).
    specialize (Hone _ st' Hs). cbn [BulkCommands.switches_loop] in Hone.
    eexists _, st'. split; [exact Hpre |]. split; [exact Hone |].
    split; [apply Hall; exact Hone |].
    cbn [BulkCommands.processed BulkCommands.connection_failures
         BulkCommands.total_commands BulkCommands.total_success BulkCommands.total_errors
         connection_failed total success errors].
    rewrite Hs, Htr, commands_sent_app, !Nat.add_0_r. cbn. rewrite app_nil_r.
    repeat split; reflexivity.
Qed.

Lemma bulk_run_isolates_connection_failure_witness :
  exists ov2 st2,
    BulkCommands.switches_loop flaky (local_manager flaky) ["sw1"; "bad"]
      ["show version"; "show system"] (BulkCommands.Overall 3 0 0 0 0 0) start
    = (Ok ov2, st2) /\
    BulkCommands.connection_failures ov2 = 1%nat /\
    BulkCommands.total_commands ov2 = 2%nat /\
    commands_sent (trace st2) = [(0%nat, "show version"); (0%nat, "show system")].
Proof.
  destruct (bulk_run_isolates_connection_failure flaky (local_manager flaky)
              ["sw1"] "bad" ["sw2"] ["show version"; "show system"]
              (BulkCommands.Overall 3 0 0 0 0 0) start)
    as (ov1 & st1 & ov2 & st2 & Hpre & Hk & _ & _ & Hturn).
  - apply list_elem_of_further, list_elem_of_here.
  - vm_compute in Hpre. injection Hpre as <- <-.
    vm_compute in Hturn. destruct Hturn as (Hcf & Htot & _ & _ & _ & Hsent).
    exists ov2, st2. split; [exact Hk |].
    split; [exact Hcf |]. split; [exact Htot | exact Hsent].
Defined.

Lemma run_command_outcome_witness :
  exists output exec_time,
    trace (BulkCommands.run_command flaky 0%nat "Logs/sw1" "show clock" start).2
    = [Exec 0%nat "show clock";
       Log "Logs/sw1" (LogCommand "show clock" output "Command execution timed out"
                                  exec_time "Failed")].
Proof.
  destruct (run_command_outcome flaky 0%nat "Logs/sw1" "show clock" start)
    as (_ & (output & error & exec_time & status & Htr & _ & _ & Hfailed & _ & Hraise) & _).
  destruct (Hraise (Exn SocketTimeout "timed out")) as (_ & Htimeout & _).
  - reflexivity.
  - rewrite Htimeout in Htr by reflexivity.
    destruct Hfailed as [_ Hfailed]. rewrite Hfailed in Htr.
    + exists output, exec_time. exact Htr.
    + exists (Exn SocketTimeout "timed out"). reflexivity.
Defined.

(** * Further properties of the code *)

(** ** The pools: failure, eviction, frame and invariant *)

(** What an acquire can do to the pool and to the client counter: the dict
    is left as it was, or loses the entry of the host, or binds the host to
    the client created by the call. *)
Lemma acquire_pool_shape w (cm : ConnManager) host st :
  cm ∈ pools w ->
  let r := cm_get_connection host st in
  fdb_cache r.2 = fdb_cache st /\
  match r.1 with
  | Ok ssh =>
      (connections st !! host = Some ssh /\ connections r.2 = connections st /\
       next_client r.2 = next_client st) \/
      (ssh = next_client st /\ connections r.2 = <[host := ssh]> (connections st) /\
       next_client r.2 = S (next_client st))
  | Raise _ =>
      connections r.2 = delete host (connections st) /\
      (next_client st <= next_client r.2 <= S (next_client st))%nat
  end.
Proof.
  intros Hin r. subst r. apply list_elem_of_In in Hin.
  destruct Hin as [<- | [<- | [<- | []]]];
    cbn [cm_get_connection central_manager local_manager fdb_manager];
    unfold ConnectionManager.get_connection, LocalConnectionManager.get_connection,
           FDBSearching.get_ssh_connection, FDBSearching.read_credentials;
    unfold_sys; repeat split_answer;
    (split; [reflexivity |]);
    rewrite ?insert_delete_eq;
    try (left; repeat split; (assumption || reflexivity));
    try (right; repeat split; reflexivity);
    try (split; [reflexivity | lia]);
    try (split; [symmetry; apply delete_id; assumption | lia]).
Qed.

(** X1. In all three pools an acquire that raises leaves no entry for the
    host in the pool, also when the host had a cached client before the
    call. *)
Theorem failed_acquire_is_not_cached w (cm : ConnManager) host st e st' :
  cm ∈ pools w ->
  cm_get_connection host st = (Raise e, st') ->
  connections st' !! host = None.
Proof.
  intros Hin Hrun.
  destruct (acquire_pool_shape w cm host st Hin) as [_ Hshape].
  rewrite Hrun in Hshape. cbn [fst snd] in Hshape.
  destruct Hshape as [-> _]. apply lookup_delete_eq.
Qed.

Lemma failed_acquire_is_not_cached_witness :
  exists e st',
    ConnectionManager.get_connection flaky "bad" start = (Raise e, st') /\
    connections st' !! "bad" = None.
Proof.
  eexists _, _. split.
  - vm_compute. reflexivity.
  - apply (failed_acquire_is_not_cached flaky (central_manager flaky) "bad" start
             (Exn OtherException "No route to host")
             (State 1 1%nat [Connect "bad" 0%nat] ∅ ∅ (Stats 0 0 0 false))).
    + apply list_elem_of_here.
    + vm_compute. reflexivity.
Defined.

(** X2. In all three pools an acquire for one host changes neither the
    entry of any other host nor the FDB cache. *)
Theorem acquire_touches_one_host w (cm : ConnManager) host other st :
  cm ∈ pools w ->
  other <> host ->
  connections (cm_get_connection host st).2 !! other = connections st !! other /\
  fdb_cache (cm_get_connection host st).2 = fdb_cache st.
Proof.
  intros Hin Hne.
  destruct (acquire_pool_shape w cm host st Hin) as [Hcache Hshape].
  split; [| exact Hcache].
  destruct (cm_get_connection host st) as [[ssh | e] st']; cbn [fst snd] in *.
  - destruct Hshape as [(_ & -> & _) | (_ & -> & _)]; [reflexivity |].
    apply lookup_insert_ne. congruence.
  - destruct Hshape as [-> _]. apply lookup_delete_ne. congruence.
Qed.

Lemma acquire_touches_one_host_witness :
  let st := State 1 1%nat [Connect "sw1" 0%nat] {[ "sw1" := 0%nat ]} ∅ (Stats 0 0 0 false) in
  connections (LocalConnectionManager.get_connection quiet "sw2" st).2 !! "sw1"
  = Some 0%nat.
Proof.
  intros st.
  destruct (acquire_touches_one_host quiet (local_manager quiet) "sw2" "sw1" st) as [H _].
  - apply list_elem_of_further, list_elem_of_here.
  - discriminate.
  - exact H.
Defined.

(** X3. The pool invariant: clients in the pool were created by the
    program and no client is bound to two hosts. It holds when the program
    starts and every pool operation keeps it: an acquire and [close_all] in
    the three pools, and [close_connection]. *)
Theorem pool_wf_invariant w :
  pool_wf start /\
  (forall (cm : ConnManager) host st,
      cm ∈ pools w -> pool_wf st -> pool_wf (cm_get_connection host st).2) /\
  (forall (cm : ConnManager) st,
      cm ∈ pools w -> pool_wf st -> pool_wf (cm_close_all st).2) /\
  (forall host st,
      pool_wf st -> pool_wf (ConnectionManager.close_connection w host st).2).
Proof.
  assert (Hdel : forall host (c : gmap string session) n n',
             (n <= n')%nat ->
             ((forall h s, c !! h = Some s -> (s < n)%nat) /\
              (forall h1 h2 s, c !! h1 = Some s -> c !! h2 = Some s -> h1 = h2)) ->
             (forall h s, delete host c !! h = Some s -> (s < n')%nat) /\
             (forall h1 h2 s, delete host c !! h1 = Some s ->
                              delete host c !! h2 = Some s -> h1 = h2)).
  { intros host c n n' Hle [Hlt Hinj]. split.
    - intros h s Hs. apply lookup_delete_Some in Hs as [_ Hs]. apply Hlt in Hs. lia.
    - intros h1 h2 s H1 H2.
      apply lookup_delete_Some in H1 as [_ H1]. apply lookup_delete_Some in H2 as [_ H2].
      exact (Hinj _ _ _ H1 H2). }
  split; [|split; [|split]].
  - split; intros *; cbn [connections start]; rewrite lookup_empty; discriminate.
  - intros cm host st Hin Hwf.
    destruct (acquire_pool_shape w cm host st Hin) as [_ Hshape].
    destruct (cm_get_connection host st) as [[ssh | e] st']; cbn [fst snd] in *.
    + destruct Hshape as [(_ & Hc & Hn) | (-> & Hc & Hn)]; unfold pool_wf; rewrite Hc, Hn.
      * exact Hwf.
      * destruct Hwf as [Hlt Hinj]. split.
        -- intros h s Hs. destruct (decide (host = h)) as [<- | Hne].
           ++ rewrite lookup_insert_eq in Hs. injection Hs as <-. lia.
           ++ rewrite lookup_insert_ne in Hs by exact Hne. apply Hlt in Hs. lia.
        -- intros h1 h2 s H1 H2.
           destruct (decide (host = h1)) as [<- | Hne1];
             destruct (decide (host = h2)) as [<- | Hne2]; [reflexivity | | |].
           ++ rewrite lookup_insert_eq in H1. injection H1 as <-.
              rewrite lookup_insert_ne in H2 by exact Hne2. apply Hlt in H2. lia.
           ++ rewrite lookup_insert_eq in H2. injection H2 as <-.
              rewrite lookup_insert_ne in H1 by exact Hne1. apply Hlt in H1. lia.
           ++ rewrite lookup_insert_ne in H1 by exact Hne1.
              rewrite lookup_insert_ne in H2 by exact Hne2.
              exact (Hinj _ _ _ H1 H2).
    + destruct Hshape as [Hc Hn]. unfold pool_wf. rewrite Hc.
      apply (Hdel host _ (next_client st)); [lia | exact Hwf].
  - intros cm st Hin _. rewrite (close_all_run w cm st Hin). cbn [snd].
    split; intros *; cbn [connections]; rewrite lookup_empty; discriminate.
  - intros host st Hwf.
    pose proof (close_connection_run w host st) as Hrun.
    destruct (connections st !! host) as [ssh |] eqn:Hh; rewrite Hrun; cbn [snd]; [| exact Hwf].
    unfold pool_wf. cbn [connections next_client].
    destruct (close_exn w (clock st) ssh); [exact Hwf |].
    apply (Hdel host _ (next_client st)); [lia | exact Hwf].
Qed.

Lemma pool_wf_invariant_witness :
  pool_wf (ConnectionManager.get_connection quiet "sw2"
             (ConnectionManager.get_connection quiet "sw1" start).2).2.
Proof.
  destruct (pool_wf_invariant quiet) as (Hstart & Hacq & _).
  apply (Hacq (central_manager quiet)); [apply list_elem_of_here |].
  apply (Hacq (central_manager quiet)); [apply list_elem_of_here |].
  exact Hstart.
Defined.

(** X4. In the two probing pools, when the cached client of a host fails
    the probe, the acquire closes that client once, removes it, and makes at
    most one attempt to connect a new client: after the probe and the close
    it only reads the credentials (FDBSearching) and connects the client it
    created. If it returns, it returns that new client, now pooled for the
    host; if it raises, the host has no entry. *)
Theorem dead_client_is_evicted w (cm : ConnManager) host old e st :
  cm ∈ probing_pools w ->
  connections st !! host = Some old ->
  exec_exn w (clock st) old "show system" = Some e ->
  let r := cm_get_connection host st in
  (exists evs,
      trace r.2 = trace st ++ Exec old "show system" :: Close old :: evs /\
      NoDup evs /\
      forall ev, ev ∈ evs -> ev = ReadCredentials \/ ev = Connect host (next_client st)) /\
  match r.1 with
  | Ok ssh => ssh = next_client st /\ connections r.2 !! host = Some ssh /\
              ((old < next_client st)%nat -> ssh <> old)
  | Raise _ => connections r.2 !! host = None
  end.
Proof.
  intros Hin Hold Hprobe r. subst r. apply list_elem_of_In in Hin.
  destruct Hin as [<- | [<- | []]];
    cbn [cm_get_connection central_manager fdb_manager];
    unfold ConnectionManager.get_connection, FDBSearching.get_ssh_connection,
           FDBSearching.read_credentials;
    unfold_sys; rewrite Hold; reduce_run; rewrite Hprobe; reduce_run;
    repeat split_answer; rewrite <- ?app_assoc; cbn [app];
    (split;
     [ eexists; split; [reflexivity |]; split;
       [ repeat constructor; intros Hel; split_mem; discriminate
       | intros ev Hev; split_mem; subst; auto ]
     | first [ apply lookup_delete_eq
             | split; [reflexivity | split; [apply lookup_insert_eq | lia]] ] ]).
Qed.

Lemma dead_client_is_evicted_witness :
  let dead := World (fun _ _ => None)
                    (fun _ ssh _ => if Nat.eqb ssh 0 then Some (Exn OtherException "EOF") else None)
                    (fun _ _ _ => Ok "") (fun _ _ _ => Ok "") (fun _ _ => None)
                    (fun _ => "n") (fun t => inject_Z (Z.of_nat t)) (fun _ => None) in
  let st := State 1 1%nat [Connect "sw1" 0%nat] {[ "sw1" := 0%nat ]} ∅ (Stats 0 0 0 false) in
  (ConnectionManager.get_connection dead "sw1" st).1 = Ok 1%nat /\
  connections (ConnectionManager.get_connection dead "sw1" st).2 !! "sw1" = Some 1%nat.
Proof.
  intros dead st.
  destruct (dead_client_is_evicted dead (central_manager dead) "sw1" 0%nat
              (Exn OtherException "EOF") st) as [_ Hres].
  - apply list_elem_of_here.
  - reflexivity.
  - reflexivity.
  - cbn [cm_get_connection central_manager] in Hres.
    destruct (ConnectionManager.get_connection dead "sw1" st) as [[ssh | e0] st'] eqn:E;
      cbn [fst snd] in *.
    + destruct Hres as (-> & Hpool & _). split; [reflexivity | exact Hpool].
    + vm_compute in E. discriminate E.
Defined.



Lemma close_connection_returns w host st :
  (ConnectionManager.close_connection w host st).1 = Ok tt.
Proof.
  pose proof (close_connection_run w host st) as Hrun.
  destruct (connections st !! host); rewrite Hrun; reflexivity.
Qed.

(** X6. [ConnectionManager.close_connection] always returns. It leaves the
    entries of all other hosts as they are; without an entry for the host it
    changes nothing at all; with one it sends exactly one [close], to the
    pooled client, and removes the entry when that [close] returns. *)
Theorem close_connection_effect w host st :
  let r := ConnectionManager.close_connection w host st in
  r.1 = Ok tt /\
  (forall other, other <> host -> connections r.2 !! other = connections st !! other) /\
  (connections st !! host = None -> r.2 = st) /\
  (forall ssh,
      connections st !! host = Some ssh ->
      trace r.2 = trace st ++ [Close ssh] /\
      (close_exn w (clock st) ssh = None -> connections r.2 !! host = None)).
Proof.
  intros r. subst r. pose proof (close_connection_run w host st) as Hrun.
  destruct (connections st !! host) as [ssh |] eqn:Hh; rewrite Hrun; cbn [fst snd].
  - split; [reflexivity |]. split; [| split; [discriminate |]].
    + intros other Hne. cbn [connections].
      destruct (close_exn w (clock st) ssh); [reflexivity |].
      apply lookup_delete_ne. congruence.
    + intros s Hs. injection Hs as <-. cbn [trace connections].
      split; [reflexivity |]. intros ->. apply lookup_delete_eq.
  - split; [reflexivity |]. split; [reflexivity |]. split; [reflexivity | discriminate].
Qed.

Lemma close_connection_effect_witness :
  let st := State 1 1%nat [Connect "sw1" 0%nat] {[ "sw1" := 0%nat ]} ∅ (Stats 0 0 0 false) in
  connections (ConnectionManager.close_connection quiet "sw1" st).2 !! "sw1" = None /\
  (ConnectionManager.close_connection quiet "sw2" st).2 = st.
Proof.
  intros st. split.
  - destruct (close_connection_effect quiet "sw1" st) as (_ & _ & _ & Hclose).
    destruct (Hclose 0%nat) as [_ Hgone]; [reflexivity |].
    apply Hgone. reflexivity.
  - destruct (close_connection_effect quiet "sw2" st) as (_ & _ & Hnone & _).
    apply Hnone. reflexivity.
Defined.

#[local] Instance older_trans : Transitive MainMenu.older.
Proof. intros p q r. unfold MainMenu.older. lia. Qed.

#[local] Instance older_total : Total MainMenu.older.
Proof. intros p q. unfold MainMenu.older. lia. Qed.

Lemma items_elem conns host s :
  (host, s) ∈ MainMenu.items conns <-> conns !! host = Some s.
Proof. unfold MainMenu.items. rewrite merge_sort_Permutation. apply elem_of_map_to_list. Qed.

Lemma items_sorted conns : StronglySorted MainMenu.older (MainMenu.items conns).
Proof. apply StronglySorted_merge_sort; apply _. Qed.

(** Two listings of the same entries, oldest client first, are the same
    list when no client occurs in two entries. *)
Lemma sorted_perm_eq (l1 : list (string * session)) : forall l2,
  StronglySorted MainMenu.older l1 -> StronglySorted MainMenu.older l2 ->
  l1 ≡ₚ l2 ->
  (forall p q, p ∈ l1 -> q ∈ l1 -> p.2 = q.2 -> p = q) ->
  l1 = l2.
Proof.
  induction l1 as [|x l1 IH]; intros l2 H1 H2 Hp Hinj.
  - apply Permutation_nil_l in Hp. congruence.
  - destruct l2 as [|y l2]; [apply Permutation_nil_r in Hp; discriminate Hp |].
    apply StronglySorted_cons in H1 as [Hx H1].
    apply StronglySorted_cons in H2 as [Hy H2].
    assert (Hyin : y ∈ x :: l1) by (rewrite Hp; apply list_elem_of_here).
    assert (Hxin : x ∈ y :: l2) by (rewrite <- Hp; apply list_elem_of_here).
    assert (Hxy : x = y).
    { apply Hinj; [apply list_elem_of_here | exact Hyin |].
      apply elem_of_cons in Hyin as [-> | Hyin]; [reflexivity |].
      apply elem_of_cons in Hxin as [-> | Hxin]; [reflexivity |].
      pose proof (proj1 (Forall_forall _ _) Hx y Hyin) as Hle1.
      pose proof (proj1 (Forall_forall _ _) Hy x Hxin) as Hle2.
      unfold MainMenu.older in Hle1, Hle2. lia. }
    subst y. f_equal. apply IH; [exact H1 | exact H2 | |].
    + exact (Permutation_cons_inv Hp).
    + intros p q Hpin Hqin. apply Hinj; apply list_elem_of_further; assumption.
Qed.

Lemma strongly_sorted_filter {A} (R : relation A) (P : A -> Prop)
    `{forall x, Decision (P x)} (l : list A) :
  StronglySorted R l -> StronglySorted R (filter P l).
Proof.
  induction 1 as [|x l Hs IH Hx]; [constructor |].
  rewrite filter_cons. destruct (decide (P x)); [| exact IH].
  constructor; [exact IH |]. apply Forall_forall. intros y Hy.
  apply list_elem_of_filter in Hy as [_ Hy].
  exact (proj1 (Forall_forall _ _) Hx y Hy).
Qed.

Lemma filter_hosts host (l : list (string * session)) :
  (filter (fun p => p.1 <> host) l).*1 = filter (fun h => h <> host) l.*1.
Proof.
  induction l as [|[h s] l IH]; [reflexivity |].
  cbn [fmap list_fmap fst]. rewrite !filter_cons. cbn [fst].
  destruct (decide (h <> host)); cbn [fmap list_fmap fst]; rewrite IH; reflexivity.
Qed.

(** A new entry, with the client that was just created, is listed last. *)
Lemma items_insert_last st host :
  pool_wf st -> connections st !! host = None ->
  MainMenu.items (<[host := next_client st]> (connections st))
  = MainMenu.items (connections st) ++ [(host, next_client st)].
Proof.
  intros [Hlt Hinj] Hnone. apply sorted_perm_eq.
  - apply items_sorted.
  - apply StronglySorted_app. split; [| split; [apply items_sorted | repeat constructor]].
    intros [h s] x2 Hin Hx2. apply list_elem_of_singleton in Hx2 as ->.
    apply items_elem in Hin. apply Hlt in Hin. unfold MainMenu.older. cbn. lia.
  - unfold MainMenu.items. rewrite !merge_sort_Permutation.
    rewrite map_to_list_insert by exact Hnone. apply Permutation_cons_append.
  - intros [h1 s1] [h2 s2] H1 H2. cbn. intros <-.
    apply items_elem in H1, H2.
    destruct (decide (h1 = host)) as [-> | Hne1];
      destruct (decide (h2 = host)) as [-> | Hne2]; [reflexivity | | |].
    + rewrite lookup_insert_eq in H1. rewrite lookup_insert_ne in H2 by congruence.
      injection H1 as <-. apply Hlt in H2. lia.
    + rewrite lookup_insert_eq in H2. rewrite lookup_insert_ne in H1 by congruence.
      injection H2 as <-. apply Hlt in H1. lia.
    + rewrite lookup_insert_ne in H1, H2 by congruence.
      rewrite (Hinj h1 h2 s1 H1 H2). reflexivity.
Qed.

(** Deleting an entry keeps the order of the others. *)
Lemma items_delete st host :
  pool_wf st ->
  MainMenu.items (delete host (connections st))
  = filter (fun p => p.1 <> host) (MainMenu.items (connections st)).
Proof.
  intros [Hlt Hinj]. apply sorted_perm_eq.
  - apply items_sorted.
  - apply strongly_sorted_filter, items_sorted.
  - apply NoDup_Permutation.
    + unfold MainMenu.items. rewrite merge_sort_Permutation. apply NoDup_map_to_list.
    + apply NoDup_filter. unfold MainMenu.items. rewrite merge_sort_Permutation.
      apply NoDup_map_to_list.
    + intros [h s]. rewrite list_elem_of_filter, !items_elem. cbn. split.
      * intros H. destruct (decide (h = host)) as [-> | Hne].
        -- rewrite lookup_delete_eq in H. discriminate H.
        -- rewrite lookup_delete_ne in H by congruence. auto.
      * intros [Hne H]. rewrite lookup_delete_ne by congruence. exact H.
  - intros [h1 s1] [h2 s2] H1 H2. cbn. intros <-.
    apply items_elem in H1, H2.
    destruct (decide (h1 = host)) as [-> | Hne1];
      [rewrite lookup_delete_eq in H1; discriminate H1 |].
    destruct (decide (h2 = host)) as [-> | Hne2];
      [rewrite lookup_delete_eq in H2; discriminate H2 |].
    rewrite lookup_delete_ne in H1, H2 by congruence.
    rewrite (Hinj h1 h2 s1 H1 H2). reflexivity.
Qed.

(** The listing behaves as the keys of a Python dict do under
    [get_connection]: when the call returns the client the pool held, the
    listing is as before; when it returns a new client, the host is listed
    last, and the other hosts keep their order. *)
Lemma list_connections_after_acquire w host st s st' :
  pool_wf st ->
  ConnectionManager.get_connection w host st = (Ok s, st') ->
  (MainMenu.items (connections st')).*1
  = if decide (connections st !! host = Some s)
    then (MainMenu.items (connections st)).*1
    else filter (fun h => h <> host) (MainMenu.items (connections st)).*1 ++ [host].
Proof.
  intros Hwf Hacq. pose proof Hwf as [Hlt Hinj].
  assert (Hdel : (MainMenu.items (<[host := next_client st]>
                                    (delete host (connections st)))).*1
                 = filter (fun h => h <> host) (MainMenu.items (connections st)).*1
                   ++ [host]).
  { pose (st1 := State 0 (next_client st) [] (delete host (connections st))
                       ∅ (Stats 0 0 0 false)).
    assert (Hwf1 : pool_wf st1).
    { split; cbn [connections next_client st1].
      - intros h x Hx.
        destruct (decide (h = host)) as [-> | Hne].
        + rewrite lookup_delete_eq in Hx. discriminate Hx.
        + rewrite lookup_delete_ne in Hx by congruence. exact (Hlt h x Hx).
      - intros h1 h2 x H1 H2.
        destruct (decide (h1 = host)) as [-> | Hne1];
          [rewrite lookup_delete_eq in H1; discriminate H1 |].
        destruct (decide (h2 = host)) as [-> | Hne2];
          [rewrite lookup_delete_eq in H2; discriminate H2 |].
        rewrite lookup_delete_ne in H1, H2 by congruence. exact (Hinj h1 h2 x H1 H2). }
    pose proof (items_insert_last st1 host Hwf1) as Hlast.
    cbn [connections next_client st1] in Hlast.
    rewrite Hlast by apply lookup_delete_eq.
    rewrite fmap_app, (items_delete st host Hwf). cbn [fmap list_fmap fst].
    f_equal. apply filter_hosts. }
  assert (Hnew : forall x, connections st !! host = Some x -> x <> next_client st).
  { intros x Hx. apply Hlt in Hx. lia. }
  assert (Hcases : (connections st !! host = Some s /\ connections st' = connections st) \/
                   (s = next_client st /\
                    connections st' = <[host := s]> (delete host (connections st)))).
  { unfold ConnectionManager.get_connection in Hacq. unfold_sys.
    destruct (connections st !! host) as [old |] eqn:Hold; reduce_run.
    - destruct (exec_exn w (clock st) old "show system") eqn:Hprobe; reduce_run.
      + destruct (close_exn w (S (clock st)) old) eqn:Hclose; reduce_run;
          destruct (connect_exn w _ host) eqn:Hconn; reduce_run;
          inversion Hacq; subst; cbn [connections]; right; split; reflexivity.
      + inversion Hacq; subst. left. split; reflexivity.
    - destruct (connect_exn w _ host) eqn:Hconn; reduce_run; inversion Hacq; subst.
      cbn [connections]. right. split; [reflexivity |].
      rewrite (delete_id (connections st) host Hold). reflexivity. }
  destruct Hcases as [[Hs ->] | [-> ->]].
  - rewrite decide_True by exact Hs. reflexivity.
  - rewrite decide_False by (intros Hs; exact (Hnew _ Hs eq_refl)). exact Hdel.
Qed.

(** X7. [MainMenu.close_connection] always returns. The hosts it lists are
    the hosts of the pool in the order their entries were inserted, that is,
    oldest client first. A line that is not a number, or a number outside
    1..n for the n hosts listed, changes nothing: no client is closed. The
    number k of a listed host does what [ConnectionManager.close_connection]
    does for the k-th host of the list; when that close returns, the other
    hosts are listed as before, in the same order. *)
Theorem menu_close_connection_selection w typed st :
  let entries := MainMenu.items (connections st) in
  let active := entries.*1 in
  let r := MainMenu.close_connection w typed st in
  MainMenu.list_connections st = (Ok active, st) /\
  StronglySorted MainMenu.older entries /\
  (forall host, host ∈ active <-> is_Some (connections st !! host)) /\
  r.1 = Ok tt /\
  (Py.int (Py.strip typed) = None -> r.2 = st) /\
  (forall n, Py.int (Py.strip typed) = Some n ->
             (n < 1 \/ Z.of_nat (length active) < n) -> r.2 = st) /\
  (forall n host,
      Py.int (Py.strip typed) = Some n ->
      active !! Z.to_nat (n - 1) = Some host -> 1 <= n ->
      r = ConnectionManager.close_connection w host st /\
      is_Some (connections st !! host) /\
      (pool_wf st -> connections r.2 !! host = None ->
       (MainMenu.items (connections r.2)).*1 = filter (fun h => h <> host) active)).
Proof.
  intros entries active r. subst r.
  assert (Hlisted : forall host, host ∈ active <-> is_Some (connections st !! host)).
  { intros host. unfold active, entries. rewrite list_elem_of_fmap. split.
    - intros ([h s] & -> & Hel). apply items_elem in Hel. cbn. eauto.
    - intros [s Hs]. exists (host, s). split; [reflexivity | apply items_elem; exact Hs]. }
  split; [reflexivity |]. split; [apply items_sorted |]. split; [exact Hlisted |].
  unfold MainMenu.close_connection, MainMenu.list_connections.
  rewrite bind_run. cbv [gets]. rewrite bind_run. cbv [mret M_ret]. cbv beta iota.
  fold entries. fold active.
  assert (Hdef : active = (MainMenu.items (connections st)).*1) by reflexivity.
  clearbody active. clear entries.
  assert (Hclose : forall host, (ConnectionManager.close_connection w host st).1 = Ok tt).
  { intros host. apply close_connection_returns. }
  destruct active as [|h0 rest] eqn:Hact.
  - cbn [fst snd]. split; [reflexivity |]. split; [reflexivity |]. split; [reflexivity |].
    intros n host _ Hlook _. rewrite lookup_nil in Hlook. discriminate Hlook.
  - rewrite <- Hact. destruct (Py.int (Py.strip typed)) as [n |] eqn:Hint.
    + destruct ((0 <=? n - 1) && (n - 1 <? Z.of_nat (length active))) eqn:Hrange.
      * apply andb_true_iff in Hrange as [H0 H1].
        apply Z.leb_le in H0. apply Z.ltb_lt in H1.
        destruct (active !! Z.to_nat (n - 1)) as [host |] eqn:Hlook.
        -- split; [apply Hclose |]. split; [discriminate |]. split.
           ++ intros n' Hn' Hout. injection Hn' as <-. lia.
           ++ intros n' host' Hn' Hlook' _. injection Hn' as <-.
              rewrite Hlook in Hlook'. injection Hlook' as <-.
              split; [reflexivity |].
              split; [apply Hlisted; rewrite <- Hact;
                      exact (list_elem_of_lookup_2 _ _ _ Hlook) |].
              intros Hwf Hgone.
              pose proof (close_connection_run w host st) as Hrun.
              destruct (connections st !! host) as [ssh |] eqn:Hh.
              ** rewrite Hrun in Hgone |- *. cbn [snd connections] in Hgone |- *.
                 destruct (close_exn w (clock st) ssh); [congruence |].
                 rewrite (items_delete st host Hwf), Hact, Hdef.
                 apply filter_hosts.
              ** exfalso.
                 assert (Hs : is_Some (connections st !! host)).
                 { apply Hlisted. rewrite <- Hact.
                   exact (list_elem_of_lookup_2 _ _ _ Hlook). }
                 rewrite Hh in Hs. destruct Hs as [x Hx]. discriminate Hx.
        -- apply lookup_ge_None in Hlook. lia.
      * cbn [fst snd]. split; [reflexivity |]. split; [discriminate |].
        split; [reflexivity |].
        intros n' host Hn' Hlook Hpos. injection Hn' as <-.
        apply lookup_lt_Some in Hlook.
        apply andb_false_iff in Hrange as [H0 | H1].
        -- apply Z.leb_gt in H0. lia.
        -- apply Z.ltb_ge in H1. lia.
    + cbn [fst snd]. split; [reflexivity |]. split; [reflexivity |].
      split; [discriminate | discriminate].
Qed.

Lemma menu_close_connection_selection_witness :
  let st := State 2 2%nat [Connect "sw2" 0%nat; Connect "sw1" 1%nat]
                  {[ "sw2" := 0%nat; "sw1" := 1%nat ]} ∅ (Stats 0 0 0 false) in
  (MainMenu.list_connections st).1 = Ok ["sw2"; "sw1"] /\
  (MainMenu.close_connection quiet "abc" st).2 = st /\
  (MainMenu.close_connection quiet "3" st).2 = st /\
  MainMenu.close_connection quiet " 1 " st = ConnectionManager.close_connection quiet "sw2" st /\
  trace (MainMenu.close_connection quiet " 1 " st).2 = trace st ++ [Close 0%nat].
Proof.
  intros st.
  destruct (menu_close_connection_selection quiet "abc" st) as (Hlist & _ & _ & _ & Hbad & _).
  destruct (menu_close_connection_selection quiet "3" st) as (_ & _ & _ & _ & _ & Hout & _).
  destruct (menu_close_connection_selection quiet " 1 " st) as (_ & _ & _ & _ & _ & _ & Hsel).
  split; [rewrite Hlist; vm_compute; reflexivity |].
  split; [apply Hbad; reflexivity |].
  split; [apply (Hout 3); [reflexivity | right; vm_compute; reflexivity] |].
  destruct (Hsel 1 "sw2") as (Hr & _ & _); [reflexivity | vm_compute; reflexivity | lia |].
  split; [exact Hr |]. rewrite Hr. vm_compute. reflexivity.
Defined.

(** ** The batch runner: log paths, inputs, accounting and logs *)

Lemma split_go_no_sep sep s : forall cur,
  Forall (fun c => c <> sep) (list_ascii_of_string s) ->
  Py.split_go sep s cur = [string_of_list_ascii (rev cur ++ list_ascii_of_string s)].
Proof.
  induction s as [|c s IH]; intros cur Hall.
  - cbn. rewrite app_nil_r. reflexivity.
  - cbn [list_ascii_of_string] in Hall. apply Forall_cons in Hall as [Hc Hall].
    cbn [Py.split_go]. destruct (Ascii.eqb_spec c sep) as [-> | _]; [congruence |].
    rewrite (IH (c :: cur) Hall). cbn [rev list_ascii_of_string].
    rewrite <- app_assoc. reflexivity.
Qed.

Lemma sanitize_chars switch :
  Forall (fun c => ~ path_char c) (list_ascii_of_string (BulkCommands.sanitize switch)).
Proof.
  induction switch as [|c s IH]; [constructor |].
  cbn [BulkCommands.sanitize list_ascii_of_string]. constructor; [| exact IH].
  unfold path_char.
  destruct (Ascii.eqb_spec c "/"); [cbn; intuition discriminate |].
  destruct (Ascii.eqb_spec c "\"); [cbn; intuition discriminate |].
  destruct (Ascii.eqb_spec c ":"); [cbn; intuition discriminate |].
  cbn. intuition congruence.
Qed.

Lemma sanitize_clean switch :
  Forall (fun c => ~ path_char c) (list_ascii_of_string switch) ->
  BulkCommands.sanitize switch = switch.
Proof.
  induction switch as [|c s IH]; intros Hall; [reflexivity |].
  cbn [list_ascii_of_string] in Hall. apply Forall_cons in Hall as [Hc Hall].
  cbn [BulkCommands.sanitize]. rewrite (IH Hall).
  unfold path_char in Hc.
  destruct (Ascii.eqb_spec c "/"); [tauto |].
  destruct (Ascii.eqb_spec c "\"); [tauto |].
  destruct (Ascii.eqb_spec c ":"); [tauto |].
  reflexivity.
Qed.

Lemma sanitize_one_component sep switch :
  path_char sep ->
  Py.split sep (BulkCommands.sanitize switch) = [BulkCommands.sanitize switch].
Proof.
  intros Hsep. unfold Py.split. rewrite split_go_no_sep.
  - cbn [rev app]. rewrite string_of_list_ascii_of_string. reflexivity.
  - eapply Forall_impl; [apply sanitize_chars |].
    intros c Hc ->. exact (Hc Hsep).
Qed.

(** X8. The directory [get_log_file_path] derives from a switch name. The
    sanitized name has the length of the name and none of the characters
    [/], [\] and [:], so it is one path component, on either kind of
    separator. A name without these characters is kept as it is, whatever
    else it is made of: names such as [.] and [..] pass unchanged, and the
    directory is then not one inside Logs. Sanitizing twice changes nothing
    more, so a name and its sanitized form, two different switch names when
    the name had one of the three characters, share one log directory. *)
Theorem log_path_is_sanitized switch :
  String.length (BulkCommands.sanitize switch) = String.length switch /\
  Forall (fun c => ~ path_char c) (list_ascii_of_string (BulkCommands.sanitize switch)) /\
  Py.split "/"%char (BulkCommands.sanitize switch) = [BulkCommands.sanitize switch] /\
  Py.split "\"%char (BulkCommands.sanitize switch) = [BulkCommands.sanitize switch] /\
  (Forall (fun c => ~ path_char c) (list_ascii_of_string switch) ->
   BulkCommands.sanitize switch = switch) /\
  (Exists path_char (list_ascii_of_string switch) ->
   BulkCommands.sanitize switch <> switch /\
   BulkCommands.get_log_file_path (BulkCommands.sanitize switch)
   = BulkCommands.get_log_file_path switch).
Proof.
  split; [| split; [exact (sanitize_chars switch) | split; [| split; [| split]]]].
  - induction switch as [|c s IH]; [reflexivity |].
    cbn [BulkCommands.sanitize String.length]. congruence.
  - apply sanitize_one_component. left. reflexivity.
  - apply sanitize_one_component. right. left. reflexivity.
  - apply sanitize_clean.
  - intros Hex. split.
    + intros Heq. pose proof (sanitize_chars switch) as Hclean. rewrite Heq in Hclean.
      apply Exists_exists in Hex as (c & Hin & Hc).
      exact (proj1 (Forall_forall _ _) Hclean c Hin Hc).
    + unfold BulkCommands.get_log_file_path.
      rewrite (sanitize_clean _ (sanitize_chars switch)). reflexivity.
Qed.

Lemma log_path_is_sanitized_witness :
  BulkCommands.sanitize ".." = ".." /\
  BulkCommands.get_log_file_path ".." = "Logs/.." /\
  BulkCommands.get_log_file_path "10.1.1.1_22" = BulkCommands.get_log_file_path "10.1.1.1:22".
Proof.
  destruct (log_path_is_sanitized "..") as (_ & _ & _ & _ & Hkept & _).
  destruct (log_path_is_sanitized "10.1.1.1:22") as (_ & _ & _ & _ & _ & Hshared).
  assert (Hdots : BulkCommands.sanitize ".." = "..").
  { apply Hkept. repeat constructor; unfold path_char; intuition discriminate. }
  split; [exact Hdots |]. split.
  - unfold BulkCommands.get_log_file_path. rewrite Hdots. reflexivity.
  - destruct Hshared as [_ Hsame].
    + apply Exists_cons_tl. do 7 apply Exists_cons_tl. apply Exists_cons_hd.
      right. right. reflexivity.
    + exact Hsame.
Defined.

(** X9. [run_bulk_commands] stops before anything is sent, and leaves the
    pool and the trace as they are, when one of the two CSV files does not
    exist or cannot be loaded; it returns normally in that case. *)
Theorem run_bulk_commands_needs_both_files w (cm : ConnManager) switches_csv commands_csv st :
  (switches_csv = None \/ commands_csv = None \/
   (exists sf e, switches_csv = Some sf /\
                 Csv.load_csv_column "switches.csv" "hostname" sf = Raise e) \/
   (exists cf e, commands_csv = Some cf /\
                 Csv.load_csv_column "commands.csv" "command" cf = Raise e)) ->
  BulkCommands.run_bulk_commands w cm switches_csv commands_csv st = (Ok None, st).
Proof.
  unfold BulkCommands.run_bulk_commands.
  intros [-> | [-> | [(sf & e & -> & Hs) | (cf & e & -> & Hc)]]].
  - reflexivity.
  - destruct switches_csv; reflexivity.
  - destruct commands_csv; [rewrite Hs |]; reflexivity.
  - destruct switches_csv as [sf |]; [| reflexivity].
    destruct (Csv.load_csv_column "switches.csv" "hostname" sf); [| reflexivity].
    rewrite Hc. reflexivity.
Qed.

Lemma run_bulk_commands_needs_both_files_witness :
  BulkCommands.run_bulk_commands quiet (local_manager quiet)
    (Some (Csv.Lines [Csv.Row ["hostname"]; Csv.Row ["sw1"]]))
    (Some (Csv.Lines [Csv.Row ["command"]; Csv.Row ["  "]])) start
  = (Ok None, start).
Proof.
  apply run_bulk_commands_needs_both_files.
  right. right. right. eexists _, _. split; [reflexivity |]. vm_compute. reflexivity.
Defined.

Lemma process_switch_stats w (cm : ConnManager) switch commands log_file st :
  keeps_stats cm ->
  exists s st',
    BulkCommands.process_switch w cm switch commands log_file st = (Ok s, st') /\
    ((connection_failed s = true /\ total s = 0%nat /\ success s = 0%nat /\ errors s = 0%nat) \/
     (connection_failed s = false /\ total s = length commands /\
      (success s + errors s = length commands)%nat)).
Proof.
  intros Hkeep.
  pose proof (process_switch_run w cm switch commands log_file st Hkeep) as H.
  destruct (cm_get_connection switch _) as [[ssh | e] st1].
  - destruct H as (s & st' & H & Htot & Hsum & Hcf & _).
    exists s, st'. split; [exact H |]. right. auto.
  - destruct H as (st' & H & _).
    eexists _, st'. split; [exact H |]. left. auto.
Qed.

Lemma switches_loop_accounting w (cm : ConnManager) commands switches :
  keeps_stats cm ->
  forall overall st,
  exists overall' st' failed,
    BulkCommands.switches_loop w cm switches commands overall st = (Ok overall', st') /\
    (failed <= length switches)%nat /\
    BulkCommands.total_switches overall' = BulkCommands.total_switches overall /\
    BulkCommands.processed overall' = (BulkCommands.processed overall + length switches)%nat /\
    BulkCommands.connection_failures overall'
    = (BulkCommands.connection_failures overall + failed)%nat /\
    BulkCommands.total_commands overall'
    = (BulkCommands.total_commands overall
       + length commands * (length switches - failed))%nat /\
    (BulkCommands.total_success overall' + BulkCommands.total_errors overall'
     = BulkCommands.total_success overall + BulkCommands.total_errors overall
       + length commands * (length switches - failed))%nat.
Proof.
  intros Hkeep. induction switches as [|switch switches IH]; intros overall st.
  - exists overall, st, 0%nat. cbn [BulkCommands.switches_loop length].
    rewrite Nat.mul_0_r, !Nat.add_0_r. repeat split; reflexivity.
  - rewrite switches_loop_cons.
    destruct (process_switch_stats w cm switch commands
                (BulkCommands.get_log_file_path switch) st Hkeep)
      as (s & st1 & -> & Hs).
    match goal with
    | |- context [BulkCommands.switches_loop w cm switches commands ?ov st1] =>
        destruct (IH ov st1) as (ov' & st' & failed & Hrun & Hle & Hts & Hp & Hcf & Htc & Hse)
    end.
    cbn [BulkCommands.total_switches BulkCommands.processed BulkCommands.connection_failures
         BulkCommands.total_commands BulkCommands.total_success BulkCommands.total_errors]
      in Hts, Hp, Hcf, Htc, Hse.
    destruct Hs as [(Hf & Ht & Hsu & He) | (Hf & Ht & Hsum)]; rewrite Hf in Hcf.
    + exists ov', st', (S failed). rewrite Hrun. cbn [length].
      replace (S (length switches) - S failed)%nat with (length switches - failed)%nat by lia.
      repeat split; try lia.
    + exists ov', st', failed. rewrite Hrun. cbn [length].
      replace (S (length switches) - failed)%nat
        with (S (length switches - failed))%nat by lia.
      rewrite Nat.mul_succ_r.
      repeat split; try lia.
Qed.

(** X10. The summary of a run that gets past the CSV files, with either
    connection manager: the run returns, every switch is processed, the
    command total is the number of commands times the number of switches
    that could be connected, and every command counted is counted as a
    success or as an error. *)
Theorem run_bulk_commands_summary w (cm : ConnManager) sf cf switches commands st :
  cm ∈ bulk_managers w ->
  Csv.load_csv_column "switches.csv" "hostname" sf = Ok switches ->
  Csv.load_csv_column "commands.csv" "command" cf = Ok commands ->
  exists overall st',
    BulkCommands.run_bulk_commands w cm (Some sf) (Some cf) st = (Ok (Some overall), st') /\
    BulkCommands.total_switches overall = length switches /\
    BulkCommands.processed overall = length switches /\
    (BulkCommands.connection_failures overall <= length switches)%nat /\
    BulkCommands.total_commands overall
    = (length commands * (length switches - BulkCommands.connection_failures overall))%nat /\
    (BulkCommands.total_success overall + BulkCommands.total_errors overall
     = BulkCommands.total_commands overall)%nat.
Proof.
  intros Hin Hs Hc. apply bulk_managers_keep_stats in Hin.
  unfold BulkCommands.run_bulk_commands. rewrite Hs, Hc, bind_run.
  destruct (switches_loop_accounting w cm commands switches Hin
              (BulkCommands.Overall (length switches) 0 0 0 0 0) st)
    as (ov & st' & failed & -> & Hle & Hts & Hp & Hcf & Htc & Hse).
  cbn [BulkCommands.total_switches BulkCommands.processed BulkCommands.connection_failures
       BulkCommands.total_commands BulkCommands.total_success BulkCommands.total_errors]
    in Hts, Hp, Hcf, Htc, Hse.
  exists ov, st'. split; [reflexivity |].
  rewrite Hcf, Htc, Hse, Hts, Hp. cbn [Nat.add]. repeat split; lia.
Qed.

Lemma run_bulk_commands_summary_witness :
  exists overall st',
    BulkCommands.run_bulk_commands flaky (local_manager flaky)
      (Some (Csv.Lines [Csv.Row ["hostname"]; Csv.Row ["sw1"]; Csv.Row ["bad"]]))
      (Some (Csv.Lines [Csv.Row ["command"]; Csv.Row ["show version"]])) start
    = (Ok (Some overall), st') /\
    BulkCommands.processed overall = 2%nat /\
    (BulkCommands.total_success overall + BulkCommands.total_errors overall
     = BulkCommands.total_commands overall)%nat.
Proof.
  destruct (run_bulk_commands_summary flaky (local_manager flaky)
              (Csv.Lines [Csv.Row ["hostname"]; Csv.Row ["sw1"]; Csv.Row ["bad"]])
              (Csv.Lines [Csv.Row ["command"]; Csv.Row ["show version"]])
              ["sw1"; "bad"] ["show version"] start)
    as (overall & st' & Hrun & _ & Hp & _ & _ & Hse).
  - apply list_elem_of_further, list_elem_of_here.
  - vm_compute. reflexivity.
  - vm_compute. reflexivity.
  - exists overall, st'. split; [exact Hrun | split; [exact Hp | exact Hse]].
Defined.

Lemma log_entries_app tr1 tr2 :
  log_entries (tr1 ++ tr2) = log_entries tr1 ++ log_entries tr2.
Proof. apply omap_app. Qed.

Lemma run_command_log w ssh log_file command st :
  exists entry st',
    BulkCommands.run_command w ssh log_file command st = (Ok tt, st') /\
    command_entry log_file command entry /\
    log_entries (trace st') = log_entries (trace st) ++ [entry] /\
    success (stats st') = (success (stats st) + count_success [entry])%nat.
Proof.
  destruct (run_command_run w ssh log_file command st)
    as (output & error & exec_time & status & st' & Hrun & Htr & _ & _ & _ & _ & _ & _ & Hcall).
  exists (log_file, LogCommand command output error exec_time status), st'.
  split; [exact Hrun |].
  assert (Hstatus : (status = "Success" /\ success (stats st') = S (success (stats st))) \/
                    ((status = "Completed with errors" \/ status = "Failed") /\
                     success (stats st') = success (stats st))).
  { destruct (remote_call w ssh command (S (clock st))) as [[out err] | e].
    - destruct Hcall as (_ & _ & Hs & Hn). destruct (String.eqb err ""); auto.
    - destruct Hcall as (_ & _ & Hs & Hn). auto. }
  split; [|split].
  - exists output, error, exec_time, status. split; [reflexivity |]. tauto.
  - rewrite Htr, log_entries_app. reflexivity.
  - unfold count_success, is_success_entry. cbn [List.filter snd].
    destruct Hstatus as [[-> ->] | [[-> | ->] ->]]; cbn; lia.
Qed.

Lemma commands_loop_log w ssh log_file commands : forall st,
  exists entries st',
    for_each commands (BulkCommands.run_command w ssh log_file) st = (Ok tt, st') /\
    Forall2 (command_entry log_file) commands entries /\
    log_entries (trace st') = log_entries (trace st) ++ entries /\
    success (stats st') = (success (stats st) + count_success entries)%nat.
Proof.
  induction commands as [|command commands IH]; intros st.
  - exists [], st. cbn [for_each]. rewrite app_nil_r.
    split; [reflexivity |]. split; [constructor |]. split; [reflexivity |].
    cbn. lia.
  - destruct (run_command_log w ssh log_file command st)
      as (entry & st1 & Hrun & Hentry & Hlog & Hsucc).
    destruct (IH st1) as (entries & st' & Hloop & Hall & Hlog' & Hsucc').
    exists (entry :: entries), st'. cbn [for_each]. rewrite bind_run, Hrun.
    split; [exact Hloop |]. split; [constructor; assumption |].
    split.
    + rewrite Hlog', Hlog, <- app_assoc. reflexivity.
    + rewrite Hsucc', Hsucc. unfold count_success. cbn [List.filter].
      destruct (is_success_entry entry); cbn [length]; lia.
Qed.

(** X11. What [process_switch] writes to the log of a host, with either
    connection manager. When [get_connection] raises, the only thing written
    is the connection error with the message of the exception: no header,
    no command, no footer. When it returns, the log receives the header, one
    entry per command of the list, in order, each with one of the three
    statuses, and the footer; the footer and the stats returned report the
    number of commands, the number of entries with status "Success", and as
    errors all the others. *)
Theorem process_switch_log w (cm : ConnManager) switch commands log_file st :
  cm ∈ bulk_managers w ->
  match cm_get_connection switch (set_stats (Stats 0 0 0 false) st) with
  | (Raise e, st1) =>
      log_entries (trace (BulkCommands.process_switch w cm switch commands log_file st).2)
      = log_entries (trace st1) ++ [(log_file, LogConnectionError (exn_str e))]
  | (Ok _, st1) =>
      exists s entries,
        (BulkCommands.process_switch w cm switch commands log_file st).1 = Ok s /\
        log_entries (trace (BulkCommands.process_switch w cm switch commands log_file st).2)
        = log_entries (trace st1) ++
          (log_file, LogHeader switch) :: entries ++
          [(log_file, LogFooter (total s) (success s) (errors s))] /\
        Forall2 (command_entry log_file) commands entries /\
        total s = length commands /\
        success s = count_success entries /\
        errors s = (length commands - count_success entries)%nat
  end.
Proof.
  intros Hin. apply bulk_managers_keep_stats in Hin.
  pose proof (Hin switch (set_stats (Stats 0 0 0 false) st)) as Hst.
  pose proof (process_switch_run w cm switch commands log_file st Hin) as Hrun.
  unfold BulkCommands.process_switch in *.
  rewrite bind_run in *. cbv [modify] in *. rewrite bind_run, try_except_run, bind_run in *.
  destruct (cm_get_connection switch (set_stats (Stats 0 0 0 false) st))
    as [[ssh | e] st1]; cbn [snd] in Hst.
  - rewrite bind_run in *.
    set (st2 := State (S (clock st1)) (next_client st1)
                      (trace st1 ++ [Log log_file (LogHeader switch)])
                      (connections st1) (fdb_cache st1) (stats st1)) in *.
    change (Sys.append_log log_file (LogHeader switch) st1) with (Ok tt, st2) in *.
    cbv beta iota in *. rewrite bind_run in *.
    destruct (commands_loop_log w ssh log_file commands st2)
      as (entries & st3 & Hloop & Hall & Hlog & Hsucc).
    destruct (commands_loop_run w ssh log_file commands st2)
      as (st3' & Hloop' & _ & _ & Htot & Hsum & _).
    rewrite Hloop in Hloop'. injection Hloop' as <-.
    rewrite Hloop in *. cbv beta iota in *. clear Hrun. unfold_sys.
    subst st2. cbn [stats trace] in *. rewrite Hst in *.
    cbn [set_stats stats total success errors] in *.
    eexists _, entries. split; [reflexivity |].
    split; [| split; [exact Hall | split; [lia | split; [lia | lia]]]].
    cbn [snd trace]. rewrite log_entries_app, Hlog, log_entries_app. cbn.
    rewrite <- !app_assoc. reflexivity.
  - clear Hrun. unfold_sys. cbn [snd trace]. rewrite log_entries_app. reflexivity.
Qed.

Lemma process_switch_log_witness :
  log_entries (trace (BulkCommands.process_switch flaky (local_manager flaky) "bad"
                        ["show version"] "Logs/bad" start).2)
  = [("Logs/bad", LogConnectionError "Failed to connect to bad: No route to host")].
Proof.
  pose proof (process_switch_log flaky (local_manager flaky) "bad" ["show version"]
                "Logs/bad" start) as H.
  cbn [cm_get_connection local_manager] in H.
  destruct (LocalConnectionManager.get_connection flaky "bad"
              (set_stats (Stats 0 0 0 false) start)) as [[ssh | e] st1] eqn:E.
  - vm_compute in E. discriminate E.
  - vm_compute in E. injection E as <- <-.
    apply H. apply list_elem_of_further, list_elem_of_here.
Defined.

(** ** The FDB cache: failed fetches, frame, accepted refresh *)



(** X13. A lookup for one switch never changes the cache entry of another
    switch, and never touches the connection pool. When it returns, the
    cache holds for the switch exactly the output that was returned. *)
Theorem get_fdb_info_frame w ssh switch_ip force_refresh st :
  let r := FDBSearching.get_fdb_info w ssh switch_ip force_refresh st in
  connections r.2 = connections st /\
  (forall other, other <> switch_ip -> fdb_cache r.2 !! other = fdb_cache st !! other) /\
  (forall out, r.1 = Ok out ->
               exists entry, fdb_cache r.2 !! switch_ip = Some entry /\ data entry = out).
Proof.
  intros r. subst r. unfold FDBSearching.get_fdb_info. unfold_sys.
  repeat split_answer;
    (split; [reflexivity |]);
    (split; [ intros other Hne; rewrite ?lookup_insert_ne by congruence; reflexivity |]);
    intros out Hout; inversion Hout; subst;
    first [ eexists; split; [eassumption | reflexivity]
          | eexists; split; [apply lookup_insert_eq | reflexivity] ].
Qed.

Lemma get_fdb_info_frame_witness :
  let st := State 1 1%nat [] {[ "10.1.1.1" := 0%nat ]}
                  {[ "10.1.1.1" := CacheEntry "old table" (inject_Z 0) ]}
                  (Stats 0 0 0 false) in
  fdb_cache (FDBSearching.get_fdb_info quiet 0%nat "10.1.1.2" false st).2 !! "10.1.1.1"
  = Some (CacheEntry "old table" (inject_Z 0)) /\
  exists entry,
    fdb_cache (FDBSearching.get_fdb_info quiet 0%nat "10.1.1.2" false st).2 !! "10.1.1.2"
    = Some entry /\ data entry = "output of show fdb".
Proof.
  intros st.
  destruct (get_fdb_info_frame quiet 0%nat "10.1.1.2" false st) as (_ & Hother & Hsame).
  split.
  - rewrite Hother by discriminate. reflexivity.
  - apply Hsame. reflexivity.
Defined.

(** X14. On an entry 15 minutes old or older, the answer "y" in either case
    makes the lookup fetch: after the prompt the command is sent, and when
    it returns, its output is returned and replaces the entry, stamped with
    the time read at the start of the call, before the prompt. *)
Theorem stale_refresh_accepted w ssh switch_ip st e out :
  fdb_cache st !! switch_ip = Some e ->
  (inject_Z (15 * 60) <= time_at w (clock st) - timestamp e)%Q ->
  Py.lower (console_in w (S (clock st))) = "y" ->
  exec_exn w (S (S (clock st))) ssh "show fdb" = None ->
  stdout_read w (S (S (S (clock st)))) ssh "show fdb" = Ok out ->
  let r := FDBSearching.get_fdb_info w ssh switch_ip false st in
  let age := (time_at w (clock st) - timestamp e)%Q in
  r.1 = Ok out /\
  trace r.2 = trace st ++ [Input switch_ip (FDBSearching.Qtrunc (age / inject_Z 60));
                           Exec ssh "show fdb"] /\
  fdb_cache r.2 !! switch_ip = Some (CacheEntry out (time_at w (clock st))).
Proof.
  intros He Hage Hy Hexec Hread r age. subst r age. apply Qltb_ge in Hage.
  unfold FDBSearching.get_fdb_info. unfold_sys.
  rewrite He. reduce_run.
  change (FDBSearching.cache_duration) with (inject_Z (15 * 60)).
  rewrite Hage. reduce_run. rewrite Hy. cbn [String.eqb Ascii.eqb Bool.eqb negb andb].
  reduce_run. rewrite Hexec. reduce_run. rewrite Hread. reduce_run.
  split; [reflexivity |]. split; [rewrite <- app_assoc; reflexivity |].
  apply lookup_insert_eq.
Qed.

Lemma stale_refresh_accepted_witness :
  let yes := World (fun _ _ => None) (fun _ _ _ => None)
                   (fun _ _ _ => Ok "new table") (fun _ _ _ => Ok "") (fun _ _ => None)
                   (fun _ => "Y") (fun t => inject_Z (3600 * Z.of_nat t)) (fun _ => None) in
  (FDBSearching.get_fdb_info yes 0%nat "10.1.1.1" false cached_at_0).1 = Ok "new table".
Proof.
  intros yes.
  apply (stale_refresh_accepted yes 0%nat "10.1.1.1" cached_at_0
           (CacheEntry "old table" (inject_Z 0)) "new table").
  - reflexivity.
  - vm_compute. discriminate.
  - reflexivity.
  - reflexivity.
  - reflexivity.
Defined.

(** ** The camera inventory and the MAC database *)

Lemma lower_char_idem c : Py.lower_char (Py.lower_char c) = Py.lower_char c.
Proof. destruct c as [[] [] [] [] [] [] [] []]; reflexivity. Qed.

Lemma lower_idem s : Py.lower (Py.lower s) = Py.lower s.
Proof. induction s as [|c s IH]; cbn; [reflexivity |]. rewrite lower_char_idem, IH. reflexivity. Qed.

Lemma remove_char_lower c s :
  Py.lower_char c = c -> (forall x, Py.lower_char x = c -> x = c) ->
  Py.remove_char c (Py.lower s) = Py.lower (Py.remove_char c s).
Proof.
  intros Hc Honly. induction s as [|x s IH]; [reflexivity |].
  cbn [Py.lower Py.remove_char].
  destruct (Ascii.eqb_spec x c) as [-> | Hne].
  - rewrite Hc, Ascii.eqb_refl. exact IH.
  - destruct (Ascii.eqb_spec (Py.lower_char x) c) as [Heq | _].
    + apply Honly in Heq. contradiction.
    + cbn [Py.lower]. rewrite IH. reflexivity.
Qed.

Lemma remove_char_idem c s : Py.remove_char c (Py.remove_char c s) = Py.remove_char c s.
Proof.
  induction s as [|x s IH]; [reflexivity |]. cbn [Py.remove_char].
  destruct (Ascii.eqb x c) eqn:E; [exact IH |].
  cbn [Py.remove_char]. rewrite E, IH. reflexivity.
Qed.

Lemma remove_char_comm a b s :
  Py.remove_char a (Py.remove_char b s) = Py.remove_char b (Py.remove_char a s).
Proof.
  induction s as [|x s IH]; [reflexivity |]. cbn [Py.remove_char].
  destruct (Ascii.eqb x b) eqn:Eb; destruct (Ascii.eqb x a) eqn:Ea;
    cbn [Py.remove_char]; rewrite ?Eb, ?Ea, IH; reflexivity.
Qed.

Lemma colon_only_lower x : Py.lower_char x = ":"%char -> x = ":"%char.
Proof.
  destruct x as [[] [] [] [] [] [] [] []]; vm_compute; intros H;
    first [reflexivity | discriminate H].
Qed.

Lemma hyphen_only_lower x : Py.lower_char x = "-"%char -> x = "-"%char.
Proof.
  destruct x as [[] [] [] [] [] [] [] []]; vm_compute; intros H;
    first [reflexivity | discriminate H].
Qed.

Lemma mac_key_variants mac :
  mac_key (Py.lower mac) = mac_key mac /\
  mac_key (Py.remove_char ":" mac) = mac_key mac /\
  mac_key (Py.remove_char "-" mac) = mac_key mac.
Proof.
  unfold mac_key. split; [|split].
  - rewrite (remove_char_lower ":" mac eq_refl colon_only_lower).
    rewrite (remove_char_lower "-" _ eq_refl hyphen_only_lower).
    apply lower_idem.
  - rewrite remove_char_idem. reflexivity.
  - rewrite (remove_char_comm ":" "-"), remove_char_idem. reflexivity.
Qed.

Lemma find_camera_by_key mac mac' cameras :
  mac_key mac = mac_key mac' ->
  FDBSearching.find_camera_by_mac mac cameras = FDBSearching.find_camera_by_mac mac' cameras.
Proof.
  intros Hkey. induction cameras as [|c cameras IH]; [reflexivity |].
  cbn [FDBSearching.find_camera_by_mac]. fold (mac_key mac) (mac_key mac').
  rewrite Hkey, IH. reflexivity.
Qed.

(** X15. [find_camera_by_mac] returns the first camera of the list whose
    MAC address equals the one searched once colons and hyphens are removed
    and letters are lowered, and [None] exactly when no camera of the list
    does. The answer is the same whether the address searched is written
    with colons, with hyphens, without separators, or in upper case. *)
Theorem find_camera_by_mac_first_match mac cameras :
  match FDBSearching.find_camera_by_mac mac cameras with
  | Some c =>
      exists before after,
        cameras = before ++ c :: after /\
        mac_key (FDBSearching.mac_address c) = mac_key mac /\
        Forall (fun c' => mac_key (FDBSearching.mac_address c') <> mac_key mac) before
  | None =>
      Forall (fun c' => mac_key (FDBSearching.mac_address c') <> mac_key mac) cameras
  end /\
  FDBSearching.find_camera_by_mac (Py.lower mac) cameras
  = FDBSearching.find_camera_by_mac mac cameras /\
  FDBSearching.find_camera_by_mac (Py.remove_char ":" mac) cameras
  = FDBSearching.find_camera_by_mac mac cameras /\
  FDBSearching.find_camera_by_mac (Py.remove_char "-" mac) cameras
  = FDBSearching.find_camera_by_mac mac cameras.
Proof.
  destruct (mac_key_variants mac) as (Hl & Hc & Hh).
  split; [| repeat split; apply find_camera_by_key; assumption].
  induction cameras as [|c cameras IH]; [constructor |].
  cbn [FDBSearching.find_camera_by_mac]. fold (mac_key mac) (mac_key (FDBSearching.mac_address c)).
  destruct (String.eqb_spec (mac_key mac) (mac_key (FDBSearching.mac_address c))) as [Heq | Hne].
  - exists [], cameras. split; [reflexivity |]. split; [congruence | constructor].
  - destruct (FDBSearching.find_camera_by_mac mac cameras) as [c' |].
    + destruct IH as (before & after & -> & Hkey & Hpre).
      exists (c :: before), after. split; [reflexivity |]. split; [exact Hkey |].
      constructor; [congruence | exact Hpre].
    + constructor; [congruence | exact IH].
Qed.

(** X16. [check_mac_database] reads the database line by line and compares
    the first token of each line with the address searched, both reduced to
    their first six characters without colons, in lower case. It returns
    [True] at the first line that matches and [False] when all lines have a
    token and none matches. A line without any token (a blank line) that
    comes before any match makes it raise instead; and when the database
    cannot be opened it raises the exception of [open]. *)
Theorem check_mac_database_scan user_mac :
  (forall e, FDBSearching.check_mac_database user_mac (Raise e) = Raise e) /\
  (forall lines,
      match FDBSearching.check_mac_database user_mac (Ok lines) with
      | Ok true =>
          exists before line after token,
            lines = before ++ line :: after /\
            Forall (other_vendor user_mac) before /\
            head (Py.split_ws line) = Some token /\
            mac_prefix token = mac_prefix user_mac
      | Ok false => Forall (other_vendor user_mac) lines
      | Raise _ =>
          exists before line after,
            lines = before ++ line :: after /\
            Forall (other_vendor user_mac) before /\
            Py.split_ws line = []
      end).
Proof.
  split; [reflexivity |].
  intros lines. unfold FDBSearching.check_mac_database. fold (mac_prefix user_mac).
  induction lines as [|line lines IH]; [constructor |].
  cbn [FDBSearching.scan_database].
  destruct (Py.split_ws line) as [|token tokens] eqn:Htok.
  - exists [], line, lines. split; [reflexivity |]. split; [constructor | exact Htok].
  - fold (mac_prefix token).
    destruct (String.eqb_spec (mac_prefix user_mac) (mac_prefix token)) as [Heq | Hne].
    + exists [], line, lines, token. split; [reflexivity |]. split; [constructor |].
      rewrite Htok. split; [reflexivity | congruence].
    + assert (Hline : other_vendor user_mac line).
      { exists token. rewrite Htok. split; [reflexivity | congruence]. }
      destruct (FDBSearching.scan_database (mac_prefix user_mac) lines) as [[] | e].
      * destruct IH as (before & l & after & t & -> & Hb & Hh & Hm).
        exists (line :: before), l, after, t. split; [reflexivity |].
        split; [constructor; assumption | split; assumption].
      * constructor; assumption.
      * destruct IH as (before & l & after & -> & Hb & Hblank).
        exists (line :: before), l, after. split; [reflexivity |].
        split; [constructor; assumption | exact Hblank].
Qed.

Lemma skip_lines_drop n : forall ls rows,
  FDBSearching.skip_lines n ls = Some rows -> rows = drop n ls.
Proof.
  induction n as [|n IH]; intros ls rows H.
  - cbn in H. injection H as <-. reflexivity.
  - destruct ls as [|[cells | e] ls]; cbn in H; try discriminate H.
    apply (IH ls rows H).
Qed.

Lemma skip_lines_short n : forall ls,
  (length ls < n)%nat -> FDBSearching.skip_lines n ls = None.
Proof.
  induction n as [|n IH]; intros ls Hlen; [lia |].
  destruct ls as [|[cells | e] ls]; cbn; try reflexivity.
  apply IH. cbn in Hlen. lia.
Qed.

Lemma skip_lines_rows head : forall rest,
  Forall is_row head ->
  FDBSearching.skip_lines (length head) (head ++ rest) = Some rest.
Proof.
  induction head as [|l head IH]; intros rest Hall; [reflexivity |].
  apply Forall_cons in Hall as [[cells ->] Hall]. cbn. apply IH. exact Hall.
Qed.

Lemma read_cameras_acc ls : forall acc,
  FDBSearching.read_cameras ls acc = acc ++ FDBSearching.read_cameras ls [].
Proof.
  induction ls as [|[row | e] ls IH]; intros acc; cbn [FDBSearching.read_cameras].
  - rewrite app_nil_r. reflexivity.
  - destruct ((0 <? length row)%nat && negb (String.eqb (FDBSearching.cell row 0) "")).
    + rewrite (IH (acc ++ _)), (IH ([] ++ _)), <- app_assoc. reflexivity.
    + apply IH.
  - rewrite app_nil_r. reflexivity.
Qed.

Lemma read_cameras_elem ls c :
  c ∈ FDBSearching.read_cameras ls [] ->
  FDBSearching.server_name c <> "" /\
  exists row, Csv.Row row ∈ ls /\ c = camera_of_row row.
Proof.
  induction ls as [|[row | e] ls IH]; cbn [FDBSearching.read_cameras]; intros Hc.
  - apply elem_of_nil in Hc. destruct Hc.
  - destruct ((0 <? length row)%nat && negb (String.eqb (FDBSearching.cell row 0) "")) eqn:Hkeep.
    + rewrite read_cameras_acc in Hc. apply elem_of_app in Hc as [Hc | Hc].
      * apply list_elem_of_singleton in Hc. subst c. split.
        -- cbn [FDBSearching.server_name]. apply andb_true_iff in Hkeep as [_ Hne].
           apply negb_true_iff in Hne. intros Heq. rewrite Heq in Hne. discriminate Hne.
        -- exists row. split; [apply list_elem_of_here | reflexivity].
      * destruct (IH Hc) as (Hn & r & Hr & ->). split; [exact Hn |].
        exists r. split; [apply list_elem_of_further; exact Hr | reflexivity].
    + destruct (IH Hc) as (Hn & r & Hr & ->). split; [exact Hn |].
      exists r. split; [apply list_elem_of_further; exact Hr | reflexivity].
  - apply elem_of_nil in Hc. destruct Hc.
Qed.

Lemma read_cameras_until_failure rows e rest : forall acc,
  Forall is_row rows ->
  FDBSearching.read_cameras (rows ++ Csv.Fails e :: rest) acc
  = FDBSearching.read_cameras rows acc.
Proof.
  induction rows as [|l rows IH]; intros acc Hall; [reflexivity |].
  apply Forall_cons in Hall as [[cells ->] Hall].
  cbn [app FDBSearching.read_cameras].
  destruct ((0 <? length cells)%nat && negb (String.eqb (FDBSearching.cell cells 0) ""));
    apply IH; exact Hall.
Qed.

Lemma read_cameras_complete ls row :
  Forall is_row ls -> Csv.Row row ∈ ls -> FDBSearching.cell row 0 <> "" ->
  camera_of_row row ∈ FDBSearching.read_cameras ls [].
Proof.
  intros Hall Hin Hne. induction Hall as [|l ls [cells ->] _ IH].
  - apply elem_of_nil in Hin. destruct Hin.
  - cbn [FDBSearching.read_cameras]. apply elem_of_cons in Hin as [Heq | Hin].
    + injection Heq as <-.
      assert (Hkeep : (0 <? length row)%nat && negb (String.eqb (FDBSearching.cell row 0) "") = true).
      { apply andb_true_iff. split.
        - destruct row; [contradiction Hne; reflexivity | reflexivity].
        - apply negb_true_iff. apply String.eqb_neq. exact Hne. }
      rewrite Hkeep, read_cameras_acc. apply elem_of_app. left. apply list_elem_of_here.
    + destruct ((0 <? length cells)%nat && negb (String.eqb (FDBSearching.cell cells 0) "")).
      * rewrite read_cameras_acc. apply elem_of_app. right. exact (IH Hin).
      * exact (IH Hin).
Qed.

(** X17. [load_camera_csv] never fails: a file that cannot be opened, or
    that ends before its 31st line, gives the empty list. Every camera it
    returns comes from a row after the 31st line, has a non-empty first
    field, and has the empty string for each field its row is too short to
    hold. When the reader fails in the middle of the data, the cameras of
    the rows before the failure are returned and the rest of the file is
    lost; when it does not fail, every row with a non-empty first cell gives
    a camera. *)
Theorem load_camera_csv_rows :
  (forall e, FDBSearching.load_camera_csv (Csv.Unreadable e) = []) /\
  (forall ls, (length ls < 31)%nat -> FDBSearching.load_camera_csv (Csv.Lines ls) = []) /\
  (forall f c,
      c ∈ FDBSearching.load_camera_csv f ->
      FDBSearching.server_name c <> "" /\
      exists ls row, f = Csv.Lines ls /\ Csv.Row row ∈ drop 31 ls /\ c = camera_of_row row) /\
  (forall head rows e rest,
      length head = 31%nat -> Forall is_row head -> Forall is_row rows ->
      FDBSearching.load_camera_csv (Csv.Lines (head ++ rows ++ Csv.Fails e :: rest))
      = FDBSearching.load_camera_csv (Csv.Lines (head ++ rows))) /\
  (forall head rows row,
      length head = 31%nat -> Forall is_row head -> Forall is_row rows ->
      Csv.Row row ∈ rows -> FDBSearching.cell row 0 <> "" ->
      camera_of_row row ∈ FDBSearching.load_camera_csv (Csv.Lines (head ++ rows))) /\
  (forall row i, (length row <= i)%nat -> FDBSearching.cell row i = "").
Proof.
  split; [reflexivity |]. split; [|split; [|split; [|split]]].
  - intros ls Hlen. unfold FDBSearching.load_camera_csv.
    rewrite skip_lines_short by exact Hlen. reflexivity.
  - intros [e | ls] c Hc; cbn [FDBSearching.load_camera_csv] in Hc.
    + apply elem_of_nil in Hc. destruct Hc.
    + destruct (FDBSearching.skip_lines 31 ls) as [rows |] eqn:Hskip.
      * apply skip_lines_drop in Hskip. subst rows.
        destruct (read_cameras_elem _ _ Hc) as (Hn & row & Hrow & ->).
        split; [exact Hn |]. exists ls, row. auto.
      * apply elem_of_nil in Hc. destruct Hc.
  - intros head rows e rest Hlen Hhead Hrows. unfold FDBSearching.load_camera_csv.
    rewrite <- Hlen, !skip_lines_rows by exact Hhead.
    apply read_cameras_until_failure. exact Hrows.
  - intros head rows row Hlen Hhead Hrows Hin Hne. unfold FDBSearching.load_camera_csv.
    rewrite <- Hlen, skip_lines_rows by exact Hhead.
    apply read_cameras_complete; assumption.
  - intros row i Hlen. unfold FDBSearching.cell.
    rewrite (proj2 (lookup_ge_None row i)) by lia. reflexivity.
Qed.

Lemma load_camera_csv_rows_witness :
  FDBSearching.load_camera_csv
    (Csv.Lines (replicate 31 (Csv.Row ["Server Name"]) ++
                [Csv.Row ["NVR1"; "Cam 1"; "10.0.0.5"]; Csv.Row []; Csv.Row [""; "x"]] ++
                Csv.Fails (Exn OtherException "bad byte") :: [Csv.Row ["NVR2"]]))
  = [FDBSearching.Camera "NVR1" "Cam 1" "10.0.0.5" "" "" ""].
Proof.
  destruct load_camera_csv_rows as (_ & _ & _ & Hfail & _).
  rewrite Hfail.
  - vm_compute. reflexivity.
  - reflexivity.
  - apply Forall_forall. intros l Hl. apply elem_of_replicate in Hl as [-> _].
    eexists; reflexivity.
  - repeat constructor; eexists; reflexivity.
Defined.

(** ** The version order *)

Lemma list_gt_irrefl a : Py.list_gt a a = false.
Proof. induction a as [|x a IH]; [reflexivity |]. cbn. rewrite Z.eqb_refl. exact IH. Qed.

Lemma list_gt_asym a : forall b, Py.list_gt a b = true -> Py.list_gt b a = false.
Proof.
  induction a as [|x a IH]; intros [|y b] H; cbn in *; try discriminate; try reflexivity.
  destruct (Z.eqb_spec x y) as [-> | Hne].
  - rewrite Z.eqb_refl. apply IH. exact H.
  - destruct (Z.eqb_spec y x) as [-> | _]; [congruence |].
    apply Z.ltb_lt in H. apply Z.ltb_ge. lia.
Qed.

Lemma list_gt_trans a : forall b c,
  length a = length b -> length b = length c ->
  Py.list_gt a b = true -> Py.list_gt b c = true -> Py.list_gt a c = true.
Proof.
  induction a as [|x a IH]; intros [|y b] [|z c] Hab Hbc H1 H2; cbn in *; try discriminate.
  destruct (Z.eqb_spec x y) as [-> | Hxy]; destruct (Z.eqb_spec y z) as [-> | Hyz].
  - apply (IH b c); congruence.
  - exact H2.
  - destruct (Z.eqb_spec x z) as [-> | _]; [contradiction | exact H1].
  - apply Z.ltb_lt in H1, H2.
    destruct (Z.eqb_spec x z) as [-> | _]; [lia |]. apply Z.ltb_lt. lia.
Qed.

(** Padding both sides further with the same number of zeros does not
    change the comparison. *)
Lemma list_gt_app a : forall b zs,
  length a = length b -> Py.list_gt (a ++ zs) (b ++ zs) = Py.list_gt a b.
Proof.
  induction a as [|x a IH]; intros [|y b] zs Hlen; cbn in Hlen; try discriminate.
  - cbn. apply list_gt_irrefl.
  - cbn. destruct (Z.eqb x y); [apply IH; congruence | reflexivity].
Qed.

Lemma zero_pad_more n m l :
  (length l <= n)%nat -> (n <= m)%nat ->
  zero_pad m l = zero_pad n l ++ repeat 0 (m - n)%nat.
Proof.
  intros Hl Hn. unfold zero_pad. rewrite <- app_assoc. f_equal.
  rewrite <- repeat_app. f_equal. lia.
Qed.

(** The comparison [is_newer_version] makes, with the padding taken to any
    common length that is long enough. *)
Lemma is_newer_version_at current latest cp lp m :
  Update.parts current = Some cp -> Update.parts latest = Some lp ->
  (length cp <= m)%nat -> (length lp <= m)%nat ->
  Update.is_newer_version current latest = Py.list_gt (zero_pad m lp) (zero_pad m cp).
Proof.
  intros Hc Hl Hcm Hlm. unfold Update.is_newer_version. rewrite Hc, Hl.
  set (n := Nat.max (length cp) (length lp)).
  change (Py.list_gt (zero_pad n lp) (zero_pad n cp) = Py.list_gt (zero_pad m lp) (zero_pad m cp)).
  rewrite (zero_pad_more n m lp), (zero_pad_more n m cp) by lia.
  symmetry. apply list_gt_app. rewrite !length_zero_pad by lia. reflexivity.
Qed.

Lemma is_newer_version_irrefl v : Update.is_newer_version v v = false.
Proof.
  unfold Update.is_newer_version.
  destruct (Update.parts v); [apply list_gt_irrefl | reflexivity].
Qed.

(** X18. [is_newer_version] is a strict order on version strings: no
    version is newer than itself, two versions are never each newer than
    the other, and newer than newer is newer, also between versions with
    different numbers of components. *)
Theorem is_newer_version_strict_order :
  (forall v, Update.is_newer_version v v = false) /\
  (forall a b, Update.is_newer_version a b = true -> Update.is_newer_version b a = false) /\
  (forall a b c,
      Update.is_newer_version a b = true -> Update.is_newer_version b c = true ->
      Update.is_newer_version a c = true).
Proof.
  assert (Hparse : forall a b, Update.is_newer_version a b = true ->
                     exists la lb, Update.parts a = Some la /\ Update.parts b = Some lb).
  { intros a b H. unfold Update.is_newer_version in H.
    destruct (Update.parts a) as [la |]; [| discriminate H].
    destruct (Update.parts b) as [lb |]; [| discriminate H]. eauto. }
  split; [|split].
  - exact is_newer_version_irrefl.
  - intros a b H. destruct (Hparse a b H) as (la & lb & Ha & Hb).
    set (m := Nat.max (length la) (length lb)).
    rewrite (is_newer_version_at a b la lb m Ha Hb) in H by lia.
    rewrite (is_newer_version_at b a lb la m Hb Ha) by lia.
    apply list_gt_asym. exact H.
  - intros a b c H1 H2.
    destruct (Hparse a b H1) as (la & lb & Ha & Hb).
    destruct (Hparse b c H2) as (lb' & lc & Hb' & Hc).
    rewrite Hb in Hb'. injection Hb' as <-.
    set (m := Nat.max (length la) (Nat.max (length lb) (length lc))).
    rewrite (is_newer_version_at a b la lb m Ha Hb) in H1 by lia.
    rewrite (is_newer_version_at b c lb lc m Hb Hc) in H2 by lia.
    rewrite (is_newer_version_at a c la lc m Ha Hc) by lia.
    apply (list_gt_trans _ (zero_pad m lb)); rewrite ?length_zero_pad by lia; auto.
Qed.

Lemma is_newer_version_strict_order_witness :
  Update.is_newer_version "1.2.10" "1.2" = false /\
  Update.is_newer_version "1.2" "2" = true.
Proof.
  destruct is_newer_version_strict_order as (_ & Hasym & Htrans).
  split.
  - apply Hasym. reflexivity.
  - apply (Htrans "1.2" "1.2.10" "2"); reflexivity.
Defined.

Lemma split_go_app sep t a : forall cur,
  Py.split_go sep (a ++ String sep t)%string cur
  = Py.split_go sep a cur ++ Py.split_go sep t [].
Proof.
  induction a as [|x a IH]; intros cur.
  - rewrite append_empty_l. cbn [Py.split_go]. rewrite Ascii.eqb_refl. reflexivity.
  - rewrite append_cons. cbn [Py.split_go].
    destruct (Ascii.eqb x sep); [rewrite IH; reflexivity | apply IH].
Qed.

Lemma parts_dot_zero v l :
  Update.parts v = Some l -> Update.parts (v ++ ".0")%string = Some (l ++ [0]).
Proof.
  intros H. apply parts_Some in H. apply parts_Some.
  unfold Py.split. rewrite (split_go_app "." "0" v []).
  apply Forall2_app; [exact H |]. repeat constructor.
Qed.

Lemma parts_dot_zero_None v :
  Update.parts v = None -> Update.parts (v ++ ".0")%string = None.
Proof.
  intros H. apply parts_None in H. apply parts_None.
  unfold Py.split. rewrite (split_go_app "." "0" v []).
  apply Exists_app. left. exact H.
Qed.

Lemma zero_pad_snoc m l :
  (S (length l) <= m)%nat -> zero_pad m (l ++ [0]) = zero_pad m l.
Proof.
  intros H. unfold zero_pad. rewrite length_app, <- app_assoc. cbn [length app].
  f_equal. replace (m - length l)%nat with (S (m - (length l + 1)))%nat by lia.
  reflexivity.
Qed.

(** X19. A trailing component ".0" never changes the answer of
    [is_newer_version], on either side: "1.2" and "1.2.0" are the same
    version for every comparison. *)
Theorem is_newer_version_trailing_zero a b :
  Update.is_newer_version (a ++ ".0")%string b = Update.is_newer_version a b /\
  Update.is_newer_version a (b ++ ".0")%string = Update.is_newer_version a b.
Proof.
  destruct (Update.parts a) as [la |] eqn:Ha; destruct (Update.parts b) as [lb |] eqn:Hb.
  - set (m := S (Nat.max (length la) (length lb))).
    pose proof (parts_dot_zero a la Ha) as Ha0. pose proof (parts_dot_zero b lb Hb) as Hb0.
    rewrite (is_newer_version_at a b la lb m Ha Hb) by lia.
    rewrite (is_newer_version_at _ b _ lb m Ha0 Hb) by (rewrite ?length_app; cbn; lia).
    rewrite (is_newer_version_at a _ la _ m Ha Hb0) by (rewrite ?length_app; cbn; lia).
    rewrite !zero_pad_snoc by lia. split; reflexivity.
  - pose proof (parts_dot_zero_None b Hb) as Hb0. unfold Update.is_newer_version.
    rewrite Hb, Hb0. destruct (Update.parts (a ++ ".0")%string), (Update.parts a); split; reflexivity.
  - pose proof (parts_dot_zero_None a Ha) as Ha0. unfold Update.is_newer_version.
    rewrite Ha, Ha0. split; reflexivity.
  - pose proof (parts_dot_zero_None a Ha) as Ha0. unfold Update.is_newer_version.
    rewrite Ha, Ha0. split; reflexivity.
Qed.

(** ** The manifest diff and the update step *)

(** X20. [compare_versions] reports a tool exactly when the remote manifest
    lists it with a version newer than the local one, "0.0.0" standing for a
    tool the local manifest lacks; the entry reported carries these two
    versions. Comparing a manifest with itself reports nothing. *)
Theorem compare_versions_reports local_versions remote_versions :
  (forall tool info,
      Update.compare_versions local_versions remote_versions !! tool = Some info <->
      exists rv,
        Update.get_tools remote_versions !! tool = Some rv /\
        Update.latest info = rv /\
        Update.current info = default "0.0.0" (Update.get_tools local_versions !! tool) /\
        Update.is_newer_version (Update.current info) rv = true) /\
  Update.compare_versions local_versions local_versions = ∅.
Proof.
  split.
  - intros tool [cur lat]. rewrite compare_versions_lookup.
    cbn [Update.current Update.latest].
    destruct (Update.get_tools remote_versions !! tool) as [rv |].
    + cbn zeta.
      destruct (Update.is_newer_version
                  (default "0.0.0" (Update.get_tools local_versions !! tool)) rv) eqn:Hnew.
      * split.
        -- intros H. injection H as <- <-. exists rv. auto.
        -- intros (rv' & Hrv & <- & -> & _). injection Hrv as <-. reflexivity.
      * split; [discriminate |].
        intros (rv' & Hrv & <- & -> & Hn). injection Hrv as <-. congruence.
    + split; [discriminate |]. intros (rv & Hrv & _). discriminate Hrv.
  - apply map_eq. intros tool. rewrite compare_versions_lookup, lookup_empty.
    destruct (Update.get_tools local_versions !! tool) as [v |]; [| reflexivity].
    cbn. rewrite is_newer_version_irrefl. reflexivity.
Qed.

Lemma compare_versions_reports_witness :
  let local_versions := Update.Versions (Some {[ "BulkCommands" := "1.0.0" ]}) in
  Update.compare_versions local_versions remote_1_1_0 !! "BulkCommands"
  = Some (Update.UpdateInfo "1.0.0" "1.1.0").
Proof.
  intros local_versions.
  destruct (compare_versions_reports local_versions remote_1_1_0) as [Hiff _].
  apply Hiff. exists "1.1.0". repeat split; reflexivity.
Defined.

(** What one call of [copy_tool_folder] does: it leaves the folders of the
    other tools and versions.json alone, and ends in one of three ways. *)
Lemma copy_tool_folder_cases a tool content fs :
  let r := Update.copy_tool_folder a tool content fs in
  (forall other, other <> tool -> Update.folders r.2 !! other = Update.folders fs !! other) /\
  Update.versions_json r.2 = Update.versions_json fs /\
  ((is_Some (Update.folders fs !! tool) /\ Update.rmtree_fails a tool = true /\
    r.1 = false /\ Update.folders r.2 !! tool = Some (Update.rmtree_leaves a tool)) \/
   ((is_Some (Update.folders fs !! tool) -> Update.rmtree_fails a tool = false) /\
    Update.copytree_fails a tool = true /\
    r.1 = false /\ Update.folders r.2 !! tool = Update.copytree_leaves a tool) \/
   ((is_Some (Update.folders fs !! tool) -> Update.rmtree_fails a tool = false) /\
    Update.copytree_fails a tool = false /\
    r.1 = true /\ Update.folders r.2 !! tool = Some content)).
Proof.
  intros r. subst r.
  unfold Update.copy_tool_folder, Update.rmtree, Update.copytree, Update.set_folder.
  destruct (Update.folders fs !! tool) as [old |] eqn:Hold;
    [destruct (Update.rmtree_fails a tool) eqn:Hrm |];
    destruct (Update.copytree_fails a tool) eqn:Hcp;
    try destruct (Update.copytree_leaves a tool) as [part |] eqn:Hpart;
    cbn [fst snd Update.folders Update.versions_json];
    (split; [intros other Hne;
             rewrite ?lookup_insert_ne, ?lookup_delete_ne by congruence; reflexivity |]);
    (split; [reflexivity |]).
  all: try (left; split; [eauto |]; split; [reflexivity |]; split; [reflexivity |];
            apply lookup_insert_eq).
  all: try (right; left; split; [intros _; reflexivity |]; split; [reflexivity |];
            split; [reflexivity |];
            rewrite ?lookup_insert_eq, ?lookup_delete_eq; reflexivity).
  all: try (right; left; split; [intros [x Hx]; discriminate Hx |]; split; [reflexivity |];
            split; [reflexivity |];
            rewrite ?lookup_insert_eq, ?lookup_delete_eq; reflexivity).
  all: try (right; right; split; [intros _; reflexivity |]; split; [reflexivity |];
            split; [reflexivity |]; apply lookup_insert_eq).
  all: right; right; split; [intros [x Hx]; discriminate Hx |]; split; [reflexivity |];
       split; [reflexivity |]; apply lookup_insert_eq.
Qed.

Lemma install_loop_frame a selected_tools : forall n fs,
  let r := Update.install_loop a selected_tools n fs in
  (n <= r.1)%nat /\
  Update.versions_json r.2 = Update.versions_json fs /\
  (forall tool, tool ∉ selected_tools ->
                Update.folders r.2 !! tool = Update.folders fs !! tool).
Proof.
  induction selected_tools as [|t sel IH]; intros n fs; cbn zeta.
  - cbn. auto.
  - cbn [Update.install_loop].
    destruct (Update.repo_folders a !! t) as [content |].
    + pose proof (copy_tool_folder_cases a t content fs) as (Hother & Hv & _).
      destruct (Update.copy_tool_folder a t content fs) as [[] fs1]; cbn [fst snd] in *;
        match goal with
        | |- context [Update.install_loop a sel ?m fs1] =>
            destruct (IH m fs1) as (Hle & Hv' & Hf)
        end;
        (split; [lia |]); (split; [congruence |]);
        intros tool Hnot; apply not_elem_of_cons in Hnot as [Hne Hnot];
        rewrite (Hf tool Hnot); apply Hother; exact Hne.
    + destruct (IH n fs) as (Hle & Hv' & Hf).
      split; [exact Hle |]. split; [exact Hv' |].
      intros tool Hnot. apply not_elem_of_cons in Hnot as [_ Hnot]. exact (Hf tool Hnot).
Qed.

(** Whether a tool can be replaced depends on its own folder only. *)
Lemma cannot_replace_same_folder a fs fs1 tool :
  (is_Some (Update.folders fs !! tool) -> is_Some (Update.folders fs1 !! tool)) ->
  cannot_replace a fs tool -> cannot_replace a fs1 tool.
Proof.
  intros Hsame [Hrepo | [[Hsome Hrm] | Hcp]].
  - left. exact Hrepo.
  - right. left. split; [exact (Hsame Hsome) | exact Hrm].
  - right. right. exact Hcp.
Qed.

Lemma can_replace_not_cannot a fs tool :
  can_replace a fs tool -> cannot_replace a fs tool -> False.
Proof.
  intros ([c Hc] & Hrm & Hcp) [Hrepo | [[Hsome Hrm'] | Hcp']].
  - congruence.
  - rewrite (Hrm Hsome) in Hrm'. discriminate Hrm'.
  - congruence.
Qed.

(** The first loop when no selected tool can be replaced: the count stays,
    and a folder is afterwards as before, or what the removal that raised
    left of it, or what the copy that raised created. *)
Lemma install_loop_nothing a selected_tools : forall n fs,
  Forall (cannot_replace a fs) selected_tools ->
  let r := Update.install_loop a selected_tools n fs in
  r.1 = n /\
  (forall tool,
      Update.folders r.2 !! tool = Update.folders fs !! tool \/
      (tool ∈ selected_tools /\ Update.rmtree_fails a tool = true /\
       Update.folders r.2 !! tool = Some (Update.rmtree_leaves a tool)) \/
      (tool ∈ selected_tools /\ Update.copytree_fails a tool = true /\
       Update.folders r.2 !! tool = Update.copytree_leaves a tool)).
Proof.
  induction selected_tools as [|t sel IH]; intros n fs Hall; cbn zeta.
  - cbn. auto.
  - apply Forall_cons in Hall as [Ht Hall]. cbn [Update.install_loop].
    destruct (Update.repo_folders a !! t) as [content |] eqn:Hrepo.
    + pose proof (copy_tool_folder_cases a t content fs) as (Hother & _ & Hcases).
      destruct (Update.copy_tool_folder a t content fs) as [copied fs1]; cbn [fst snd] in *.
      assert (Hfail : copied = false /\ cannot_replace a fs1 t /\
                ((Update.rmtree_fails a t = true /\
                  Update.folders fs1 !! t = Some (Update.rmtree_leaves a t)) \/
                 (Update.copytree_fails a t = true /\
                  Update.folders fs1 !! t = Update.copytree_leaves a t))).
      { destruct Hcases as [(Hsome & Hrm & Hc & Hf) | [(Hrm & Hcp & Hc & Hf) | (Hrm & Hcp & _)]].
        - split; [exact Hc |]. split; [| left; auto].
          right. left. split; [rewrite Hf; eauto | exact Hrm].
        - split; [exact Hc |]. split; [| right; auto].
          right. right. exact Hcp.
        - exfalso. apply (can_replace_not_cannot a fs t); [| exact Ht].
          split; [eauto |]. split; assumption. }
      destruct Hfail as (-> & Ht1 & Hleft).
      assert (Hall1 : Forall (cannot_replace a fs1) sel).
      { eapply Forall_impl; [exact Hall |]. intros u Hu.
        destruct (decide (u = t)) as [-> | Hne]; [exact Ht1 |].
        apply (cannot_replace_same_folder a fs fs1 u); [| exact Hu].
        rewrite (Hother u Hne). auto. }
      destruct (IH n fs1 Hall1) as [Hn Hf]. split; [exact Hn |].
      intros tool. destruct (Hf tool) as [Hsame | [(Hin & Hrm & Hl) | (Hin & Hcp & Hl)]].
      * destruct (decide (tool = t)) as [-> | Hne].
        -- rewrite Hsame.
           destruct Hleft as [[Hrm Hl] | [Hcp Hl]].
           ++ right. left. split; [apply list_elem_of_here | auto].
           ++ right. right. split; [apply list_elem_of_here | auto].
        -- left. rewrite Hsame. apply Hother. exact Hne.
      * right. left. split; [apply list_elem_of_further; exact Hin | auto].
      * right. right. split; [apply list_elem_of_further; exact Hin | auto].
    + destruct (IH n fs Hall) as [Hn Hf]. split; [exact Hn |].
      intros tool. destruct (Hf tool) as [Hsame | [(Hin & Hrm & Hl) | (Hin & Hcp & Hl)]].
      * left. exact Hsame.
      * right. left. split; [apply list_elem_of_further; exact Hin | auto].
      * right. right. split; [apply list_elem_of_further; exact Hin | auto].
Qed.

(** X22. When none of the tools of a selection without repetition can be
    replaced (each one is missing from the archive, or its installed folder
    cannot be removed, or its copy fails), [update_tools] returns [False]
    and leaves versions.json as it was. The folders need not be as they
    were: a folder is afterwards as before, or what the removal that raised
    left of it, or what the copy that raised had created, which may be
    nothing. *)
Theorem update_tools_without_success a selected_tools remote_versions fs :
  NoDup selected_tools ->
  Forall (cannot_replace a fs) selected_tools ->
  let r := Update.update_tools a selected_tools remote_versions fs in
  r.1 = Ok false /\
  Update.versions_json r.2 = Update.versions_json fs /\
  (forall tool,
      Update.folders r.2 !! tool = Update.folders fs !! tool \/
      (tool ∈ selected_tools /\ Update.rmtree_fails a tool = true /\
       Update.folders r.2 !! tool = Some (Update.rmtree_leaves a tool)) \/
      (tool ∈ selected_tools /\ Update.copytree_fails a tool = true /\
       Update.folders r.2 !! tool = Update.copytree_leaves a tool)).
Proof.
  intros _ Hall r. subst r. unfold Update.update_tools.
  destruct (install_loop_nothing a selected_tools 0 fs Hall) as [Hn Hf].
  pose proof (install_loop_frame a selected_tools 0 fs) as (_ & Hv & _).
  destruct (Update.install_loop a selected_tools 0 fs) as [n fs1]; cbn [fst snd] in *.
  subst n. cbn [Nat.ltb Nat.leb fst snd].
  split; [reflexivity |]. split; [exact Hv | exact Hf].
Qed.

Lemma update_tools_without_success_witness :
  let a := Update.Archive {[ "BulkCommands" := "BulkCommands 1.1.0" ]}
                          (fun _ => false) (fun _ => true) false
                          (fun _ => "") (fun _ => Some "BulkCommands 1.1.0, in part") in
  let r := Update.update_tools a ["FDBSearching"; "BulkCommands"] remote_1_1_0 both_at_1_0_0 in
  r.1 = Ok false /\
  Update.versions_json r.2 = Update.versions_json both_at_1_0_0 /\
  Update.folders r.2 !! "FDBSearching" = Some "FDBSearching 1.0.0" /\
  Update.folders r.2 !! "BulkCommands" = Some "BulkCommands 1.1.0, in part".
Proof.
  intros a r. subst r.
  destruct (update_tools_without_success a ["FDBSearching"; "BulkCommands"]
              remote_1_1_0 both_at_1_0_0) as (Hr & Hv & Hf).
  - repeat constructor; intros Hel; apply list_elem_of_In in Hel; cbn in Hel;
      intuition discriminate.
  - constructor; [left; reflexivity |].
    constructor; [right; right; reflexivity | constructor].
  - split; [exact Hr |]. split; [exact Hv |]. split.
    + destruct (Hf "FDBSearching") as [Hsame | [(_ & Hrm & _) | (_ & _ & Hl)]].
      * rewrite Hsame. reflexivity.
      * discriminate Hrm.
      * vm_compute in Hl. discriminate Hl.
    + destruct (Hf "BulkCommands") as [Hsame | [(_ & Hrm & _) | (_ & _ & Hl)]].
      * vm_compute in Hsame. discriminate Hsame.
      * discriminate Hrm.
      * exact Hl.
Defined.





Lemma bump_loop_lookup selected_tools remote_versions : forall local_versions saved,
  Update.bump_loop selected_tools remote_versions local_versions = Ok saved ->
  (forall tool, tool ∉ selected_tools ->
                Update.get_tools saved !! tool = Update.get_tools local_versions !! tool) /\
  (forall tool rv, tool ∈ selected_tools ->
                   Update.get_tools remote_versions !! tool = Some rv ->
                   Update.get_tools saved !! tool = Some rv).
Proof.
  induction selected_tools as [|t sel IH]; intros local_versions saved H.
  - cbn in H. injection H as <-. split; [reflexivity |].
    intros tool rv Hin. apply elem_of_nil in Hin. destruct Hin.
  - cbn [Update.bump_loop] in H.
    destruct (Update.get_tools remote_versions !! t) as [rvt |] eqn:Hrt.
    + destruct (Update.tools local_versions) as [local_tools |] eqn:Hlt; [| discriminate H].
      destruct (IH _ _ H) as [Hout Hin]. split.
      * intros tool Hnot. apply not_elem_of_cons in Hnot as [Hne Hnot].
        rewrite (Hout tool Hnot). unfold Update.get_tools at 1 2.
        cbn [Update.tools]. rewrite Hlt. cbn. apply lookup_insert_ne. congruence.
      * intros tool rv Hel Hrv. destruct (decide (tool ∈ sel)) as [Hs | Hs].
        -- exact (Hin tool rv Hs Hrv).
        -- apply elem_of_cons in Hel as [-> | Hel]; [| contradiction].
           rewrite (Hout t Hs). unfold Update.get_tools at 1. cbn.
           rewrite lookup_insert_eq. congruence.
    + destruct (IH _ _ H) as [Hout Hin]. split.
      * intros tool Hnot. apply not_elem_of_cons in Hnot as [_ Hnot]. exact (Hout tool Hnot).
      * intros tool rv Hel Hrv. apply elem_of_cons in Hel as [-> | Hel]; [congruence |].
        exact (Hin tool rv Hel Hrv).
Qed.

(** X23. [update_tools] leaves a tool that is not selected alone: its
    folder and its version in versions.json are the same after the call as
    before, whatever happens to the selected tools. *)
Theorem update_tools_frame a selected_tools remote_versions fs tool :
  tool ∉ selected_tools ->
  let r := Update.update_tools a selected_tools remote_versions fs in
  Update.folders r.2 !! tool = Update.folders fs !! tool /\
  Update.get_tools (Update.load_versions r.2) !! tool
  = Update.get_tools (Update.load_versions fs) !! tool.
Proof.
  intros Hnot r. subst r. unfold Update.update_tools.
  pose proof (install_loop_frame a selected_tools 0 fs) as (_ & Hv & Hf).
  destruct (Update.install_loop a selected_tools 0 fs) as [n fs1]; cbn [fst snd] in *.
  assert (Hload : Update.load_versions fs1 = Update.load_versions fs)
    by (unfold Update.load_versions; rewrite Hv; reflexivity).
  destruct (0 <? n)%nat; [| cbn [snd]; rewrite Hload; auto].
  destruct (Update.bump_loop selected_tools remote_versions (Update.load_versions fs1))
    as [saved | e] eqn:Hbump; cbn [snd]; [| rewrite Hload; auto].
  apply bump_loop_lookup in Hbump as [Hout _].
  unfold Update.save_versions. destruct (Update.save_fails a).
  - rewrite Hload. auto.
  - cbn [Update.folders]. split; [auto |].
    change (Update.load_versions (Update.Files (Update.folders fs1) (Some saved))) with saved.
    rewrite (Hout tool Hnot), Hload. reflexivity.
Qed.

Lemma update_tools_frame_witness :
  let r := Update.update_tools archive_without_fdb ["BulkCommands"] remote_1_1_0 both_at_1_0_0 in
  Update.folders r.2 !! "FDBSearching" = Some "FDBSearching 1.0.0" /\
  Update.get_tools (Update.load_versions r.2) !! "FDBSearching" = Some "1.0.0".
Proof.
  intros r. subst r.
  destruct (update_tools_frame archive_without_fdb ["BulkCommands"] remote_1_1_0
              both_at_1_0_0 "FDBSearching") as [Hf Hv].
  - intros Hin. apply list_elem_of_singleton in Hin. discriminate Hin.
  - split; [rewrite Hf | rewrite Hv]; reflexivity.
Defined.

(** X24. After an update that returns [True] and whose versions.json could
    be written, a new comparison of the saved manifest with the remote one
    reports none of the selected tools. *)
Theorem update_then_compare a selected_tools remote_versions fs fs' tool :
  Update.update_tools a selected_tools remote_versions fs = (Ok true, fs') ->
  Update.save_fails a = false ->
  tool ∈ selected_tools ->
  Update.compare_versions (Update.load_versions fs') remote_versions !! tool = None.
Proof.
  unfold Update.update_tools.
  destruct (Update.install_loop a selected_tools 0 fs) as [n fs1].
  destruct (0 <? n)%nat; [| discriminate].
  destruct (Update.bump_loop selected_tools remote_versions (Update.load_versions fs1))
    as [saved | e] eqn:Hbump; [| discriminate].
  intros H Hsave Hin. injection H as <-.
  unfold Update.save_versions. rewrite Hsave.
  change (Update.load_versions (Update.Files (Update.folders fs1) (Some saved))) with saved.
  rewrite compare_versions_lookup.
  destruct (Update.get_tools remote_versions !! tool) as [rv |] eqn:Hrv; [| reflexivity].
  apply bump_loop_lookup in Hbump as [_ Hsel].
  rewrite (Hsel tool rv Hin Hrv). cbn.
  rewrite is_newer_version_irrefl. reflexivity.
Qed.

Lemma update_then_compare_witness :
  Update.compare_versions
    (Update.load_versions
       (Update.update_tools archive_without_fdb ["FDBSearching"; "BulkCommands"]
          remote_1_1_0 both_at_1_0_0).2)
    remote_1_1_0 !! "BulkCommands" = None.
Proof.
  apply (update_then_compare archive_without_fdb ["FDBSearching"; "BulkCommands"]
           remote_1_1_0 both_at_1_0_0).
  - destruct (Update.update_tools _ _ _ _) as [r fs'] eqn:E. cbn [snd].
    f_equal. apply (f_equal fst) in E. vm_compute in E. congruence.
  - reflexivity.
  - apply list_elem_of_further, list_elem_of_here.
Defined.

Lemma bump_loop_no_tools selected_tools remote_versions local_versions :
  Update.tools local_versions = None ->
  Exists (fun tool => is_Some (Update.get_tools remote_versions !! tool)) selected_tools ->
  Update.bump_loop selected_tools remote_versions local_versions
  = Raise (Exn KeyError "'tools'").
Proof.
  intros Hnone Hex. induction Hex as [t sel [rv Hrv] | t sel _ IH]; cbn [Update.bump_loop].
  - rewrite Hrv, Hnone. reflexivity.
  - destruct (Update.get_tools remote_versions !! t); [rewrite Hnone; reflexivity | exact IH].
Qed.

(** X25. A local versions.json without a "tools" entry: when at least one
    copy succeeded and a selected tool is listed in the remote manifest,
    [update_tools] raises [KeyError] after the folders have been replaced,
    and versions.json is left as it was. *)
Theorem update_tools_needs_tools_entry a selected_tools remote_versions fs :
  Update.versions_json fs = Some (Update.Versions None) ->
  (0 < (Update.install_loop a selected_tools 0 fs).1)%nat ->
  Exists (fun tool => is_Some (Update.get_tools remote_versions !! tool)) selected_tools ->
  let r := Update.update_tools a selected_tools remote_versions fs in
  r.1 = Raise (Exn KeyError "'tools'") /\
  r.2 = (Update.install_loop a selected_tools 0 fs).2 /\
  Update.versions_json r.2 = Update.versions_json fs.
Proof.
  intros Hv Hn Hex r. subst r. unfold Update.update_tools.
  pose proof (install_loop_frame a selected_tools 0 fs) as (_ & Hv1 & _).
  destruct (Update.install_loop a selected_tools 0 fs) as [n fs1]; cbn [fst snd] in *.
  apply Nat.ltb_lt in Hn. rewrite Hn.
  rewrite bump_loop_no_tools; [cbn; auto | | exact Hex].
  unfold Update.load_versions. rewrite Hv1, Hv. reflexivity.
Qed.

Lemma update_tools_needs_tools_entry_witness :
  let fs := Update.Files {[ "BulkCommands" := "BulkCommands 1.0.0" ]}
                         (Some (Update.Versions None)) in
  let r := Update.update_tools archive_without_fdb ["BulkCommands"] remote_1_1_0 fs in
  r.1 = Raise (Exn KeyError "'tools'") /\
  Update.folders r.2 !! "BulkCommands" = Some "BulkCommands 1.1.0".
Proof.
  intros fs r. subst r.
  destruct (update_tools_needs_tools_entry archive_without_fdb ["BulkCommands"]
              remote_1_1_0 fs) as (Hr & Hfs & _).
  - reflexivity.
  - vm_compute. lia.
  - constructor. eexists. reflexivity.
  - split; [exact Hr | rewrite Hfs; reflexivity].
Defined.

(** ** The cache of the remote manifest and the selection of updates *)




Lemma selected_updatable updates_available tool_list idxs :
  Forall (fun tool => tool ∈ tool_list /\ is_Some (updates_available !! tool))
         (Update.selected updates_available tool_list idxs).
Proof.
  induction idxs as [|idx idxs IH]; [constructor |].
  cbn [Update.selected].
  destruct ((0 <=? idx) && (idx <? Z.of_nat (length tool_list))); [| exact IH].
  destruct (tool_list !! Z.to_nat idx) as [tool |] eqn:Hlook; [| exact IH].
  destruct (bool_decide (is_Some (updates_available !! tool))) eqn:Hup; [| exact IH].
  constructor; [| exact IH]. split.
  - apply list_elem_of_lookup_2 in Hlook. exact Hlook.
  - apply bool_decide_eq_true_1 in Hup. exact Hup.
Qed.

(** X27. The selection [display_update_options] returns. Whatever is
    typed, every tool returned is one of [all_tools] and has an update
    available; when there is no update at all the answer is the empty list
    and nothing is asked. A line "all" (in any case, with blanks around)
    selects the tools of [all_tools] that have an update, in their order,
    and "none" selects nothing. A line that contains anything else than
    numbers, or that selects no tool with an update, is dropped and the next
    line is read. *)
Theorem display_update_options_selection updates_available all_tools :
  (forall typed selected_tools,
      Update.display_update_options updates_available all_tools typed = Some selected_tools ->
      Forall (fun tool => tool ∈ all_tools /\ is_Some (updates_available !! tool))
             selected_tools) /\
  (forall typed, updates_available = ∅ ->
                 Update.display_update_options updates_available all_tools typed = Some []) /\
  (forall line rest,
      updates_available <> ∅ ->
      (Py.lower (Py.strip line) = "all" ->
       Update.display_update_options updates_available all_tools (line :: rest)
       = Some (List.filter (fun tool => bool_decide (is_Some (updates_available !! tool)))
                           all_tools)) /\
      (Py.lower (Py.strip line) = "none" ->
       Update.display_update_options updates_available all_tools (line :: rest) = Some []) /\
      (Py.lower (Py.strip line) <> "all" -> Py.lower (Py.strip line) <> "none" ->
       (Update.selections (Py.lower (Py.strip line)) = None \/
        exists idxs, Update.selections (Py.lower (Py.strip line)) = Some idxs /\
                     Update.selected updates_available all_tools idxs = []) ->
       Update.display_update_options updates_available all_tools (line :: rest)
       = Update.display_update_options updates_available all_tools rest)).
Proof.
  split; [|split].
  - intros typed sel. unfold Update.display_update_options.
    destruct (bool_decide (updates_available = ∅) && bool_decide (all_tools = []));
      [intros H; injection H as <-; constructor |].
    destruct (bool_decide (updates_available = ∅));
      [intros H; injection H as <-; constructor |].
    induction typed as [|line rest IH]; cbn [Update.selection_loop]; [discriminate |].
    destruct (String.eqb (Py.lower (Py.strip line)) "none");
      [intros H; injection H as <-; constructor |].
    destruct (String.eqb (Py.lower (Py.strip line)) "all").
    + intros H. injection H as <-. apply Forall_forall. intros tool Hin.
      apply list_elem_of_In, filter_In in Hin as [Hin Hup].
      split; [apply list_elem_of_In; exact Hin | apply bool_decide_eq_true_1 in Hup; exact Hup].
    + destruct (Update.selections (Py.lower (Py.strip line))) as [idxs |]; [| exact IH].
      pose proof (selected_updatable updates_available all_tools idxs) as Hsel.
      destruct (Update.selected updates_available all_tools idxs) as [|t ts]; [exact IH |].
      intros H. injection H as <-. exact Hsel.
  - intros typed ->. unfold Update.display_update_options.
    rewrite bool_decide_eq_true_2 by reflexivity.
    destruct (bool_decide (all_tools = [])); reflexivity.
  - intros line rest Hne. unfold Update.display_update_options.
    rewrite (bool_decide_eq_false_2 _ Hne). cbn [andb].
    cbn [Update.selection_loop]. split; [|split].
    + intros ->. reflexivity.
    + intros ->. reflexivity.
    + intros Hall Hnone Hdrop.
      rewrite (proj2 (String.eqb_neq _ _) Hall), (proj2 (String.eqb_neq _ _) Hnone).
      destruct Hdrop as [-> | (idxs & -> & ->)]; reflexivity.
Qed.

Lemma display_update_options_selection_witness :
  let updates : gmap string Update.update_info :=
    {[ "BulkCommands" := Update.UpdateInfo "1.0.0" "1.1.0" ]} in
  Update.display_update_options updates ["BulkCommands"; "FDBSearching"] ["1,x"; "2"; " ALL "]
  = Some ["BulkCommands"].
Proof.
  intros updates.
  destruct (display_update_options_selection updates ["BulkCommands"; "FDBSearching"])
    as (_ & _ & Hline).
  assert (Hne : updates <> ∅).
  { intros H. apply (f_equal (fun m => m !! "BulkCommands")) in H. vm_compute in H.
    discriminate H. }
  destruct (Hline "1,x" ["2"; " ALL "] Hne) as (_ & _ & Hdrop1).
  destruct (Hline "2" [" ALL "] Hne) as (_ & _ & Hdrop2).
  destruct (Hline " ALL " [] Hne) as (Hall & _).
  rewrite Hdrop1, Hdrop2, Hall.
  - vm_compute. reflexivity.
  - reflexivity.
  - discriminate.
  - discriminate.
  - right. exists [1]. split; reflexivity.
  - discriminate.
  - discriminate.
  - left. reflexivity.
Defined.

(** ** Credentials *)

Lemma rstrip_cons c s :
  Py.rstrip (String c s)
  = match Py.rstrip s with
    | EmptyString => if Py.is_space c then EmptyString else String c EmptyString
    | String d r => String c (String d r)
    end.
Proof. reflexivity. Qed.

Lemma rstrip_idem s : Py.rstrip (Py.rstrip s) = Py.rstrip s.
Proof.
  induction s as [|c s IH]; [reflexivity |].
  rewrite rstrip_cons. destruct (Py.rstrip s) as [|d r] eqn:E.
  - destruct (Py.is_space c) eqn:Hc; [reflexivity |].
    rewrite rstrip_cons. cbn [Py.rstrip]. rewrite Hc. reflexivity.
  - rewrite rstrip_cons, IH. reflexivity.
Qed.

Lemma lstrip_head s :
  Py.lstrip s = "" \/ exists c r, Py.lstrip s = String c r /\ Py.is_space c = false.
Proof.
  induction s as [|c s IH]; [left; reflexivity |].
  cbn [Py.lstrip]. destruct (Py.is_space c) eqn:Hc; [exact IH |]. right. eauto.
Qed.

Lemma rstrip_head c r :
  Py.is_space c = false -> exists r', Py.rstrip (String c r) = String c r'.
Proof.
  intros Hc. rewrite rstrip_cons. destruct (Py.rstrip r); [rewrite Hc |]; eauto.
Qed.

Lemma strip_idem s : Py.strip (Py.strip s) = Py.strip s.
Proof.
  unfold Py.strip. destruct (lstrip_head s) as [-> | (c & r & -> & Hc)]; [reflexivity |].
  destruct (rstrip_head c r Hc) as [r' Hr]. rewrite Hr. cbn [Py.lstrip]. rewrite Hc, <- Hr.
  apply rstrip_idem.
Qed.

(** X28. What [load_credentials] returns when it returns: the file exists
    and its stripped text has at least two lines; the user name and the
    password are the first two of them, stripped, so neither is empty nor
    begins or ends with white space, and [validate_credentials] accepts
    them. The file is not changed. *)
Theorem load_credentials_result creds_path write_fails create_if_missing f username password f' :
  Credentials.load_credentials creds_path write_fails create_if_missing f
  = (inr (username, password), f') ->
  f' = f /\
  (exists text line0 line1 rest,
      f = Credentials.Content text /\
      Py.splitlines (Py.strip text) = line0 :: line1 :: rest /\
      username = Py.strip line0 /\ password = Py.strip line1) /\
  username <> "" /\ password <> "" /\
  Py.strip username = username /\ Py.strip password = password /\
  Credentials.validate_credentials username password = true.
Proof.
  unfold Credentials.load_credentials. destruct f as [| e | text].
  - destruct create_if_missing; [destruct write_fails |]; discriminate.
  - destruct (Credentials.is_value_error e); discriminate.
  - destruct (Py.splitlines (Py.strip text)) as [|line0 [|line1 rest]] eqn:Hlines;
      try discriminate.
    destruct (String.eqb_spec (Py.strip line0) "") as [| Hu]; [discriminate |].
    destruct (String.eqb_spec (Py.strip line1) "") as [| Hp]; [discriminate |].
    cbn [orb]. intros H. injection H as <- <- <-.
    split; [reflexivity |]. split; [exists text, line0, line1, rest; auto |].
    split; [exact Hu |]. split; [exact Hp |].
    split; [apply strip_idem |]. split; [apply strip_idem |].
    unfold Credentials.validate_credentials.
    rewrite (proj2 (String.eqb_neq _ _) Hu), (proj2 (String.eqb_neq _ _) Hp). reflexivity.
Qed.

Lemma load_credentials_result_witness :
  let f := Credentials.Content ("  admin " ++ String "010" ("s3cret" ++ String "010" ""))%string in
  Credentials.load_credentials "credentials.txt" false true f = (inr ("admin", "s3cret"), f) /\
  Credentials.validate_credentials "admin" "s3cret" = true.
Proof.
  intros f.
  assert (H : Credentials.load_credentials "credentials.txt" false true f
              = (inr ("admin", "s3cret"), f)) by (vm_compute; reflexivity).
  split; [exact H |].
  apply (load_credentials_result "credentials.txt" false true f "admin" "s3cret" f H).
Defined.

(** X29. The first start without credentials.txt: [ensure_credentials]
    writes the template and exits with code 1, and when the template cannot
    be written it exits all the same and no file appears. A start on the
    template left as it is does not stop: the template loads as the user
    "username" with the password "password". [create_credentials_template]
    never replaces a file that exists. *)
Theorem ensure_credentials_template creds_path write_fails :
  Main.ensure_credentials creds_path false Credentials.Absent
  = (inl 1, Credentials.Content Credentials.template) /\
  Main.ensure_credentials creds_path true Credentials.Absent = (inl 1, Credentials.Absent) /\
  Main.ensure_credentials creds_path write_fails (Credentials.Content Credentials.template)
  = (inr ("username", "password"), Credentials.Content Credentials.template) /\
  (forall f, f <> Credentials.Absent ->
             Credentials.create_credentials_template write_fails f = (false, f)).
Proof.
  split; [reflexivity |]. split; [reflexivity |]. split; [reflexivity |].
  intros [| e | text] Hf; [contradiction | reflexivity | reflexivity].
Qed.

Lemma ensure_credentials_template_witness :
  Credentials.create_credentials_template false (Credentials.Content "admin")
  = (false, Credentials.Content "admin").
Proof.
  destruct (ensure_credentials_template "credentials.txt" false) as (_ & _ & _ & Hkeep).
  apply Hkeep. discriminate.
Defined.

(** ** The CSV loader on any file *)

Lemma read_items_stripped fieldnames column_name ls : forall items items',
  Csv.read_items fieldnames column_name ls items = Ok items' ->
  exists added, items' = items ++ added /\
                Forall (fun v => v <> "" /\ Py.strip v = v) added.
Proof.
  induction ls as [|[cells | e] ls IH]; intros items items' H; cbn [Csv.read_items] in H.
  - injection H as <-. exists []. rewrite app_nil_r. split; [reflexivity | constructor].
  - destruct cells as [|c0 cells]; [exact (IH _ _ H) |].
    destruct (Csv.row_dict fieldnames (c0 :: cells) !! column_name) as [[cell |] |];
      try discriminate H.
    destruct (String.eqb_spec (Py.strip cell) "") as [_ | Hne]; [exact (IH _ _ H) |].
    destruct (IH _ _ H) as (added & -> & Hall).
    exists (Py.strip cell :: added). rewrite <- app_assoc. split; [reflexivity |].
    constructor; [split; [exact Hne | apply strip_idem] | exact Hall].
  - discriminate H.
Qed.

(** X30. On any file, readable or not, [load_csv_column] either raises a
    [ValueError] whose message contains the path of the file, or returns a
    list that is not empty and whose items are not empty and carry no white
    space at either end. *)
Theorem load_csv_column_total csv_path column_name f :
  match Csv.load_csv_column csv_path column_name f with
  | Raise e => exn_kind e = ValueError /\ Py.contains (exn_str e) csv_path = true
  | Ok items => items <> [] /\ Forall (fun v => v <> "" /\ Py.strip v = v) items
  end.
Proof.
  unfold Csv.load_csv_column.
  destruct (Csv.read_column csv_path column_name f) as [items | [kind msg]] eqn:Hread.
  - destruct items as [|v items].
    + split; [reflexivity | apply contains_app_end].
    + split; [discriminate |].
      unfold Csv.read_column in Hread.
      destruct f as [e | [|[fieldnames | e] rest]]; try discriminate Hread.
      destruct (bool_decide (fieldnames = []) || negb (bool_decide (column_name ∈ fieldnames)));
        [discriminate Hread |].
      apply read_items_stripped in Hread as (added & -> & Hall). exact Hall.
  - destruct kind; cbn [exn_kind exn_str];
      (split; [reflexivity |]);
      first [ apply (contains_app "CSV parsing error in " csv_path)
            | apply (contains_app "Error reading " csv_path) ].
Qed.
